(** * Invoice processing pipeline: validation, confidence scoring,
      extraction with retry, and the processing queue.

    A shallow embedding of
      - src/services/validationService.js   (ValidationService)
      - src/services/extractionService.js   (ExtractionService)
      - src/services/processingService.js   (ProcessingService)
      - src/config/index.js                 (config.processing)
    and the theorems that relate the natural-language specification of
    the pipeline to that code.

    Numbers.  A JavaScript number is a binary64 value; a finite one is
    a rational, and the model keeps it as an exact [Q].  The arithmetic
    of the validation checks, of the mock generator and of the rounding
    to cents rounds every result to the nearest binary64 value, as the
    machine does ([fl], [fadd], [fsub], [fmul], [fdiv]); a decimal
    literal of the source, such as 0.01, is the binary64 value nearest
    to it.  Results beyond the binary64 range (about 1.8e308) are
    outside the model, and so is the sign of zero.  The special values
    are handled where the source can produce them (a division by zero,
    a comparison with a missing operand).  The two confidence formulas
    are kept in exact arithmetic.  A field of a JSON object is a
    [jsval]: absent ([Undefined]), [Null], or a value of the field's
    type; a number field holds the binary64 value that [JSON.parse]
    made of the numeral.

    Database.  The table of invoices is a finite map from ids to
    rows.  The [invoice.save()] that writes the extracted columns can
    be refused: always for a date that did not parse, otherwise as
    [Env] says.  The other writes set the status, error and
    notification columns of a row read from the table, and succeed.

    Asynchrony.  The service runs on a single-threaded event loop.  A
    call of [processInvoice] increments the counter before its first
    [await]; the model splits the call there: [enter] is the
    synchronous start that the queue loop performs, [settle] is the
    rest of the call ([try], [catch], [finally]), taken in one step of
    the transition system.  What the outside world does during a run
    (the model API, the clock, [Math.random], the database's answer
    to a save) is an [Env]; what the run
    does to the outside world is recorded in the [trace]. *)

From Stdlib Require Import ZArith QArith Qround Qabs Qminmax Qpower Qreduction Lia Lqa.
From Stdlib Require Import String Ascii List Bool DecimalString.
From stdpp Require Import base option list gmap strings.

Import ListNotations.
Local Open Scope Z_scope.
Local Open Scope Q_scope.

(* ===================================================================== *)
(** ** JavaScript values *)
(* ===================================================================== *)

Module Js.

(** A property of a parsed JSON object. *)
Inductive jsval (A : Type) : Type :=
| Undefined
| Null
| Val (a : A).
Arguments Undefined {A}.
Arguments Null {A}.
Arguments Val {A} a.

(** [x == 0] as a boolean. *)
Definition Qzerob (q : Q) : bool := Qeq_bool q 0.

(** ToBoolean on a number field: false for undefined, null and 0. *)
Definition truthyN (v : jsval Q) : bool :=
  match v with
  | Val q => negb (Qzerob q)
  | _ => false
  end.

(** ToBoolean on a string field: false for undefined, null and the
    empty string. *)
Definition truthyS (v : jsval string) : bool :=
  match v with
  | Val s => negb (String.eqb s EmptyString)
  | _ => false
  end.

(** ToBoolean on an array field: every array is truthy, also []. *)
Definition truthyL {A} (v : jsval (list A)) : bool :=
  match v with
  | Val _ => true
  | _ => false
  end.

(** [v || 0] on a number field. *)
Definition orZero (v : jsval Q) : Q :=
  match v with
  | Val q => if Qzerob q then 0 else q
  | _ => 0
  end.

(** [a <= b] as a boolean; [a < b] as a boolean. *)
Definition Qleb (a b : Q) : bool := Qle_bool a b.
Definition Qltb (a b : Q) : bool := negb (Qle_bool b a).

(** [v <= 0] with ToNumber on the left: undefined is NaN (every
    comparison false), null is 0. *)
Definition leZero (v : jsval Q) : bool :=
  match v with
  | Undefined => false
  | Null => true
  | Val q => Qleb q 0
  end.

(** [v < 0]. *)
Definition ltZero (v : jsval Q) : bool :=
  match v with
  | Val q => Qltb q 0
  | _ => false
  end.

(** [v > c] for a positive constant c. *)
Definition gtConst (v : jsval Q) (c : Q) : bool :=
  match v with
  | Val q => Qltb c q
  | _ => false
  end.

(** Strict equality [a === b] of two number fields. *)
Definition strictEqN (a b : jsval Q) : bool :=
  match a, b with
  | Undefined, Undefined => true
  | Null, Null => true
  | Val x, Val y => Qeq_bool x y
  | _, _ => false
  end.

(** *** Double precision

    [fl x] is the binary64 value nearest to the rational [x], ties to
    the even significand: the magnitude is rounded to a multiple of
    [2^u], where [u] is 52 below the binary exponent of [x] and not
    below -1074 (the subnormal range). *)

Definition pow2 (k : Z) : Q := Qpower 2 k.

(** The binary exponent of a positive rational: the integer [e] with
    [2^e <= x < 2^(e+1)]. *)
Definition ilog2 (x : Q) : Z :=
  let k := (Z.log2 (Qnum x) - Z.log2 (Zpos (Qden x)))%Z in
  if Qle_bool (pow2 k) x then k else (k - 1)%Z.

(** The nearest integer, ties to even. *)
Definition rne (y : Q) : Z :=
  let f := Qfloor y in
  match Qcompare (y - inject_Z f) (1 # 2) with
  | Lt => f
  | Gt => (f + 1)%Z
  | Eq => if Z.even f then f else (f + 1)%Z
  end.

(** The exponent of the unit in the last place. *)
Definition ulp (x : Q) : Z := Z.max (ilog2 x - 52) (-1074).

(** The multiple of [2^u] nearest to [x]. *)
Definition grid (u : Z) (x : Q) : Q := inject_Z (rne (x / pow2 u)) * pow2 u.

Definition flpos (x : Q) : Q := Qred (grid (ulp x) x).

Definition fl (x : Q) : Q :=
  if Qle_bool 0 x then flpos x else Qred (- flpos (- x)).

(** The operators [+], [-], [*] and [/] on numbers. *)
Definition fadd (a b : Q) : Q := fl (a + b).
Definition fsub (a b : Q) : Q := fl (a - b).
Definition fmul (a b : Q) : Q := fl (a * b).
Definition fdiv (a b : Q) : Q := fl (a / b).

(** [parseFloat] of a decimal numeral, also the implicit conversion of
    such a string to a number. *)
Definition parseFloat (numeral : Q) : Q := fl numeral.

(** [Math.round(x)]: the nearest integer, ties towards +infinity. *)
Definition Math_round (x : Q) : Z := Qfloor (x + (1 # 2)).

(** [Math.round(x * 100) / 100]. *)
Definition round2 (x : Q) : Q := fdiv (inject_Z (Math_round (fmul x 100))) 100.

(** [x.toFixed(2)]: the numeral with two decimals nearest to the exact
    value of the number [x], ties away from zero (toFixed rounds the
    magnitude and keeps the sign).  The result is a string; it is
    modelled by the rational it denotes. *)
Definition toFixed2 (x : Q) : Q :=
  if Qltb x 0
  then - (inject_Z (Qfloor (- x * 100 + (1 # 2))) / 100)
  else inject_Z (Qfloor (x * 100 + (1 # 2))) / 100.

(** [Math.floor(x)] as an integer. *)
Definition Math_floor (x : Q) : Z := Qfloor x.

(** [Math.abs]. *)
Definition Math_abs (x : Q) : Q := Qabs x.

(** [x % 100 === 0] on a number: x is an integral multiple of 100. *)
Definition multipleOf100 (x : Q) : bool :=
  Qeq_bool (inject_Z (Qfloor (x / 100)) * 100) x.

(** [diff / denom > thr] for [diff > 0]: dividing a positive number
    by zero gives +Infinity, which exceeds every threshold. *)
Definition ratioExceeds (diff denom thr : Q) : bool :=
  if Qzerob denom then Qltb 0 diff else Qltb thr (fdiv diff denom).

End Js.
Export Js.

(* ===================================================================== *)
(** ** Strings: the few String.prototype and RegExp tests the code uses *)
(* ===================================================================== *)

Module Str.

Definition chars (s : string) : list ascii := list_ascii_of_string s.

(** [\s] on the ASCII range: space, tab, line feed, vertical tab,
    form feed, carriage return. *)
Definition isSpace (c : ascii) : bool :=
  let n := nat_of_ascii c in
  (Nat.eqb n 32 || (Nat.leb 9 n && Nat.leb n 13))%bool.

(** [[^\s@]]. *)
Definition plainChar (c : ascii) : bool :=
  (negb (isSpace c) && negb (Ascii.eqb c "@"))%bool.

(** Split at the first occurrence of [c]. *)
Fixpoint splitAt (c : ascii) (l : list ascii)
  : option (list ascii * list ascii) :=
  match l with
  | [] => None
  | x :: t =>
      if Ascii.eqb x c then Some ([], t)
      else match splitAt c t with
           | Some (a, b) => Some (x :: a, b)
           | None => None
           end
  end.

(** A "." that is neither the first nor the last character. *)
Definition hasInnerDot (d : list ascii) : bool :=
  match d with
  | [] => false
  | _ :: t => existsb (Ascii.eqb ".") (removelast t)
  end.

(** [/^[^\s@]+@[^\s@]+\.[^\s@]+$/.test(s)]. *)
Definition emailRegex_test (s : string) : bool :=
  match splitAt "@" (chars s) with
  | None => false
  | Some (loc, dom) =>
      (negb (Nat.eqb (length loc) 0) && forallb plainChar loc
       && forallb plainChar dom && hasInnerDot dom)%bool
  end.

(** [/^0+$/.test(s)]. *)
Definition allZeros_test (s : string) : bool :=
  match chars s with
  | [] => false
  | l => forallb (Ascii.eqb "0") l
  end.

(** [Array.prototype.includes] on an array of strings. *)
Definition includes (l : list string) (s : string) : bool :=
  existsb (String.eqb s) l.

(** [String.prototype.toLowerCase] on the ASCII range. *)
Definition lowerChar (c : ascii) : ascii :=
  let n := nat_of_ascii c in
  if (Nat.leb 65 n && Nat.leb n 90)%bool then ascii_of_nat (n + 32) else c.

Definition toLowerCase (s : string) : string :=
  string_of_list_ascii (map lowerChar (chars s)).

(** [s.replace(/\s+/g, '')]. *)
Definition stripSpaces (s : string) : string :=
  string_of_list_ascii (List.filter (fun c => negb (isSpace c)) (chars s)).

Fixpoint isPrefix (p l : list ascii) : bool :=
  match p, l with
  | [], _ => true
  | _ :: _, [] => false
  | a :: p', b :: l' => (Ascii.eqb a b && isPrefix p' l')%bool
  end.

Fixpoint containsChars (p l : list ascii) : bool :=
  (isPrefix p l ||
   match l with
   | [] => false
   | _ :: t => containsChars p t
   end)%bool.

(** [s.includes(p)] on strings. *)
Definition contains (s p : string) : bool := containsChars (chars p) (chars s).

End Str.

(* ===================================================================== *)
(** ** Data model *)
(* ===================================================================== *)

(** One entry of [lineItems]. *)
Record LineItem : Type := mkLineItem {
  description : jsval string;
  quantity    : jsval Q;
  unitPrice   : jsval Q;
  amount      : jsval Q;
  confidence  : jsval Q
}.

(** A date-valued field together with what [new Date(field)] makes of
    it.  [DateAbsent] is a falsy field (undefined, null or the empty
    string); [DateInvalid raw] is a string that [Date] cannot parse
    ([getTime()] is NaN); [DateAt ms] is a date string (such as the ISO
    form) that [Date] parses to the instant [ms], in milliseconds since
    the epoch. *)
Inductive DateField : Type :=
| DateAbsent
| DateInvalid (raw : string)
| DateAt (ms : Z).

Definition truthyD (d : DateField) : bool :=
  match d with
  | DateAbsent => false
  | _ => true
  end.

(** The object returned by the extraction service ([extractedData]); the
    persisted invoice has a column of the same name for each field.
    The properties [notes], [processingTimeMs] and [tokensUsed], which
    the services carry along and never read, are left out. *)
Record ExtractedData : Type := mkExtractedData {
  vendorName          : jsval string;
  vendorAddress       : jsval string;
  vendorEmail         : jsval string;
  vendorPhone         : jsval string;
  invoiceNumber       : jsval string;
  invoiceDate         : DateField;
  dueDate             : DateField;
  purchaseOrderNumber : jsval string;
  customerName        : jsval string;
  customerAddress     : jsval string;
  lineItems           : jsval (list LineItem);
  subtotal            : jsval Q;
  taxRate             : jsval Q;
  taxAmount           : jsval Q;
  discountAmount      : jsval Q;
  shippingAmount      : jsval Q;
  totalAmount         : jsval Q;
  currency            : jsval string;
  paymentTerms        : jsval string;
  paymentMethod       : jsval string;
  bankDetails         : jsval string;
  confidenceScore     : jsval Q;
  anomalies           : jsval (list string)
}.

(** Validation messages.  Each constructor stands for one template
    literal of validationService.js; its arguments are the values the
    template interpolates, in the order of the source text. *)
Inductive Message : Type :=
| MsgRequired (label : string)
    (* `${label} is required` *)
| MsgNoItemsNoTotal
    (* 'Invoice must have line items or a total amount' *)
| MsgLineItemCalc (index : nat) (qty price expected actual : Q)
    (* `Line item ${i + 1} calculation error: ${quantity} x ${unitPrice}
        = ${expected}, but got ${actual}` *)
| MsgNonPositiveQuantity (index : nat) (qty : jsval Q)
| MsgNegativeUnitPrice (index : nat) (price : jsval Q)
| MsgSubtotalMismatch (extracted calculated : Q)
| MsgMinorSubtotal (extracted calculated : Q)
| MsgTotalMismatch (extracted calculated : Q)
| MsgMinorTotal (extracted calculated : Q)
| MsgTaxDiscrepancy (rate sub expected got : Q)
| MsgInvalidInvoiceDate (raw : string)
| MsgInvoiceDateOld (date : Z)
| MsgInvoiceDateFuture (date : Z)
| MsgInvalidDueDate (raw : string)
| MsgInvalidVendorEmail (email : string)
| MsgUnusualCurrency (code : string)
| MsgDueBeforeInvoice
| MsgDiscountExceedsSubtotal
| MsgDiscountOverHalf
| MsgUnusualTaxRate (rate : Q)
| MsgTotalNotPositive
| MsgVeryHighAmount (total : Q)
| MsgInvoiceNumberAllZeros
| MsgRoundTotal
| MsgHighAmountNoTax
| MsgIdenticalQuantities.

(** The object returned by [validateInvoice]. *)
Record ValidationResult : Type := mkValidationResult {
  isValid              : bool;
  errors               : list Message;
  warnings             : list Message;
  requiresManualReview : bool
}.

(* ===================================================================== *)
(** ** validationService.js *)
(* ===================================================================== *)

Module ValidationService.

(** The two arrays [errors] and [warnings] that every check pushes
    onto; a check returns what it pushes, in order. *)
Definition Findings : Type := (list Message * list Message)%type.

Definition noFindings : Findings := ([], []).

Definition both (a b : Findings) : Findings :=
  (fst a ++ fst b, snd a ++ snd b).

Definition pushIf (b : bool) (m : Message) : list Message :=
  if b then [m] else [].

(** [!invoice[field] && invoice[field] !== 0] for a string field. *)
Definition missingS (v : jsval string) : bool := negb (truthyS v).

(** The same test for a number field: the number 0 is not missing. *)
Definition missingN (v : jsval Q) : bool :=
  match v with
  | Val _ => false
  | _ => true
  end.

Definition hasNoItems (v : jsval (list LineItem)) : bool :=
  match v with
  | Val (_ :: _) => false
  | _ => true
  end.

Definition validateRequiredFields (invoice : ExtractedData) : list Message :=
  pushIf (missingS (vendorName invoice)) (MsgRequired "Vendor name")
  ++ pushIf (missingS (invoiceNumber invoice)) (MsgRequired "Invoice number")
  ++ pushIf (negb (truthyD (invoiceDate invoice))) (MsgRequired "Invoice date")
  ++ pushIf (missingN (totalAmount invoice)) (MsgRequired "Total amount")
  ++ pushIf (hasNoItems (lineItems invoice) && negb (truthyN (totalAmount invoice)))
            MsgNoItemsNoTotal.

(** The value of a number field where the code has already tested it
    truthy. *)
Definition num (v : jsval Q) : Q :=
  match v with
  | Val q => q
  | _ => 0
  end.

(** [item.quantity && item.unitPrice && item.amount]. *)
Definition itemChecked (item : LineItem) : bool :=
  (truthyN (quantity item) && truthyN (unitPrice item) && truthyN (amount item))%bool.

Definition itemExpected (item : LineItem) : Q :=
  round2 (fmul (num (quantity item)) (num (unitPrice item))).

Definition itemActual (item : LineItem) : Q :=
  round2 (num (amount item)).

(** The body of the loop over line items, for the item at 0-based
    position [i]. *)
Definition lineItemErrors (i : nat) (item : LineItem) : list Message :=
  pushIf (itemChecked item
          && Qltb (fl (1 # 100)) (Math_abs (fsub (itemExpected item) (itemActual item))))
    (MsgLineItemCalc (i + 1) (num (quantity item)) (num (unitPrice item))
       (itemExpected item) (itemActual item)).

Definition lineItemWarnings (i : nat) (item : LineItem) : list Message :=
  pushIf (leZero (quantity item)) (MsgNonPositiveQuantity (i + 1) (quantity item))
  ++ pushIf (ltZero (unitPrice item)) (MsgNegativeUnitPrice (i + 1) (unitPrice item)).

Fixpoint lineItemsLoop (i : nat) (items : list LineItem) : Findings :=
  match items with
  | [] => noFindings
  | item :: rest =>
      both (lineItemErrors i item, lineItemWarnings i item)
           (lineItemsLoop (S i) rest)
  end.

(** [lineItems.reduce((sum, item) => sum + (item.amount || 0), 0)]. *)
Definition calculatedSubtotal (items : list LineItem) : Q :=
  fold_left (fun sum item => fadd sum (orZero (amount item))) items 0.

(** The error / warning split shared by the subtotal and the total
    check: nothing when the difference, as computed, is not above
    0.01; otherwise an error when the difference divided by the
    calculated amount is above 0.05, and a warning when it is not. *)
Definition mismatch (extracted calculated : Q)
           (err warn : Q -> Q -> Message) : Findings :=
  let diff := Math_abs (fsub extracted calculated) in
  if Qltb (fl (1 # 100)) diff then
    if ratioExceeds diff calculated (fl (5 # 100))
    then ([err extracted (toFixed2 calculated)], [])
    else ([], [warn extracted (toFixed2 calculated)])
  else noFindings.

Definition checkSubtotal (invoice : ExtractedData) (calc : Q) : Findings :=
  if truthyN (subtotal invoice)
  then mismatch (num (subtotal invoice)) calc MsgSubtotalMismatch MsgMinorSubtotal
  else noFindings.

Definition expectedTotal (invoice : ExtractedData) (calc : Q) : Q :=
  fadd (fsub (fadd (if truthyN (subtotal invoice) then num (subtotal invoice) else calc)
                   (orZero (taxAmount invoice)))
             (orZero (discountAmount invoice)))
       (orZero (shippingAmount invoice)).

Definition checkTotal (invoice : ExtractedData) (calc : Q) : Findings :=
  if truthyN (totalAmount invoice)
  then mismatch (num (totalAmount invoice)) (expectedTotal invoice calc)
                MsgTotalMismatch MsgMinorTotal
  else noFindings.

Definition checkTax (invoice : ExtractedData) : list Message :=
  if (truthyN (taxRate invoice) && truthyN (taxAmount invoice)
      && truthyN (subtotal invoice))%bool
  then
    let expectedTax := fmul (num (subtotal invoice)) (fdiv (num (taxRate invoice)) 100) in
    pushIf (Qltb (fl (1 # 100)) (Math_abs (fsub expectedTax (num (taxAmount invoice)))))
      (MsgTaxDiscrepancy (num (taxRate invoice)) (num (subtotal invoice))
         (toFixed2 expectedTax) (num (taxAmount invoice)))
  else [].

Definition validateCalculations (invoice : ExtractedData) : Findings :=
  match lineItems invoice with
  | Val ((_ :: _) as items) =>
      let calc := calculatedSubtotal items in
      both (lineItemsLoop 0 items)
        (both (checkSubtotal invoice calc)
           (both (checkTotal invoice calc)
              ([], checkTax invoice)))
  | _ => noFindings
  end.

Definition dayMs : Z := (24 * 60 * 60 * 1000)%Z.

Definition validCurrencies : list string :=
  ["USD"; "EUR"; "GBP"; "CAD"; "AUD"; "JPY"; "CNY"; "INR"]%string.

Definition str (v : jsval string) : string :=
  match v with
  | Val s => s
  | _ => EmptyString
  end.

(** [now] is the value of [new Date()] when the check runs. *)
Definition validateFormats (now : Z) (invoice : ExtractedData) : Findings :=
  both
    (match invoiceDate invoice with
     | DateAbsent => noFindings
     | DateInvalid raw => ([MsgInvalidInvoiceDate raw], [])
     | DateAt ms =>
         ([], pushIf (ms <? now - 365 * dayMs)%Z (MsgInvoiceDateOld ms)
              ++ pushIf (now + 30 * dayMs <? ms)%Z (MsgInvoiceDateFuture ms))
     end)
    (both
       (match dueDate invoice with
        | DateInvalid raw => ([MsgInvalidDueDate raw], [])
        | _ => noFindings
        end)
       ([], pushIf (truthyS (vendorEmail invoice)
                    && negb (Str.emailRegex_test (str (vendorEmail invoice))))
              (MsgInvalidVendorEmail (str (vendorEmail invoice)))
            ++ pushIf (truthyS (currency invoice)
                       && negb (Str.includes validCurrencies (str (currency invoice))))
                 (MsgUnusualCurrency (str (currency invoice))))).

(** [dueDate < invoiceDate] on two [Date] objects: false as soon as
    one of them is an invalid date. *)
Definition dueBeforeInvoice (inv due : DateField) : bool :=
  match inv, due with
  | DateAt i, DateAt d => (d <? i)%Z
  | _, _ => false
  end.

Definition validateBusinessRules (invoice : ExtractedData) : Findings :=
  both
    (pushIf (truthyD (invoiceDate invoice) && truthyD (dueDate invoice)
             && dueBeforeInvoice (invoiceDate invoice) (dueDate invoice))
       MsgDueBeforeInvoice, [])
    (both
       (if (truthyN (discountAmount invoice) && truthyN (subtotal invoice))%bool
        then (pushIf (Qltb (num (subtotal invoice)) (num (discountAmount invoice)))
                MsgDiscountExceedsSubtotal,
              pushIf (Qltb (5 # 10) (fdiv (num (discountAmount invoice)) (num (subtotal invoice))))
                MsgDiscountOverHalf)
        else noFindings)
       (both
          ([], if truthyN (taxRate invoice)
               then pushIf (Qltb (num (taxRate invoice)) 0
                            || Qltb 50 (num (taxRate invoice)))
                      (MsgUnusualTaxRate (num (taxRate invoice)))
               else [])
          (if truthyN (totalAmount invoice)
           then (pushIf (Qleb (num (totalAmount invoice)) 0) MsgTotalNotPositive,
                 pushIf (Qltb 1000000 (num (totalAmount invoice)))
                   (MsgVeryHighAmount (num (totalAmount invoice))))
           else noFindings))).

(** [quantities.every(q => q === quantities[0])]. *)
Definition identicalQuantities (items : list LineItem) : bool :=
  match items with
  | [] => true
  | first :: _ => forallb (fun item => strictEqN (quantity item) (quantity first)) items
  end.

Definition detectAnomalies (invoice : ExtractedData) : list Message :=
  pushIf (truthyS (invoiceNumber invoice)
          && Str.allZeros_test (str (invoiceNumber invoice)))
    MsgInvoiceNumberAllZeros
  ++ pushIf (truthyN (totalAmount invoice)
             && multipleOf100 (num (totalAmount invoice))
             && Qltb 1000 (num (totalAmount invoice)))
       MsgRoundTotal
  ++ pushIf (gtConst (totalAmount invoice) 1000
             && negb (truthyN (taxAmount invoice))
             && negb (truthyN (taxRate invoice)))
       MsgHighAmountNoTax
  ++ match lineItems invoice with
     | Val items =>
         pushIf (Nat.ltb 3 (length items) && identicalQuantities items)
           MsgIdenticalQuantities
     | _ => []
     end.

(** The checks in the order [validateInvoice] runs them. *)
Definition findings (now : Z) (invoice : ExtractedData) : Findings :=
  both (validateRequiredFields invoice, [])
    (both (validateCalculations invoice)
       (both (validateFormats now invoice)
          (both (validateBusinessRules invoice)
             ([], detectAnomalies invoice)))).

Definition validateInvoice (now : Z) (invoice : ExtractedData) : ValidationResult :=
  let f := findings now invoice in
  {| isValid := Nat.eqb (length (fst f)) 0;
     errors := fst f;
     warnings := snd f;
     requiresManualReview :=
       (Nat.ltb 0 (length (fst f)) || Nat.ltb 2 (length (snd f)))%bool |}.

(** [adjustConfidenceScore(baseConfidence, validationResult)]. *)
Definition adjustConfidenceScore (baseConfidence : Q) (v : ValidationResult) : Q :=
  let adjustment := 0 in
  let adjustment := adjustment - inject_Z (Z.of_nat (length (errors v))) * (1 # 10) in
  let adjustment := adjustment - inject_Z (Z.of_nat (length (warnings v))) * (2 # 100) in
  Qmax 0 (Qmin 1 (baseConfidence + adjustment)).

End ValidationService.

(* ===================================================================== *)
(** ** config/index.js *)
(* ===================================================================== *)

Record Config : Type := mkConfig {
  apiKey        : jsval string;   (* config.openai.apiKey *)
  maxConcurrent : Z;              (* config.processing.maxConcurrent *)
  retryAttempts : Z;              (* config.processing.retryAttempts *)
  retryDelayMs  : Z               (* config.processing.retryDelayMs *)
}.

(** [parseInt(process.env.MAX_CONCURRENT_PROCESSING) || 10]: the
    environment variable, when it parses to a non-zero integer. *)
Definition maxConcurrentOf (env : option Z) : Z :=
  match env with
  | Some n => if (n =? 0)%Z then 10%Z else n
  | None => 10%Z
  end.

(** The configuration the module exports, for the two values it reads
    from the environment. *)
Definition config (openaiKey : jsval string) (maxConcurrentEnv : option Z) : Config :=
  {| apiKey := openaiKey;
     maxConcurrent := maxConcurrentOf maxConcurrentEnv;
     retryAttempts := 3;
     retryDelayMs := 1000 |}.

(* ===================================================================== *)
(** ** extractionService.js *)
(* ===================================================================== *)

(** A thrown [Error]: its name, its message, and the first truthy one
    of its [status], [code] and [statusCode] properties. *)
Inductive ErrorCode : Type :=
| NoCode
| CodeNum (n : Z)
| CodeStr (s : string).

Record JsError : Type := mkJsError {
  errName    : string;
  errMessage : string;
  errCode    : ErrorCode
}.

(** What one call of the model API does. *)
Inductive ApiOutcome : Type :=
| ApiRejects (e : JsError)
    (* [openai.chat.completions.create] rejects: network failure, rate
       limit, authentication, ... *)
| ApiMalformed (e : JsError)
    (* the response content is not JSON: [JSON.parse] throws the
       SyntaxError [e] *)
| ApiReturns (data : ExtractedData).
    (* the response content parses to [data] *)

Module ExtractionService.

Definition mockVendors : list string :=
  ["ABC Technologies"; "XYZ Services"; "Global Solutions Inc"; "Tech Innovations"]%string.

Definition mockCustomers : list string :=
  ["Acme Corp"; "Beta Industries"; "Gamma Enterprises"]%string.

(** An integer printed by string concatenation. *)
Definition showZ (z : Z) : string := NilZero.string_of_int (Z.to_int z).

(** [list[Math.floor(r * list.length)]]; the index is in range for a
    random number in [0, 1). *)
Definition pick (r : Q) (l : list string) : string :=
  nth (Z.to_nat (Math_floor (fmul r (inject_Z (Z.of_nat (length l)))))) l EmptyString.

(** The string [subtotal], and the number it denotes. *)
Definition mockSubtotalText (rnd : nat -> Q) : Q :=
  toFixed2 (fadd (fmul (rnd 2%nat) 50000) 5000).

Definition mockSubtotal (rnd : nat -> Q) : Q := parseFloat (mockSubtotalText rnd).

Definition mockTaxRate : Q := 18.

(** The string [taxAmount]: [subtotal * taxRate / 100] converts the
    string [subtotal] to a number. *)
Definition mockTaxAmountText (rnd : nat -> Q) : Q :=
  toFixed2 (fdiv (fmul (mockSubtotal rnd) mockTaxRate) 100).

Definition mockTaxAmount (rnd : nat -> Q) : Q := parseFloat (mockTaxAmountText rnd).

Definition mockTotalAmount (rnd : nat -> Q) : Q :=
  parseFloat (toFixed2 (fadd (mockSubtotal rnd) (mockTaxAmount rnd))).

Definition mockLineItems (rnd : nat -> Q) : list LineItem :=
  let item1Qty := inject_Z (Math_floor (fadd (fmul (rnd 6%nat) 10) 1)) in
  let item1Price := parseFloat (toFixed2 (fadd (fmul (rnd 7%nat) 2000) 500)) in
  let item1Amount := parseFloat (toFixed2 (fmul item1Qty item1Price)) in
  let item2Qty := inject_Z (Math_floor (fadd (fmul (rnd 8%nat) 5) 1)) in
  let item2Price :=
    parseFloat (toFixed2 (fdiv (fsub (mockSubtotal rnd) item1Amount) item2Qty)) in
  let item2Amount := parseFloat (toFixed2 (fmul item2Qty item2Price)) in
  [ {| description := Val "Professional Services"%string;
       quantity := Val item1Qty;
       unitPrice := Val item1Price;
       amount := Val item1Amount;
       confidence := Val (fadd (fl (9 # 10)) (fmul (rnd 9%nat) (fl (1 # 10)))) |};
    {| description := Val "Consulting Fees"%string;
       quantity := Val item2Qty;
       unitPrice := Val item2Price;
       amount := Val item2Amount;
       confidence := Val (fadd (fl (9 # 10)) (fmul (rnd 10%nat) (fl (1 # 10)))) |} ].

(** [generateMockInvoiceData].  [rnd k] is the value of the k-th call
    of [Math.random()] in evaluation order (k from 0), a binary64
    value in [0, 1); [now] is the value of [new Date()] and [now'] that
    of the later [Date.now()]. *)
Definition generateMockInvoiceData (rnd : nat -> Q) (now now' : Z) : ExtractedData :=
  let vendor := pick (rnd 0%nat) mockVendors in
  let customer := pick (rnd 1%nat) mockCustomers in
  {| vendorName := Val vendor;
     vendorAddress := Val "123 Business Park, Mumbai, Maharashtra 400001"%string;
     vendorEmail :=
       Val ("contact@" ++ Str.stripSpaces (Str.toLowerCase vendor) ++ ".com")%string;
     vendorPhone :=
       Val ("+91 " ++ showZ (Math_floor (fadd (fmul (rnd 3%nat) 9000000000) 1000000000)))%string;
     invoiceNumber :=
       Val ("INV-" ++ showZ (Math_floor (fadd (fmul (rnd 4%nat) 900000) 100000)))%string;
     invoiceDate := DateAt now;
     dueDate := DateAt (now' + 30 * 24 * 60 * 60 * 1000)%Z;
     purchaseOrderNumber :=
       Val ("PO-" ++ showZ (Math_floor (fadd (fmul (rnd 5%nat) 90000) 10000)))%string;
     customerName := Val customer;
     customerAddress := Val "456 Corporate Avenue, Delhi 110001"%string;
     lineItems := Val (mockLineItems rnd);
     subtotal := Val (mockSubtotal rnd);
     taxRate := Val mockTaxRate;
     taxAmount := Val (mockTaxAmount rnd);
     discountAmount := Val 0;
     shippingAmount := Val 0;
     totalAmount := Val (mockTotalAmount rnd);
     currency := Val "INR"%string;
     paymentTerms := Val "Net 30 days"%string;
     paymentMethod := Val "Bank Transfer"%string;
     bankDetails := Val "HDFC Bank, Account: XXXX1234"%string;
     confidenceScore := Val (fadd (fl (85 # 100)) (fmul (rnd 11%nat) (fl (10 # 100))));
     anomalies := Val [] |}.

(** [(error.message || error.toString() || '').toLowerCase()]. *)
Definition errorStr (e : JsError) : string :=
  Str.toLowerCase
    (if String.eqb (errMessage e) EmptyString then errName e else errMessage e).

(** The test of the [catch] block that sends an error to the mock
    generator. *)
Definition looksLikeAuthFailure (e : JsError) : bool :=
  (Str.contains (errorStr e) "api key"
   || Str.contains (errorStr e) "401"
   || Str.contains (errorStr e) "authentication"
   || Str.contains (errorStr e) "unauthorized"
   || match errCode e with
      | CodeNum n => (n =? 401)%Z
      | CodeStr s => String.eqb s "401"
      | NoCode => false
      end)%bool.

(** [!config.openai.apiKey || config.openai.apiKey ===
    'your_openai_api_key_here']. *)
Definition keyNotConfigured (cfg : Config) : bool :=
  (negb (truthyS (apiKey cfg))
   || match apiKey cfg with
      | Val k => String.eqb k "your_openai_api_key_here"
      | _ => false
      end)%bool.

(** [extractInvoiceData]: the returned data, or the error it throws. *)
Definition extractInvoiceData (cfg : Config) (rnd : nat -> Q) (now now' : Z)
           (api : ApiOutcome) : JsError + ExtractedData :=
  if keyNotConfigured cfg then inr (generateMockInvoiceData rnd now now')
  else
    match api with
    | ApiReturns data => inr data
    | ApiRejects e | ApiMalformed e =>
        if looksLikeAuthFailure e
        then inr (generateMockInvoiceData rnd now now')
        else inl e
    end.

Definition sumQ (l : list Q) : Q := fold_left Qplus l 0.

Definition countTrue (l : list bool) : nat := length (List.filter (fun b => b) l).

(** The entries pushed onto [scores]. *)
Definition scores (d : ExtractedData) : list Q :=
  let presentCount :=
    countTrue [ truthyS (vendorName d); truthyS (invoiceNumber d);
                truthyD (invoiceDate d); truthyN (totalAmount d);
                truthyL (lineItems d) ] in
  [inject_Z (Z.of_nat presentCount) / 5]
  ++ match lineItems d with
     | Val ((_ :: _) as items) =>
         [sumQ (map (fun item => orZero (confidence item)) items)
          / inject_Z (Z.of_nat (length items))]
     | _ => []
     end
  ++ (if truthyN (confidenceScore d) then [ValidationService.num (confidenceScore d)] else []).

(** [calculateConfidenceScore]. *)
Definition calculateConfidenceScore (d : ExtractedData) : Q :=
  sumQ (scores d) / inject_Z (Z.of_nat (length (scores d))).

End ExtractionService.

(* ===================================================================== *)
(** ** models/Invoice.js *)
(* ===================================================================== *)

Inductive Status : Type :=
| pending
| processing
| completed
| failed
| review_required.

Module Invoice.

(** A row of the invoices table, restricted to the columns the
    processing service reads or writes.  [columns] holds the columns
    that carry extracted data, one per field of [ExtractedData];
    its [confidenceScore] is the column of that name. *)
Record t : Type := mk {
  id                   : string;
  filePath             : string;
  status               : Status;
  processingTimeMs     : option Z;
  columns              : ExtractedData;
  rawExtractionData    : option ExtractedData;
  validationErrors     : list Message;
  validationWarnings   : list Message;
  isValidated          : bool;
  requiresManualReview : bool;
  webhookUrl           : jsval string;
  webhookSent          : bool;
  retryCount           : Z;
  lastError            : option string
}.

Definition noData : ExtractedData :=
  {| vendorName := Null; vendorAddress := Null; vendorEmail := Null;
     vendorPhone := Null; invoiceNumber := Null; invoiceDate := DateAbsent;
     dueDate := DateAbsent; purchaseOrderNumber := Null; customerName := Null;
     customerAddress := Null; lineItems := Val []; subtotal := Null;
     taxRate := Null; taxAmount := Null; discountAmount := Null;
     shippingAmount := Null; totalAmount := Null; currency := Val "INR"%string;
     paymentTerms := Null; paymentMethod := Null; bankDetails := Null;
     confidenceScore := Null; anomalies := Val [] |}.

(** [Invoice.create({ filePath, webhookUrl, ... })]: the column
    defaults of the model. *)
Definition create (i path : string) (url : jsval string) : t :=
  {| id := i; filePath := path; status := pending; processingTimeMs := None;
     columns := noData; rawExtractionData := None;
     validationErrors := []; validationWarnings := [];
     isValidated := false; requiresManualReview := false;
     webhookUrl := url; webhookSent := false;
     retryCount := 0%Z; lastError := None |}.

Definition setStatus (s : Status) (i : t) : t :=
  mk (id i) (filePath i) s (processingTimeMs i) (columns i)
     (rawExtractionData i) (validationErrors i) (validationWarnings i)
     (isValidated i) (requiresManualReview i) (webhookUrl i) (webhookSent i)
     (retryCount i) (lastError i).

Definition setProcessingTimeMs (ms : Z) (i : t) : t :=
  mk (id i) (filePath i) (status i) (Some ms) (columns i)
     (rawExtractionData i) (validationErrors i) (validationWarnings i)
     (isValidated i) (requiresManualReview i) (webhookUrl i) (webhookSent i)
     (retryCount i) (lastError i).

Definition setWebhookSent (b : bool) (i : t) : t :=
  mk (id i) (filePath i) (status i) (processingTimeMs i) (columns i)
     (rawExtractionData i) (validationErrors i) (validationWarnings i)
     (isValidated i) (requiresManualReview i) (webhookUrl i) b
     (retryCount i) (lastError i).

Definition setRetryCount (n : Z) (i : t) : t :=
  mk (id i) (filePath i) (status i) (processingTimeMs i) (columns i)
     (rawExtractionData i) (validationErrors i) (validationWarnings i)
     (isValidated i) (requiresManualReview i) (webhookUrl i) (webhookSent i)
     n (lastError i).

Definition setLastError (e : option string) (i : t) : t :=
  mk (id i) (filePath i) (status i) (processingTimeMs i) (columns i)
     (rawExtractionData i) (validationErrors i) (validationWarnings i)
     (isValidated i) (requiresManualReview i) (webhookUrl i) (webhookSent i)
     (retryCount i) e.

(** The assignments of [updateInvoiceWithExtraction]. *)
Definition setExtraction (cols : ExtractedData) (raw : ExtractedData)
           (errs warns : list Message) (review : bool) (i : t) : t :=
  mk (id i) (filePath i) (status i) (processingTimeMs i) cols
     (Some raw) errs warns true review (webhookUrl i) (webhookSent i)
     (retryCount i) (lastError i).

End Invoice.

(* ===================================================================== *)
(** ** processingService.js *)
(* ===================================================================== *)

(** The payload handed to [webhookService.sendWebhook]. *)
Inductive WebhookPayload : Type :=
| InvoiceProcessed (invoiceId : string) (st : Status) (score : jsval Q) (timeMs : option Z)
| InvoiceFailed (invoiceId : string) (error : string).

(** What a run of the service does to the outside world, in order. *)
Inductive Event : Type :=
| EvExtract (attempt : Z)     (* extractionService.extractInvoiceData is called *)
| EvDelay (ms : Z)            (* this.delay(ms) is awaited *)
| EvWebhook (url : string) (payload : WebhookPayload).

(** A sample error of the database driver. *)
Definition databaseError : JsError :=
  {| errName := "SequelizeDatabaseError";
     errMessage := "invalid input syntax for type timestamp with time zone";
     errCode := NoCode |}.

(** What the outside world does during the processing of one invoice. *)
Record Env : Type := mkEnv {
  document : option JsError;
    (* documentService.processDocument: the error it throws, if any *)
  api      : Z -> ApiOutcome;
    (* the model API at the n-th extraction attempt of the job, n from 1 *)
  random   : nat -> Q;         (* Math.random() *)
  clock    : Z;                (* new Date() in the mock generator *)
  clock'   : Z;                (* the later Date.now() there *)
  validatedAt : Z;             (* new Date() in validateFormats *)
  elapsed  : Z;                (* Date.now() - startTime *)
  dbAccepts : Invoice.t -> bool;
    (* whether the database takes the value of every column of the row
       that [invoice.save()] writes after the extraction *)
  dbError  : Invoice.t -> JsError
    (* the error with which [invoice.save()] rejects when it does not *)
}.

(** A thrown value: an [Error], or [undefined]. *)
Inductive Thrown : Type :=
| ThrownError (e : JsError)
| ThrownUndefined.

Definition newError (msg : string) : Thrown :=
  ThrownError {| errName := "Error"; errMessage := msg; errCode := NoCode |}.

(** Reading [.message] of [undefined]. *)
Definition typeErrorOnUndefined : Thrown :=
  ThrownError {| errName := "TypeError";
                 errMessage := "Cannot read properties of undefined (reading 'message')";
                 errCode := NoCode |}.

(** The service instance, the invoices table and the trace. *)
Record State : Type := mkState {
  store            : gmap string Invoice.t;   (* the invoices table *)
  processingQueue  : list string;             (* this.processingQueue *)
  activeProcessing : Z;                       (* this.activeProcessing *)
  running          : list string;
    (* the calls of processInvoice that have not reached [finally] *)
  trace            : list Event
}.

(** Computations over [State] that return or throw. *)
Definition M (A : Type) : Type := State -> (Thrown + A) * State.

Definition ret {A} (a : A) : M A := fun s => (inr a, s).
Definition throw {A} (e : Thrown) : M A := fun s => (inl e, s).
Definition bind {A B} (m : M A) (k : A -> M B) : M B :=
  fun s => match m s with
           | (inr a, s') => k a s'
           | (inl e, s') => (inl e, s')
           end.
Definition tryCatch {A} (m : M A) (handler : Thrown -> M A) : M A :=
  fun s => match m s with
           | (inr a, s') => (inr a, s')
           | (inl e, s') => handler e s'
           end.

Notation "'do' x <- m 'in' k" := (bind m (fun x => k))
  (at level 10, x name, m at level 100, k at level 200).
Notation "'run' m 'in' k" := (bind m (fun _ => k))
  (at level 10, m at level 100, k at level 200).

Definition get : M State := fun s => (inr s, s).
Definition modify (f : State -> State) : M unit := fun s => (inr tt, f s).
Definition emit (e : Event) : M unit :=
  modify (fun s => mkState (store s) (processingQueue s) (activeProcessing s)
                     (running s) (trace s ++ [e])).
Definition setStore (f : gmap string Invoice.t -> gmap string Invoice.t) : M unit :=
  modify (fun s => mkState (f (store s)) (processingQueue s) (activeProcessing s)
                     (running s) (trace s)).
Definition when (b : bool) (m : M unit) : M unit := if b then m else ret tt.

Module ProcessingService.

(** [new ProcessingService()] over a given invoices table. *)
Definition init (db : gmap string Invoice.t) : State :=
  {| store := db; processingQueue := []; activeProcessing := 0%Z;
     running := []; trace := [] |}.

(** [Invoice.findByPk]. *)
Definition findByPk (invoiceId : string) : M (option Invoice.t) :=
  do s <- get in ret (store s !! invoiceId).

(** [invoice.save()], and [invoice.update(...)] once the instance has
    been changed: the row is written back. *)
Definition save (invoice : Invoice.t) : M unit :=
  setStore (fun db => <[Invoice.id invoice := invoice]> db).

(** An Invalid Date among the date columns. *)
Definition hasInvalidDate (cols : ExtractedData) : bool :=
  match invoiceDate cols, dueDate cols with
  | DateInvalid _, _ | _, DateInvalid _ => true
  | _, _ => false
  end.

(** What the database answers to the [invoice.save()] that ends the
    [try] block: that statement writes the columns assigned by
    [updateInvoiceWithExtraction], and it is refused when a column
    cannot take its value.  An Invalid Date in a DATE column is always
    refused; whether the row is refused for another reason (a string
    longer than its VARCHAR, a number beyond its DECIMAL) is left to
    [env], and so is the error. *)
Definition refusal (env : Env) (invoice : Invoice.t) : option JsError :=
  if (hasInvalidDate (Invoice.columns invoice) || negb (dbAccepts env invoice))%bool
  then Some (dbError env invoice) else None.

(** [invoice.save()] of the extracted columns: it rejects when the
    database refuses the row.  The other writes of the service set
    the status, the error and the notification columns only, which
    take every value the service gives them. *)
Definition saveExtraction (env : Env) (invoice : Invoice.t) : M unit :=
  match refusal env invoice with
  | Some e => throw (ThrownError e)
  | None => save invoice
  end.

(** [webhookService.sendWebhook]: one delivery attempt; it catches
    its own errors and never throws. *)
Definition sendWebhook (url : string) (payload : WebhookPayload) : M unit :=
  emit (EvWebhook url payload).

(** [this.delay(ms)]. *)
Definition delay (ms : Z) : M unit := emit (EvDelay ms).

(** One call of [extractionService.extractInvoiceData] from the
    retry loop. *)
Definition callExtraction (cfg : Config) (env : Env) (attempt : Z) : M ExtractedData :=
  run emit (EvExtract attempt) in
  match ExtractionService.extractInvoiceData cfg (random env) (clock env) (clock' env)
          (api env attempt) with
  | inr data => ret data
  | inl e => throw (ThrownError e)
  end.

(** The [for] loop of [extractWithRetry], entered with [remaining]
    iterations to go at the value [attempt] of the loop variable. *)
Fixpoint retryLoop (cfg : Config) (env : Env) (remaining : nat) (attempt : Z)
         (lastError : Thrown) : M ExtractedData :=
  match remaining with
  | O => throw lastError
  | S remaining' =>
      tryCatch (callExtraction cfg env attempt)
        (fun error =>
           run when (attempt <? retryAttempts cfg)%Z
                 (delay (retryDelayMs cfg * attempt)%Z) in
           retryLoop cfg env remaining' (attempt + 1)%Z error)
  end.

(** [extractWithRetry]: [attempt] runs from 1 to [retryAttempts]. *)
Definition extractWithRetry (cfg : Config) (env : Env) : M ExtractedData :=
  retryLoop cfg env (Z.to_nat (retryAttempts cfg)) 1%Z ThrownUndefined.

(** [if (extractedData[field] !== undefined) invoice[field] =
    extractedData[field]]. *)
Definition assign {A} (old new : jsval A) : jsval A :=
  match new with
  | Undefined => old
  | _ => new
  end.

(** [if (extractedData.date) invoice.date = new Date(extractedData.date)]. *)
Definition assignDate (old new : DateField) : DateField :=
  match new with
  | DateAbsent => old
  | _ => new
  end.

(** [extractedData.confidenceScore ||
     extractionService.calculateConfidenceScore(extractedData)]. *)
Definition baseConfidence (extractedData : ExtractedData) : Q :=
  if truthyN (confidenceScore extractedData)
  then ValidationService.num (confidenceScore extractedData)
  else ExtractionService.calculateConfidenceScore extractedData.

Definition updateInvoiceWithExtraction (invoice : Invoice.t)
           (extractedData : ExtractedData) (validationResult : ValidationResult)
  : Invoice.t :=
  let old := Invoice.columns invoice in
  let cols :=
    {| vendorName := assign (vendorName old) (vendorName extractedData);
       vendorAddress := assign (vendorAddress old) (vendorAddress extractedData);
       vendorEmail := assign (vendorEmail old) (vendorEmail extractedData);
       vendorPhone := assign (vendorPhone old) (vendorPhone extractedData);
       invoiceNumber := assign (invoiceNumber old) (invoiceNumber extractedData);
       invoiceDate := assignDate (invoiceDate old) (invoiceDate extractedData);
       dueDate := assignDate (dueDate old) (dueDate extractedData);
       purchaseOrderNumber :=
         assign (purchaseOrderNumber old) (purchaseOrderNumber extractedData);
       customerName := assign (customerName old) (customerName extractedData);
       customerAddress := assign (customerAddress old) (customerAddress extractedData);
       lineItems := assign (lineItems old) (lineItems extractedData);
       subtotal := assign (subtotal old) (subtotal extractedData);
       taxRate := assign (taxRate old) (taxRate extractedData);
       taxAmount := assign (taxAmount old) (taxAmount extractedData);
       discountAmount := assign (discountAmount old) (discountAmount extractedData);
       shippingAmount := assign (shippingAmount old) (shippingAmount extractedData);
       totalAmount := assign (totalAmount old) (totalAmount extractedData);
       currency := assign (currency old) (currency extractedData);
       paymentTerms := assign (paymentTerms old) (paymentTerms extractedData);
       paymentMethod := assign (paymentMethod old) (paymentMethod extractedData);
       bankDetails := assign (bankDetails old) (bankDetails extractedData);
       confidenceScore :=
         Val (ValidationService.adjustConfidenceScore
                (baseConfidence extractedData) validationResult);
       anomalies :=
         if truthyL (anomalies extractedData)
         then anomalies extractedData else anomalies old |} in
  Invoice.setExtraction cols extractedData
    (errors validationResult) (warnings validationResult)
    (requiresManualReview validationResult) invoice.

(** Step 6 of [processInvoice]. *)
Definition finalStatus (validationResult : ValidationResult) : Status :=
  if Nat.ltb 0 (length (errors validationResult))
  then review_required else completed.

(** The [try] block of [processInvoice]. *)
Definition tryBlock (cfg : Config) (env : Env) (invoiceId : string) : M Invoice.t :=
  do found <- findByPk invoiceId in
  match found with
  | None => throw (newError ("Invoice " ++ invoiceId ++ " not found"))
  | Some invoice =>
      let invoice := Invoice.setStatus processing invoice in
      run save invoice in
      do _ <- match document env with
              | Some e => throw (ThrownError e)
              | None => ret tt
              end in
      do extractedData <- extractWithRetry cfg env in
      let validationResult :=
        ValidationService.validateInvoice (validatedAt env) extractedData in
      let invoice := updateInvoiceWithExtraction invoice extractedData validationResult in
      let invoice := Invoice.setProcessingTimeMs (elapsed env) invoice in
      let invoice := Invoice.setStatus (finalStatus validationResult) invoice in
      run saveExtraction env invoice in
      if truthyS (Invoice.webhookUrl invoice) then
        run sendWebhook (ValidationService.str (Invoice.webhookUrl invoice))
              (InvoiceProcessed (Invoice.id invoice) (Invoice.status invoice)
                 (confidenceScore (Invoice.columns invoice))
                 (Invoice.processingTimeMs invoice)) in
        let invoice := Invoice.setWebhookSent true invoice in
        run save invoice in
        ret invoice
      else ret invoice
  end.

(** The [catch] block of [processInvoice]; it ends by rethrowing. *)
Definition catchBlock (env : Env) (invoiceId : string) (error : Thrown) : M Invoice.t :=
  match error with
  | ThrownUndefined => throw typeErrorOnUndefined
  | ThrownError e =>
      do found <- findByPk invoiceId in
      run match found with
          | None => ret tt
          | Some invoice =>
              let invoice := Invoice.setStatus failed invoice in
              let invoice := Invoice.setLastError (Some (errMessage e)) invoice in
              let invoice := Invoice.setRetryCount (Invoice.retryCount invoice + 1)%Z invoice in
              let invoice := Invoice.setProcessingTimeMs (elapsed env) invoice in
              run save invoice in
              when (truthyS (Invoice.webhookUrl invoice))
                (sendWebhook (ValidationService.str (Invoice.webhookUrl invoice))
                   (InvoiceFailed (Invoice.id invoice) (errMessage e)))
          end in
      throw error
  end.

(** The synchronous start of a [processInvoice] call. *)
Definition enter (invoiceId : string) : M unit :=
  modify (fun s => mkState (store s) (processingQueue s)
                     (activeProcessing s + 1)%Z
                     (running s ++ [invoiceId]) (trace s)).

(** Remove the first occurrence of a call from the running ones. *)
Fixpoint removeFirst (x : string) (l : list string) : list string :=
  match l with
  | [] => []
  | y :: t => if String.eqb x y then t else y :: removeFirst x t
  end.

(** The [while] loop of [processQueue] over the queue [queue]: every
    iteration shifts one id and starts its [processInvoice], which
    increments the counter before it first suspends. *)
Fixpoint drain (cfg : Config) (queue : list string) (active : Z)
         (started : list string) : list string * Z * list string :=
  match queue with
  | [] => (queue, active, started)
  | invoiceId :: rest =>
      if (active <? maxConcurrent cfg)%Z
      then drain cfg rest (active + 1)%Z (started ++ [invoiceId])
      else (queue, active, started)
  end.

Definition processQueue (cfg : Config) : M unit :=
  modify (fun s =>
    match drain cfg (processingQueue s) (activeProcessing s) (running s) with
    | (queue, active, started) => mkState (store s) queue active started (trace s)
    end).

(** [queueInvoice]. *)
Definition queueInvoice (cfg : Config) (invoice : Invoice.t) : M Invoice.t :=
  run modify (fun s => mkState (store s) (processingQueue s ++ [Invoice.id invoice])
                         (activeProcessing s) (running s) (trace s)) in
  run processQueue cfg in
  ret invoice.

(** The [finally] block of [processInvoice]. *)
Definition finallyBlock (cfg : Config) (invoiceId : string) : M unit :=
  run modify (fun s => mkState (store s) (processingQueue s)
                         (activeProcessing s - 1)%Z
                         (removeFirst invoiceId (running s)) (trace s)) in
  processQueue cfg.

(** What a started [processInvoice] call does from its first [await]
    to its end: [try], [catch], [finally]. *)
Definition settle (cfg : Config) (env : Env) (invoiceId : string) : M Invoice.t :=
  fun s =>
    match tryCatch (tryBlock cfg env invoiceId) (catchBlock env invoiceId) s with
    | (result, s') => (result, snd (finallyBlock cfg invoiceId s'))
    end.

(** A whole [processInvoice] call, run without interruption. *)
Definition processInvoice (cfg : Config) (env : Env) (invoiceId : string) : M Invoice.t :=
  fun s => settle cfg env invoiceId (snd (enter invoiceId s)).

(** [retryInvoice]. *)
Definition retryInvoice (cfg : Config) (invoiceId : string) : M Invoice.t :=
  do found <- findByPk invoiceId in
  match found with
  | None => throw (newError "Invoice not found")
  | Some invoice =>
      match Invoice.status invoice with
      | failed =>
          let invoice := Invoice.setStatus pending invoice in
          let invoice := Invoice.setLastError None invoice in
          run save invoice in
          do _ <- queueInvoice cfg invoice in
          ret invoice
      | _ => throw (newError "Can only retry failed invoices")
      end
  end.

End ProcessingService.

(* ===================================================================== *)
(** * Vocabulary of the statements, and sample data *)
(* ===================================================================== *)

Import ValidationService.
Import ExtractionService.
Import ProcessingService.

(** An extraction result with a vendor, an invoice number, a date and a
    total, and nothing else. *)
Definition bareInvoice (number : string) (date : Z) (total : Q) : ExtractedData :=
  {| vendorName := Val "Acme Supplies"%string; vendorAddress := Undefined;
     vendorEmail := Undefined; vendorPhone := Undefined;
     invoiceNumber := Val number; invoiceDate := DateAt date;
     dueDate := DateAbsent; purchaseOrderNumber := Undefined;
     customerName := Undefined; customerAddress := Undefined;
     lineItems := Undefined; subtotal := Undefined; taxRate := Undefined;
     taxAmount := Undefined; discountAmount := Undefined;
     shippingAmount := Undefined; totalAmount := Val total;
     currency := Undefined; paymentTerms := Undefined;
     paymentMethod := Undefined; bankDetails := Undefined;
     confidenceScore := Undefined; anomalies := Undefined |}.

(** A round total above 1000 without tax: two warnings, no error. *)
Definition twoWarnings : ExtractedData := bareInvoice "INV-7" 0 2000.

(** The same with an all-zero invoice number: three warnings, no error. *)
Definition threeWarnings : ExtractedData := bareInvoice "000" 0 2000.

(** (a) The fraction of the five important fields that are present. *)
Definition fieldPresence (d : ExtractedData) : Q :=
  inject_Z (Z.of_nat (ExtractionService.countTrue
    [ truthyS (vendorName d); truthyS (invoiceNumber d); truthyD (invoiceDate d);
      truthyN (totalAmount d); truthyL (lineItems d) ])) / 5.

(** (b) The mean of the per-line-item confidence values. *)
Definition lineItemMean (items : list LineItem) : Q :=
  ExtractionService.sumQ (map (fun item => orZero (confidence item)) items)
  / inject_Z (Z.of_nat (length items)).

(** An extraction result that reports an overall confidence of 0.9 and
    nothing else. *)
Definition confidenceOnly : ExtractedData :=
  {| vendorName := Undefined; vendorAddress := Undefined;
     vendorEmail := Undefined; vendorPhone := Undefined;
     invoiceNumber := Undefined; invoiceDate := DateAbsent;
     dueDate := DateAbsent; purchaseOrderNumber := Undefined;
     customerName := Undefined; customerAddress := Undefined;
     lineItems := Undefined; subtotal := Undefined; taxRate := Undefined;
     taxAmount := Undefined; discountAmount := Undefined;
     shippingAmount := Undefined; totalAmount := Undefined;
     currency := Undefined; paymentTerms := Undefined;
     paymentMethod := Undefined; bankDetails := Undefined;
     confidenceScore := Val (9 # 10); anomalies := Undefined |}.

(** An invoice made of line items and a total. *)
Definition itemsInvoice (items : list LineItem) (total : jsval Q) : ExtractedData :=
  {| vendorName := Val "Acme Supplies"%string; vendorAddress := Undefined;
     vendorEmail := Undefined; vendorPhone := Undefined;
     invoiceNumber := Val "INV-7"%string; invoiceDate := DateAt 0;
     dueDate := DateAbsent; purchaseOrderNumber := Undefined;
     customerName := Undefined; customerAddress := Undefined;
     lineItems := Val items; subtotal := Undefined; taxRate := Undefined;
     taxAmount := Undefined; discountAmount := Undefined;
     shippingAmount := Undefined; totalAmount := total;
     currency := Undefined; paymentTerms := Undefined;
     paymentMethod := Undefined; bankDetails := Undefined;
     confidenceScore := Undefined; anomalies := Undefined |}.

Definition item (q p a : jsval Q) : LineItem :=
  {| description := Val "Widget"%string; quantity := q; unitPrice := p;
     amount := a; confidence := Undefined |}.

(** Two items at 10 each with an extracted amount of 0, and with an
    extracted amount of 25. *)
Definition zeroAmount : ExtractedData :=
  itemsInvoice [item (Val 2) (Val 10) (Val 0)] (Val 0).

Definition wrongAmount : ExtractedData :=
  itemsInvoice [item (Val 2) (Val 10) (Val 25)] (Val 25).

(** An invoice whose date is not one. *)
Definition unparseableDate : ExtractedData :=
  {| vendorName := Val "Acme Supplies"%string; vendorAddress := Undefined;
     vendorEmail := Undefined; vendorPhone := Undefined;
     invoiceNumber := Val "INV-7"%string; invoiceDate := DateInvalid "not a date";
     dueDate := DateAbsent; purchaseOrderNumber := Undefined;
     customerName := Undefined; customerAddress := Undefined;
     lineItems := Undefined; subtotal := Undefined; taxRate := Undefined;
     taxAmount := Undefined; discountAmount := Undefined;
     shippingAmount := Undefined; totalAmount := Val 10;
     currency := Undefined; paymentTerms := Undefined;
     paymentMethod := Undefined; bankDetails := Undefined;
     confidenceScore := Undefined; anomalies := Undefined |}.

(** One unit at 1.02 with an extracted amount of 1.01. *)
Definition oneCentGap : ExtractedData :=
  itemsInvoice [item (Val 1) (Val (fl (102 # 100))) (Val (fl (101 # 100)))]
    (Val (fl (101 # 100))).

(** The state after a run that only appended [evs] to the trace. *)
Definition addTrace (evs : list Event) (s : State) : State :=
  mkState (store s) (processingQueue s) (activeProcessing s) (running s)
          (trace s ++ evs).

(** One extraction attempt, as the loop sees it. *)
Definition attempt (cfg : Config) (env : Env) (a : Z) : JsError + ExtractedData :=
  ExtractionService.extractInvoiceData cfg (random env) (clock env) (clock' env)
    (api env a).

(** The events of one failed iteration of the loop. *)
Definition failedAttempt (cfg : Config) (a : Z) : list Event :=
  EvExtract a
  :: (if (a <? retryAttempts cfg)%Z then [EvDelay (retryDelayMs cfg * a)%Z] else []).

(** What [extractWithRetry] returns or throws, and the events of its
    run. *)
Definition extractionOutcome (cfg : Config) (env : Env) : Thrown + ExtractedData :=
  fst (extractWithRetry cfg env (init ∅)).

Definition extractionEvents (cfg : Config) (env : Env) : list Event :=
  trace (snd (extractWithRetry cfg env (init ∅))).

(** The events of [k] consecutive failed iterations from attempt [a]. *)
Fixpoint failedAttempts (cfg : Config) (k : nat) (a : Z) : list Event :=
  match k with
  | O => []
  | S k' => failedAttempt cfg a ++ failedAttempts cfg k' (a + 1)%Z
  end.

(** The row that [invoice.save()] submits at the end of the [try]
    block of a run whose extraction returned [d]. *)
Definition savedRow (env : Env) (invoice : Invoice.t) (d : ExtractedData) : Invoice.t :=
  let v := validateInvoice (validatedAt env) d in
  let row := updateInvoiceWithExtraction (Invoice.setStatus processing invoice) d v in
  let row := Invoice.setProcessingTimeMs (elapsed env) row in
  Invoice.setStatus (finalStatus v) row.

(** The row written by a run whose extraction returned [d]. *)
Definition processedRow (env : Env) (invoice : Invoice.t) (d : ExtractedData) : Invoice.t :=
  let v := validateInvoice (validatedAt env) d in
  let row := updateInvoiceWithExtraction (Invoice.setStatus processing invoice) d v in
  let row := Invoice.setProcessingTimeMs (elapsed env) row in
  let row := Invoice.setStatus (finalStatus v) row in
  if truthyS (Invoice.webhookUrl invoice) then Invoice.setWebhookSent true row else row.

(** The row written by a run that ended with the error [e]. *)
Definition failedRow (env : Env) (invoice : Invoice.t) (e : JsError) : Invoice.t :=
  let row := Invoice.setStatus failed (Invoice.setStatus processing invoice) in
  let row := Invoice.setLastError (Some (errMessage e)) row in
  let row := Invoice.setRetryCount (Invoice.retryCount row + 1)%Z row in
  Invoice.setProcessingTimeMs (elapsed env) row.

Definition webhookEvents (invoice : Invoice.t) (payload : WebhookPayload) : list Event :=
  if truthyS (Invoice.webhookUrl invoice)
  then [EvWebhook (str (Invoice.webhookUrl invoice)) payload] else [].

(** A configuration with an API key, and the limits of config/index.js. *)
Definition liveConfig : Config := config (Val "sk-live-key"%string) None.

(** An environment in which every extraction attempt does [outcome]. *)
Definition constEnv (outcome : ApiOutcome) : Env :=
  {| document := None; api := fun _ => outcome; random := fun _ => 0;
     clock := 0%Z; clock' := 0%Z; validatedAt := 0%Z; elapsed := 1200%Z;
     dbAccepts := fun _ => true; dbError := fun _ => databaseError |}.

(** A table with the single pending invoice "inv-1". *)
Definition oneInvoice : State :=
  init {[ "inv-1"%string := Invoice.create "inv-1" "uploads/a.pdf" Null ]}.

(** The attempt numbers of the extraction calls in a trace, and the
    delays awaited in it. *)
Definition extractCalls (evs : list Event) : list Z :=
  flat_map (fun e => match e with EvExtract a => [a] | _ => [] end) evs.

Definition delaysOf (evs : list Event) : list Z :=
  flat_map (fun e => match e with EvDelay ms => [ms] | _ => [] end) evs.

Definition timeoutError : JsError :=
  {| errName := "Error"; errMessage := "Request timed out."; errCode := NoCode |}.

Definition syntaxError : JsError :=
  {| errName := "SyntaxError";
     errMessage := "Unexpected token < in JSON at position 0";
     errCode := NoCode |}.

(** The first response is not JSON; the second parses. *)
Definition malformedThenValid : Env :=
  {| document := None;
     api := fun a => if (a =? 1)%Z then ApiMalformed syntaxError
                     else ApiReturns twoWarnings;
     random := fun _ => 0; clock := 0%Z; clock' := 0%Z;
     validatedAt := 0%Z; elapsed := 1200%Z;
     dbAccepts := fun _ => true; dbError := fun _ => databaseError |}.

(** A response that is not JSON, with a parse error whose message
    happens to contain 401. *)
Definition syntaxError401 : JsError :=
  {| errName := "SyntaxError";
     errMessage := "Unexpected token < in JSON at position 401";
     errCode := NoCode |}.

Definition malformedAuthLike : Env :=
  {| document := None;
     api := fun _ => ApiMalformed syntaxError401;
     random := fun _ => 0; clock := 0%Z; clock' := 0%Z;
     validatedAt := 0%Z; elapsed := 1200%Z;
     dbAccepts := fun _ => true; dbError := fun _ => databaseError |}.

(** The invoice "inv-1" after a run whose extraction timed out. *)
Definition failedInvoice : Invoice.t :=
  failedRow (constEnv (ApiRejects timeoutError))
    (Invoice.create "inv-1" "uploads/a.pdf" Null) timeoutError.

Definition afterFailure : State := init {[ "inv-1"%string := failedInvoice ]}.

(** The fields of the service instance. *)
Definition sched (s : State) : list string * Z * list string :=
  (processingQueue s, activeProcessing s, running s).

(** A computation that leaves the queue, the counter and the running
    calls alone. *)
Definition frames {A} (m : M A) : Prop :=
  forall s, sched (snd (m s)) = sched s.

(** The transitions of the service: a submission, the end of a running
    [processInvoice] call, a manual retry. *)
Inductive step (cfg : Config) : State -> State -> Prop :=
| step_queue (invoice : Invoice.t) (s : State) :
    step cfg s (snd (queueInvoice cfg invoice s))
| step_settle (env : Env) (invoiceId : string) (s : State) :
    In invoiceId (running s) ->
    step cfg s (snd (settle cfg env invoiceId s))
| step_retry (invoiceId : string) (s : State) :
    step cfg s (snd (retryInvoice cfg invoiceId s)).

Inductive reachable (cfg : Config) : State -> Prop :=
| reach_init (db : gmap string Invoice.t) : reachable cfg (init db)
| reach_step (s s' : State) : reachable cfg s -> step cfg s s' -> reachable cfg s'.

(** The counter counts the running calls, stays within the limit, and
    is at the limit whenever a job is waiting. *)
Definition scheduled (cfg : Config) (s : State) : Prop :=
  activeProcessing s = Z.of_nat (length (running s))
  /\ (activeProcessing s <= maxConcurrent cfg)%Z
  /\ (processingQueue s <> [] -> activeProcessing s = maxConcurrent cfg).

(** Two slots, and the five pending jobs "j1" to "j5" submitted in
    that order. *)
Definition twoSlots : Config := config (Val "sk-live-key"%string) (Some 2%Z).

Definition job (name : string) : Invoice.t := Invoice.create name "uploads/a.pdf" Null.

Definition fiveJobs : gmap string Invoice.t :=
  {[ "j1"%string := job "j1"; "j2"%string := job "j2"; "j3"%string := job "j3";
     "j4"%string := job "j4"; "j5"%string := job "j5" ]}.

Definition submit (name : string) (s : State) : State :=
  snd (queueInvoice twoSlots (job name) s).

Definition fiveSubmitted : State :=
  submit "j5" (submit "j4" (submit "j3" (submit "j2" (submit "j1" (init fiveJobs))))).

(** A whole number of cents. *)
Definition cents (x : Q) : Prop := exists c : Z, x == inject_Z c / 100.

(** The largest binary64 value below 1, the upper end of the values
    of [Math.random()]. *)
Definition maxRandom : Q := 9007199254740991 # 9007199254740992.

(** Random numbers that give a subtotal of 5000.01, one unit at 500.00
    and three units of the second item. *)
Definition sampleRandom (k : nat) : Q :=
  if Nat.eqb k 2 then 1 # 4194304
  else if Nat.eqb k 8 then 1 # 2
  else 0.

Definition unauthorized : JsError :=
  {| errName := "Error";
     errMessage := "401 Incorrect API key provided";
     errCode := CodeNum 401 |}.

(** ** More vocabulary: tables, outcomes of a run *)

(** The primary key of every row is its key in the table. *)
Definition keyed (db : gmap string Invoice.t) : Prop :=
  forall k row, db !! k = Some row -> Invoice.id row = k.

(** The row of a run that has marked the invoice [processing] and got
    no further. *)
Definition startedRow (invoice : Invoice.t) : Invoice.t :=
  Invoice.setStatus processing invoice.

(** The error thrown for an invoice that is not in the table. *)
Definition notFound (invoiceId : string) : Thrown :=
  newError ("Invoice " ++ invoiceId ++ " not found").

(** An environment whose document conversion throws. *)
Definition unreadable : JsError :=
  {| errName := "Error"; errMessage := "Unsupported file format: .docx";
     errCode := NoCode |}.

Definition brokenDocument : Env :=
  {| document := Some unreadable; api := fun _ => ApiReturns twoWarnings;
     random := fun _ => 0; clock := 0%Z; clock' := 0%Z;
     validatedAt := 0%Z; elapsed := 35%Z;
     dbAccepts := fun _ => true; dbError := fun _ => databaseError |}.

(** A configuration whose retry budget is zero. *)
Definition noAttempts : Config :=
  {| apiKey := Val "sk-live-key"%string; maxConcurrent := 10%Z;
     retryAttempts := 0%Z; retryDelayMs := 1000%Z |}.

(** Two timeouts, then a valid response. *)
Definition thirdTimeLucky : Env :=
  {| document := None;
     api := fun a => if (a <? 3)%Z then ApiRejects timeoutError
                     else ApiReturns twoWarnings;
     random := fun _ => 0; clock := 0%Z; clock' := 0%Z;
     validatedAt := 0%Z; elapsed := 4100%Z;
     dbAccepts := fun _ => true; dbError := fun _ => databaseError |}.

(** The notifications of a trace: URL and payload, in order. *)
Definition webhooksOf (evs : list Event) : list (string * WebhookPayload) :=
  flat_map (fun e => match e with EvWebhook url p => [(url, p)] | _ => [] end) evs.

(** A pending invoice with a notification URL. *)
Definition notified : Invoice.t :=
  Invoice.create "inv-9" "uploads/b.pdf" (Val "https://erp.example/hook"%string).

Definition twoInvoices : State :=
  init {[ "inv-1"%string := Invoice.create "inv-1" "uploads/a.pdf" Null;
          "inv-9"%string := notified ]}.

(** ** processingService.js: queue status, batches *)

Module QueueStatus.

(** The object returned by [getQueueStatus]. *)
Record t : Type := mk {
  queueLength      : nat;
  activeProcessing : Z;
  maxConcurrent    : Z
}.

End QueueStatus.

(** [getQueueStatus]. *)
Definition getQueueStatus (cfg : Config) (s : State) : QueueStatus.t :=
  {| QueueStatus.queueLength := length (processingQueue s);
     QueueStatus.activeProcessing := activeProcessing s;
     QueueStatus.maxConcurrent := maxConcurrent cfg |}.

Definition Status_eqb (a b : Status) : bool :=
  match a, b with
  | pending, pending | processing, processing | completed, completed
  | failed, failed | review_required, review_required => true
  | _, _ => false
  end.

Module BatchStatus.

(** The attributes [getBatchStatus] selects from a row. *)
Record row : Type := mkRow {
  id               : string;
  status           : Status;
  confidenceScore  : jsval Q;
  processingTimeMs : option Z
}.

(** The object returned by [getBatchStatus]. *)
Record t : Type := mk {
  batchId        : string;
  invoices       : list row;
  totalCount     : nat;
  completedCount : nat;
  failedCount    : nat;
  pendingCount   : nat
}.

End BatchStatus.

Definition batchRow (invoice : Invoice.t) : BatchStatus.row :=
  {| BatchStatus.id := Invoice.id invoice;
     BatchStatus.status := Invoice.status invoice;
     BatchStatus.confidenceScore := confidenceScore (Invoice.columns invoice);
     BatchStatus.processingTimeMs := Invoice.processingTimeMs invoice |}.

(** [invoices.filter(inv => ...).length]. *)
Definition countRows (p : BatchStatus.row -> bool) (rows : list BatchStatus.row) : nat :=
  length (List.filter p rows).

(** [getBatchStatus], given the rows that [Invoice.findAll] finds for
    the batch id. *)
Definition getBatchStatus (batchId : string) (found : list Invoice.t) : BatchStatus.t :=
  let invoices := map batchRow found in
  {| BatchStatus.batchId := batchId;
     BatchStatus.invoices := invoices;
     BatchStatus.totalCount := length invoices;
     BatchStatus.completedCount :=
       countRows (fun inv => Status_eqb (BatchStatus.status inv) completed) invoices;
     BatchStatus.failedCount :=
       countRows (fun inv => Status_eqb (BatchStatus.status inv) failed) invoices;
     BatchStatus.pendingCount :=
       countRows (fun inv => Status_eqb (BatchStatus.status inv) pending
                             || Status_eqb (BatchStatus.status inv) processing)%bool
         invoices |}.

(** The object returned by [processBatch]. *)
Record BatchResult : Type := mkBatchResult {
  resultBatchId : string;
  invoiceCount  : nat;
  invoiceIds    : list string
}.

(** The first loop of [processBatch]: one [Invoice.create] per file.
    A file is given by the id the table assigns to its row and by its
    path; the columns originalFileName, fileType, fileSize, batchId,
    createdBy and tags, which the service never reads back, are not
    part of [Invoice.t]. *)
Fixpoint createAll (files : list (string * string)) (url : jsval string)
  : M (list Invoice.t) :=
  match files with
  | [] => ret []
  | (i, path) :: rest =>
      let invoice := Invoice.create i path url in
      run save invoice in
      do invoices <- createAll rest url in
      ret (invoice :: invoices)
  end.

(** The second loop of [processBatch]: every invoice is queued. *)
Fixpoint queueAll (cfg : Config) (invoices : list Invoice.t) : M unit :=
  match invoices with
  | [] => ret tt
  | invoice :: rest =>
      do _ <- queueInvoice cfg invoice in
      queueAll cfg rest
  end.

(** [processBatch]; [batchId] is the value of [uuidv4()] and [url] is
    [options.webhookUrl]. *)
Definition processBatch (cfg : Config) (batchId : string)
           (files : list (string * string)) (url : jsval string) : M BatchResult :=
  do invoices <- createAll files url in
  run queueAll cfg invoices in
  ret {| resultBatchId := batchId;
         invoiceCount := length invoices;
         invoiceIds := map Invoice.id invoices |}.

(** The number of slots a batch can take at once: the free slots when
    nothing is waiting, none otherwise. *)
Definition freeSlots (cfg : Config) (s : State) : nat :=
  match processingQueue s with
  | [] => Z.to_nat (maxConcurrent cfg - activeProcessing s)
  | _ :: _ => 0
  end.

Definition fiveFiles : list (string * string) :=
  [ ("j1", "uploads/1.pdf"); ("j2", "uploads/2.pdf"); ("j3", "uploads/3.pdf");
    ("j4", "uploads/4.png"); ("j5", "uploads/5.pdf") ]%string.

(** The text and the number fields of [fieldMappings]. *)
Definition textFields : list (ExtractedData -> jsval string) :=
  [ vendorName; vendorAddress; vendorEmail; vendorPhone; invoiceNumber;
    purchaseOrderNumber; customerName; customerAddress; currency;
    paymentTerms; paymentMethod; bankDetails ].

Definition numberFields : list (ExtractedData -> jsval Q) :=
  [ subtotal; taxRate; taxAmount; discountAmount; shippingAmount; totalAmount ].

(** A stored invoice with a vendor and a subtotal, and an extraction
    that knows neither but sets the total to null. *)
Definition storedInvoice : Invoice.t :=
  updateInvoiceWithExtraction (Invoice.create "inv-1" "uploads/a.pdf" Null)
    wrongAmount (validateInvoice 0 wrongAmount).

Definition sparseExtraction : ExtractedData :=
  {| vendorName := Undefined; vendorAddress := Undefined;
     vendorEmail := Undefined; vendorPhone := Undefined;
     invoiceNumber := Val "INV-8"%string; invoiceDate := DateAbsent;
     dueDate := DateAbsent; purchaseOrderNumber := Undefined;
     customerName := Undefined; customerAddress := Undefined;
     lineItems := Undefined; subtotal := Undefined; taxRate := Undefined;
     taxAmount := Undefined; discountAmount := Undefined;
     shippingAmount := Undefined; totalAmount := Null;
     currency := Undefined; paymentTerms := Undefined;
     paymentMethod := Undefined; bankDetails := Undefined;
     confidenceScore := Undefined; anomalies := Undefined |}.

(** Rows of a batch in each of the five statuses. *)
Definition mixedBatch : list Invoice.t :=
  [ Invoice.setStatus completed (job "b1"); Invoice.setStatus review_required (job "b2");
    Invoice.setStatus failed (job "b3"); job "b4";
    Invoice.setStatus processing (job "b5"); Invoice.setStatus review_required (job "b6") ].

(** The row written by a manual retry. *)
Definition retriedRow (invoice : Invoice.t) : Invoice.t :=
  Invoice.setLastError None (Invoice.setStatus pending invoice).

(** ** More vocabulary: kinds of validation messages *)

(** The messages that the validation pushes onto [errors]; all others
    are pushed onto [warnings]. *)
Definition blocking (m : Message) : bool :=
  match m with
  | MsgRequired _ | MsgNoItemsNoTotal | MsgLineItemCalc _ _ _ _ _
  | MsgSubtotalMismatch _ _ | MsgTotalMismatch _ _
  | MsgInvalidInvoiceDate _ | MsgInvalidDueDate _
  | MsgDueBeforeInvoice | MsgDiscountExceedsSubtotal | MsgTotalNotPositive => true
  | _ => false
  end.

(** An invoice with a subtotal and a tax that do not match its line
    items, but within 5%. *)
Definition slightlyOff : ExtractedData :=
  {| vendorName := Val "Acme Supplies"%string; vendorAddress := Undefined;
     vendorEmail := Val "billing@acme.example"%string; vendorPhone := Undefined;
     invoiceNumber := Val "INV-7"%string; invoiceDate := DateAt 0;
     dueDate := DateAt 86400000; purchaseOrderNumber := Undefined;
     customerName := Undefined; customerAddress := Undefined;
     lineItems := Val [item (Val 2) (Val 10) (Val 20); item (Val 1) (Val 80) (Val 80)];
     subtotal := Val 101; taxRate := Val 10; taxAmount := Val 11;
     discountAmount := Undefined; shippingAmount := Undefined;
     totalAmount := Val 112; currency := Val "EUR"%string;
     paymentTerms := Undefined; paymentMethod := Undefined;
     bankDetails := Undefined; confidenceScore := Undefined;
     anomalies := Undefined |}.

(** The check of validationService.js that pushes a message. *)
Inductive Origin : Type :=
| FromRequiredFields
| FromLineItems
| FromSubtotal
| FromTotal
| FromTax
| FromFormats
| FromBusinessRules
| FromAnomalies.

Definition origin (m : Message) : Origin :=
  match m with
  | MsgRequired _ | MsgNoItemsNoTotal => FromRequiredFields
  | MsgLineItemCalc _ _ _ _ _ | MsgNonPositiveQuantity _ _
  | MsgNegativeUnitPrice _ _ => FromLineItems
  | MsgSubtotalMismatch _ _ | MsgMinorSubtotal _ _ => FromSubtotal
  | MsgTotalMismatch _ _ | MsgMinorTotal _ _ => FromTotal
  | MsgTaxDiscrepancy _ _ _ _ => FromTax
  | MsgInvalidInvoiceDate _ | MsgInvoiceDateOld _ | MsgInvoiceDateFuture _
  | MsgInvalidDueDate _ | MsgInvalidVendorEmail _ | MsgUnusualCurrency _ => FromFormats
  | MsgDueBeforeInvoice | MsgDiscountExceedsSubtotal | MsgDiscountOverHalf
  | MsgUnusualTaxRate _ | MsgTotalNotPositive | MsgVeryHighAmount _ => FromBusinessRules
  | MsgInvoiceNumberAllZeros | MsgRoundTotal | MsgHighAmountNoTax
  | MsgIdenticalQuantities => FromAnomalies
  end.

Definition Origin_eqb (a b : Origin) : bool :=
  match a, b with
  | FromRequiredFields, FromRequiredFields | FromLineItems, FromLineItems
  | FromSubtotal, FromSubtotal | FromTotal, FromTotal | FromTax, FromTax
  | FromFormats, FromFormats | FromBusinessRules, FromBusinessRules
  | FromAnomalies, FromAnomalies => true
  | _, _ => false
  end.

(** The messages of a list that one check has pushed. *)
Definition pushedBy (o : Origin) (l : list Message) : list Message :=
  List.filter (fun m => Origin_eqb (origin m) o) l.

(** Items that add up to 100, to 0 and to -100. *)
Definition itemsOf (total : Q) : list LineItem :=
  [item (Val 1) (Val total) (Val total)].

Definition withSubtotal (items : list LineItem) (sub total : Q) : ExtractedData :=
  {| vendorName := Val "Acme Supplies"%string; vendorAddress := Undefined;
     vendorEmail := Undefined; vendorPhone := Undefined;
     invoiceNumber := Val "INV-7"%string; invoiceDate := DateAt 0;
     dueDate := DateAbsent; purchaseOrderNumber := Undefined;
     customerName := Undefined; customerAddress := Undefined;
     lineItems := Val items; subtotal := Val sub; taxRate := Undefined;
     taxAmount := Undefined; discountAmount := Undefined;
     shippingAmount := Undefined; totalAmount := Val total;
     currency := Undefined; paymentTerms := Undefined;
     paymentMethod := Undefined; bankDetails := Undefined;
     confidenceScore := Undefined; anomalies := Undefined |}.

(** ** services/extractionService.js: validateExtraction *)

(** The messages of [validateExtraction], one constructor per template
    literal, with the interpolated values in the order of the text. *)
Inductive ExtractionMessage : Type :=
| ExMissingField (field : string)
| ExLowConfidence (score : jsval Q)
| ExLowItemConfidence (index : nat) (score : jsval Q)
| ExAmountMismatch (index : nat) (got : jsval Q) (expected : Q)
| ExSubtotalMismatch (extracted calculated : Q)
| ExTotalMismatch (extracted calculated : Q)
| ExDueBeforeInvoice.

(** ToNumber on a number field: undefined is NaN ([None]), null is 0. *)
Definition toNumber (v : jsval Q) : option Q :=
  match v with
  | Undefined => None
  | Null => Some 0
  | Val q => Some q
  end.

(** [x < c] and [Math.abs(x) > c], false on NaN. *)
Definition nanLt (x : option Q) (c : Q) : bool :=
  match x with
  | Some q => Qltb q c
  | None => false
  end.

Definition nanAbsGt (x : option Q) (c : Q) : bool :=
  match x with
  | Some q => Qltb c (Math_abs q)
  | None => false
  end.

Definition nanOp (f : Q -> Q -> Q) (a b : option Q) : option Q :=
  match a, b with
  | Some x, Some y => Some (f x y)
  | _, _ => None
  end.

Definition pushEx (b : bool) (m : ExtractionMessage) : list ExtractionMessage :=
  if b then [m] else [].

(** [item.quantity * item.unitPrice]. *)
Definition expectedAmount (item : LineItem) : option Q :=
  nanOp fmul (toNumber (quantity item)) (toNumber (unitPrice item)).

Definition extractionItemErrors (i : nat) (item : LineItem) : list ExtractionMessage :=
  pushEx (nanAbsGt (nanOp fsub (toNumber (amount item)) (expectedAmount item)) (fl (1 # 100)))
    (ExAmountMismatch (i + 1) (amount item)
       (match expectedAmount item with Some e => e | None => 0 end)).

Definition extractionItemWarnings (i : nat) (item : LineItem) : list ExtractionMessage :=
  pushEx (nanLt (toNumber (confidence item)) (fl (6 # 10)))
    (ExLowItemConfidence (i + 1) (confidence item)).

(** The loop over the line items from position [i] on: the errors and
    warnings it pushes, and the final value of [calculatedSubtotal],
    which starts as [calc] and is NaN once an amount is undefined. *)
Fixpoint extractionLoop (i : nat) (items : list LineItem) (calc : option Q)
  : list ExtractionMessage * list ExtractionMessage * option Q :=
  match items with
  | [] => ([], [], calc)
  | item :: rest =>
      let '(e, w, c) :=
        extractionLoop (S i) rest (nanOp fadd calc (toNumber (amount item))) in
      (extractionItemErrors i item ++ e, extractionItemWarnings i item ++ w, c)
  end.

(** The required-fields loop. *)
Definition extractionRequired (d : ExtractedData) : list ExtractionMessage :=
  pushEx (negb (truthyS (vendorName d))) (ExMissingField "vendorName")
  ++ pushEx (negb (truthyS (invoiceNumber d))) (ExMissingField "invoiceNumber")
  ++ pushEx (negb (truthyN (totalAmount d))) (ExMissingField "totalAmount").

(** The confidence check. *)
Definition extractionConfidence (d : ExtractedData) : list ExtractionMessage :=
  pushEx (nanLt (toNumber (confidenceScore d)) (5 # 10))
    (ExLowConfidence (confidenceScore d)).

(** The line-items block: the loop, then the subtotal check. *)
Definition extractionLineItems (d : ExtractedData)
  : list ExtractionMessage * list ExtractionMessage :=
  match lineItems d with
  | Val ((_ :: _) as items) =>
      let '(e, w, calc) := extractionLoop 0 items (Some 0) in
      (e ++ (if truthyN (subtotal d)
             then pushEx (nanAbsGt (nanOp fsub (Some (num (subtotal d))) calc) (fl (1 # 100)))
                    (ExSubtotalMismatch (num (subtotal d))
                       (match calc with Some c => c | None => 0 end))
             else []),
       w)
  | _ => ([], [])
  end.

(** The total check. *)
Definition extractionTotal (d : ExtractedData) : list ExtractionMessage :=
  if (truthyN (subtotal d) && truthyN (totalAmount d))%bool
  then
    let expectedTotal :=
      fadd (fsub (fadd (num (subtotal d)) (orZero (taxAmount d)))
                 (orZero (discountAmount d)))
           (orZero (shippingAmount d)) in
    pushEx (Qltb (fl (1 # 100)) (Math_abs (fsub (num (totalAmount d)) expectedTotal)))
      (ExTotalMismatch (num (totalAmount d)) expectedTotal)
  else [].

(** The date check. *)
Definition extractionDates (d : ExtractedData) : list ExtractionMessage :=
  pushEx (truthyD (invoiceDate d) && truthyD (dueDate d)
          && dueBeforeInvoice (invoiceDate d) (dueDate d))
    ExDueBeforeInvoice.

(** [validateExtraction(extractedData)]: the pair [(errors, warnings)],
    each in the order the checks push. *)
Definition validateExtraction (d : ExtractedData)
  : list ExtractionMessage * list ExtractionMessage :=
  (extractionRequired d ++ fst (extractionLineItems d) ++ extractionTotal d,
   extractionConfidence d ++ snd (extractionLineItems d) ++ extractionDates d).

(** An invoice whose total differs from subtotal + tax by 3%. *)
Definition threePercentOff : ExtractedData := withSubtotal (itemsOf 100) 100 103.

(** One unit at 1.0199999, billed 1.01. *)
Definition roundedUp : ExtractedData :=
  withSubtotal [item (Val 1) (Val (fl (10199999 # 10000000))) (Val (fl (101 # 100)))]
    (fl (101 # 100)) (fl (101 # 100)).

(* ===================================================================== *)
(** * Properties *)
(* ===================================================================== *)

(** ** Double precision *)

(** *** Powers of two *)

Lemma pow2_pos (k : Z) : 0 < pow2 k.
Proof. apply Qpower_0_lt. reflexivity. Qed.

Lemma pow2_plus (a b : Z) : pow2 (a + b) == pow2 a * pow2 b.
Proof. apply Qpower_plus. discriminate. Qed.

Lemma pow2_le (a b : Z) : (a <= b)%Z -> pow2 a <= pow2 b.
Proof. intro H. apply Qpower_le_compat_l; [ exact H | discriminate ]. Qed.

Lemma pow2_lt_inv (a b : Z) : pow2 a < pow2 b -> (a < b)%Z.
Proof. intro H. apply (Qpower_lt_compat_l_inv 2); [ exact H | reflexivity ]. Qed.

Lemma pow2_Z (k : Z) : (0 <= k)%Z -> pow2 k == inject_Z (2 ^ k).
Proof. intro H. unfold pow2. now rewrite Zpower_Qpower. Qed.

Lemma pow2_split (e u : Z) : (u <= e)%Z -> pow2 e == inject_Z (2 ^ (e - u)) * pow2 u.
Proof.
  intro H. rewrite <- pow2_Z by lia. rewrite <- pow2_plus.
  replace (e - u + u)%Z with e by lia. reflexivity.
Qed.

(** *** The binary exponent *)

Lemma ilog2_spec (x : Q) : 0 < x -> pow2 (ilog2 x) <= x /\ x < pow2 (ilog2 x + 1).
Proof.
  intro Hx. unfold ilog2.
  destruct x as [n d]. cbn [Qnum Qden].
  assert (Hn : (0 < n)%Z).
  { unfold Qlt in Hx. cbn in Hx. lia. }
  set (a := Z.log2 n). set (b := Z.log2 (Z.pos d)).
  destruct (Z.log2_spec n Hn) as [Ha1 Ha2]. fold a in Ha1, Ha2.
  destruct (Z.log2_spec (Z.pos d) (Pos2Z.is_pos d)) as [Hb1 Hb2]. fold b in Hb1, Hb2.
  assert (Ha0 : (0 <= a)%Z) by apply Z.log2_nonneg.
  assert (Hb0 : (0 <= b)%Z) by apply Z.log2_nonneg.
  assert (Hx' : n # d == inject_Z n / inject_Z (Z.pos d)) by apply Qmake_Qdiv.
  assert (Hd : 0 < inject_Z (Z.pos d)) by reflexivity.
  assert (Hup : n # d < pow2 (a - b + 1)).
  { rewrite Hx'. apply Qlt_shift_div_r; [ exact Hd | ].
    apply Qlt_le_trans with (inject_Z (2 ^ (a + 1))).
    - rewrite <- Zlt_Qlt. replace (a + 1)%Z with (Z.succ a) by lia. exact Ha2.
    - rewrite <- pow2_Z by lia.
      replace (a + 1)%Z with ((a - b + 1) + b)%Z by lia. rewrite pow2_plus.
      apply Qmult_le_l; [ apply pow2_pos | ].
      rewrite pow2_Z by lia. rewrite <- Zle_Qle. exact Hb1. }
  assert (Hlow : pow2 (a - b - 1) <= n # d).
  { rewrite Hx'. apply Qle_shift_div_l; [ exact Hd | ].
    apply Qle_trans with (inject_Z (2 ^ a)).
    - rewrite <- pow2_Z by lia.
      replace a with ((a - b - 1) + (b + 1))%Z at 2 by lia. rewrite pow2_plus.
      apply Qmult_le_l; [ apply pow2_pos | ].
      rewrite pow2_Z by lia. rewrite <- Zle_Qle.
      replace (b + 1)%Z with (Z.succ b) by lia. lia.
    - rewrite <- Zle_Qle. exact Ha1. }
  destruct (Qle_bool (pow2 (a - b)) (n # d)) eqn:E.
  - apply Qle_bool_iff in E. split; [ exact E | exact Hup ].
  - split; [ exact Hlow | ].
    replace (a - b - 1 + 1)%Z with (a - b)%Z by lia.
    apply Qnot_le_lt. intro H. apply Qle_bool_iff in H. congruence.
Qed.

Lemma ilog2_mono (x y : Q) : 0 < x -> x <= y -> (ilog2 x <= ilog2 y)%Z.
Proof.
  intros Hx Hxy.
  destruct (ilog2_spec x Hx) as [H1 _].
  destruct (ilog2_spec y (Qlt_le_trans _ _ _ Hx Hxy)) as [_ H2].
  assert (H : pow2 (ilog2 x) < pow2 (ilog2 y + 1)) by lra.
  apply pow2_lt_inv in H. lia.
Qed.

Lemma ulp_mono (x y : Q) : 0 < x -> x <= y -> (ulp x <= ulp y)%Z.
Proof. intros Hx Hxy. unfold ulp. pose proof (ilog2_mono x y Hx Hxy). lia. Qed.

(** *** Rounding to an integer, ties to even *)

Lemma rne_cases (y : Q) :
  (rne y = Qfloor y /\ y - inject_Z (Qfloor y) <= 1 # 2)
  \/ (rne y = (Qfloor y + 1)%Z /\ 1 # 2 <= y - inject_Z (Qfloor y)).
Proof.
  unfold rne. cbv zeta.
  destruct (Qcompare_spec (y - inject_Z (Qfloor y)) (1 # 2)) as [E | E | E].
  - destruct (Z.even (Qfloor y)); [ left | right ]; split; auto; lra.
  - left. split; [ reflexivity | lra ].
  - right. split; [ reflexivity | lra ].
Qed.

Lemma Qfloor_bounds (y : Q) : inject_Z (Qfloor y) <= y /\ y < inject_Z (Qfloor y) + 1.
Proof.
  split; [ apply Qfloor_le | ].
  pose proof (Qlt_floor y) as H. rewrite inject_Z_plus in H. exact H.
Qed.

Lemma rne_error (y : Q) : Qabs (inject_Z (rne y) - y) <= 1 # 2.
Proof.
  destruct (Qfloor_bounds y) as [H1 H2].
  apply Qabs_Qle_condition.
  destruct (rne_cases y) as [[-> H] | [-> H]].
  - split; lra.
  - rewrite inject_Z_plus. change (inject_Z 1) with 1. split; lra.
Qed.

Lemma rne_Z (k : Z) : rne (inject_Z k) = k.
Proof.
  unfold rne. rewrite Qfloor_Z.
  replace (Qcompare (inject_Z k - inject_Z k) (1 # 2)) with Lt; [ reflexivity | ].
  symmetry. apply Qlt_alt.
  assert (E : inject_Z k - inject_Z k == 0) by ring.
  rewrite E. reflexivity.
Qed.

Lemma rne_wd (x y : Q) : x == y -> rne x = rne y.
Proof.
  intro H. unfold rne. rewrite (Qfloor_comp _ _ H).
  replace (Qcompare (y - inject_Z (Qfloor y)) (1 # 2))
    with (Qcompare (x - inject_Z (Qfloor y)) (1 # 2)); [ reflexivity | ].
  apply Qcompare_comp; [ now rewrite H | reflexivity ].
Qed.

Lemma rne_mono (x y : Q) : x <= y -> (rne x <= rne y)%Z.
Proof.
  intro Hxy.
  pose proof (Qfloor_resp_le _ _ Hxy) as Hf.
  destruct (Qfloor_bounds x) as [Hx1 Hx2]. destruct (Qfloor_bounds y) as [Hy1 Hy2].
  destruct (Z.eq_dec (Qfloor x) (Qfloor y)) as [Heq | Hne].
  - rewrite <- Heq in Hy1, Hy2. unfold rne. cbv zeta. rewrite <- Heq.
    destruct (Qcompare_spec (x - inject_Z (Qfloor x)) (1 # 2)) as [Ex | Ex | Ex];
      destruct (Qcompare_spec (y - inject_Z (Qfloor x)) (1 # 2)) as [Ey | Ey | Ey];
      try (exfalso; lra); destruct (Z.even (Qfloor x)); lia.
  - assert (Hlt : (Qfloor x + 1 <= Qfloor y)%Z) by lia.
    destruct (rne_cases x) as [[-> _] | [-> _]], (rne_cases y) as [[-> _] | [-> _]]; lia.
Qed.

(** *** Rounding to the multiples of a power of two *)

Lemma flpos_grid (x : Q) : flpos x == grid (ulp x) x.
Proof. unfold flpos. apply Qred_correct. Qed.

Lemma grid_mono (u : Z) (x y : Q) : x <= y -> grid u x <= grid u y.
Proof.
  intro H. unfold grid. apply Qmult_le_compat_r; [ | apply Qlt_le_weak, pow2_pos ].
  rewrite <- Zle_Qle. apply rne_mono.
  apply Qmult_le_compat_r; [ exact H | ].
  apply Qlt_le_weak, Qinv_lt_0_compat, pow2_pos.
Qed.

Lemma grid_point (u k : Z) : grid u (inject_Z k * pow2 u) == inject_Z k * pow2 u.
Proof.
  unfold grid.
  assert (E : inject_Z k * pow2 u / pow2 u == inject_Z k).
  { field. intro H. pose proof (pow2_pos u). lra. }
  rewrite (rne_wd _ _ E), rne_Z. reflexivity.
Qed.

Lemma grid_wd (u : Z) (x y : Q) : x == y -> grid u x == grid u y.
Proof.
  intro H. unfold grid. rewrite (rne_wd (x / pow2 u) (y / pow2 u)) by now rewrite H.
  reflexivity.
Qed.

Lemma grid_pow2 (u e : Z) : (u <= e)%Z -> grid u (pow2 e) == pow2 e.
Proof.
  intro H. rewrite (grid_wd u _ _ (pow2_split e u H)), grid_point.
  symmetry. now apply pow2_split.
Qed.

Lemma grid_error (u : Z) (x : Q) : Qabs (grid u x - x) <= pow2 u * (1 # 2).
Proof.
  unfold grid. pose proof (pow2_pos u) as Hp.
  pose proof (rne_error (x / pow2 u)) as H.
  assert (E : inject_Z (rne (x / pow2 u)) * pow2 u - x
              == (inject_Z (rne (x / pow2 u)) - x / pow2 u) * pow2 u).
  { field. lra. }
  rewrite E, Qabs_Qmult, (Qabs_pos (pow2 u)) by lra.
  rewrite (Qmult_comm (pow2 u)).
  apply Qmult_le_compat_r; [ exact H | lra ].
Qed.

Lemma grid_0 (u : Z) : grid u 0 == 0.
Proof.
  assert (E : 0 == inject_Z 0 * pow2 u) by ring.
  rewrite (grid_wd u _ _ E), grid_point. ring.
Qed.

(** *** Rounding to binary64 *)

Lemma flpos_nonneg (x : Q) : 0 <= x -> 0 <= flpos x.
Proof.
  intro H. rewrite flpos_grid. rewrite <- (grid_0 (ulp x)). now apply grid_mono.
Qed.

Lemma flpos_mono (x y : Q) : 0 <= x -> x <= y -> flpos x <= flpos y.
Proof.
  intros Hx Hxy. rewrite !flpos_grid.
  destruct (Qlt_le_dec 0 x) as [Hpos | Hzero].
  - pose proof (ulp_mono x y Hpos Hxy) as Hu.
    destruct (Z.eq_dec (ulp x) (ulp y)) as [Heq | Hne].
    + rewrite Heq. now apply grid_mono.
    + assert (Hy : 0 < y) by lra.
      destruct (ilog2_spec x Hpos) as [_ Hx2]. destruct (ilog2_spec y Hy) as [Hy1 _].
      unfold ulp in *.
      assert (Hexp : (ilog2 x + 1 <= ilog2 y)%Z) by lia.
      assert (Huy : Z.max (ilog2 y - 52) (-1074) = (ilog2 y - 52)%Z) by lia.
      apply Qle_trans with (pow2 (ilog2 y)).
      * rewrite <- (grid_pow2 (Z.max (ilog2 x - 52) (-1074)) (ilog2 y)) by lia.
        apply grid_mono. pose proof (pow2_le _ _ Hexp). lra.
      * rewrite <- (grid_pow2 (Z.max (ilog2 y - 52) (-1074)) (ilog2 y)) at 1 by lia.
        now apply grid_mono.
  - assert (E : x == 0) by lra.
    rewrite (grid_wd (ulp x) _ _ E), grid_0, <- flpos_grid.
    apply flpos_nonneg. lra.
Qed.

Lemma fl_nonneg (x : Q) : 0 <= x -> fl x == flpos x.
Proof.
  intro H. unfold fl. apply Qle_bool_iff in H. now rewrite H.
Qed.

Lemma fl_neg (x : Q) : x < 0 -> fl x == - flpos (- x).
Proof.
  intro H. unfold fl.
  destruct (Qle_bool 0 x) eqn:E; [ apply Qle_bool_iff in E; lra | apply Qred_correct ].
Qed.

(** Rounding is monotone. *)
Lemma fl_mono (x y : Q) : x <= y -> fl x <= fl y.
Proof.
  intro Hxy.
  destruct (Qlt_le_dec x 0) as [Hx | Hx], (Qlt_le_dec y 0) as [Hy | Hy].
  - rewrite (fl_neg x Hx), (fl_neg y Hy).
    assert (flpos (- y) <= flpos (- x)) by (apply flpos_mono; lra). lra.
  - rewrite (fl_neg x Hx), (fl_nonneg y Hy).
    assert (0 <= flpos (- x)) by (apply flpos_nonneg; lra).
    assert (0 <= flpos y) by (apply flpos_nonneg; lra). lra.
  - lra.
  - rewrite (fl_nonneg x Hx), (fl_nonneg y Hy). now apply flpos_mono.
Qed.

Lemma fl_wd (x y : Q) : x == y -> fl x == fl y.
Proof. intro H. apply Qle_antisym; apply fl_mono; lra. Qed.

Lemma fl_sign (x : Q) : (0 <= x -> 0 <= fl x) /\ (x <= 0 -> fl x <= 0).
Proof.
  split; intro H.
  - rewrite (fl_nonneg x H). now apply flpos_nonneg.
  - apply Qle_trans with (fl 0); [ now apply fl_mono | ].
    vm_compute. discriminate.
Qed.

(** The rounding error: half a unit in the last place. *)
Lemma flpos_error (x : Q) :
  0 < x -> Qabs (flpos x - x) <= pow2 (-53) * x + pow2 (-1075).
Proof.
  intro Hx. rewrite flpos_grid.
  eapply Qle_trans; [ apply grid_error | ].
  destruct (ilog2_spec x Hx) as [H1 _].
  pose proof (pow2_pos (-1075)) as Hmin. pose proof (pow2_pos (-53)) as H53.
  unfold ulp. destruct (Z.max_spec (ilog2 x - 52) (-1074)) as [[_ ->] | [_ ->]].
  - change (pow2 (-1074) * (1 # 2)) with (pow2 (-1075)) at 1.
    assert (0 <= pow2 (-53) * x) by (apply Qmult_le_0_compat; lra). lra.
  - replace (ilog2 x - 52)%Z with (ilog2 x + - 52)%Z by lia.
    rewrite pow2_plus.
    assert (E : pow2 (ilog2 x) * pow2 (-52) * (1 # 2) == pow2 (-53) * pow2 (ilog2 x))
      by (unfold pow2 at 2 3; simpl; field).
    rewrite E.
    assert (pow2 (-53) * pow2 (ilog2 x) <= pow2 (-53) * x)
      by (apply Qmult_le_l; [ exact H53 | exact H1 ]).
    lra.
Qed.

Lemma fl_error (x : Q) : Qabs (fl x - x) <= pow2 (-53) * Qabs x + pow2 (-1075).
Proof.
  pose proof (pow2_pos (-1075)) as Hmin. pose proof (pow2_pos (-53)) as H53.
  destruct (Qlt_le_dec x 0) as [Hx | Hx].
  - rewrite (fl_neg x Hx), (Qabs_neg x) by lra.
    pose proof (flpos_error (- x) ltac:(lra)) as H.
    assert (E : - flpos (- x) - x == - (flpos (- x) - - x)) by ring.
    rewrite E, Qabs_opp. exact H.
  - rewrite (fl_nonneg x Hx), (Qabs_pos x) by lra.
    destruct (Qlt_le_dec 0 x) as [Hp | Hz].
    + now apply flpos_error.
    + assert (E0 : x == 0) by lra.
      assert (Ef : flpos x == 0)
        by (rewrite flpos_grid, (grid_wd (ulp x) _ _ E0); apply grid_0).
      rewrite Ef, E0. change (Qabs (0 - 0)) with 0. 
      assert (0 <= pow2 (-53) * 0) by lra. lra.
Qed.


(** What the comparison of a computed difference with a literal says
    about the exact difference. *)
Lemma fsub_close (a b c : Q) :
  Qabs (a - b) <= c -> Qabs (fsub a b) <= fl c.
Proof.
  intro H. apply Qabs_Qle_condition in H as [H1 H2]. unfold fsub.
  apply Qabs_Qle_condition. split.
  - assert (E : - fl c == fl (- c)).
    { destruct (Qlt_le_dec 0 c) as [Hc | Hc].
      - rewrite (fl_neg (- c)) by lra. rewrite (fl_nonneg c) by lra.
        assert (Ec : - - c == c) by ring.
        rewrite <- (fl_nonneg (- - c)) by lra. rewrite (fl_wd _ _ Ec).
        rewrite (fl_nonneg c) by lra. reflexivity.
      - assert (Ez : c == 0) by lra.
        rewrite (fl_wd c 0 Ez), (fl_wd (- c) 0) by (rewrite Ez; reflexivity).
        reflexivity. }
    rewrite E. apply fl_mono. lra.
  - apply fl_mono. lra.
Qed.

Lemma fl_opp (x : Q) : fl (- x) == - fl x.
Proof.
  destruct (Qlt_le_dec 0 x) as [Hx | Hx].
  - rewrite (fl_neg (- x)) by lra. rewrite (fl_nonneg x) by lra.
    assert (E : - - x == x) by ring.
    rewrite <- (fl_nonneg (- - x)) by lra. rewrite (fl_wd _ _ E).
    rewrite (fl_nonneg x) by lra. reflexivity.
  - destruct (Qlt_le_dec x 0) as [Hn | Hz].
    + rewrite (fl_neg x Hn). rewrite (fl_nonneg (- x)) by lra. ring.
    + assert (Ez : x == 0) by lra.
      rewrite (fl_wd x 0 Ez), (fl_wd (- x) 0) by (rewrite Ez; reflexivity).
      reflexivity.
Qed.

Lemma fsub_apart (a b c : Q) :
  c <= Qabs (a - b) -> fl (1 # 100) < fl c ->
  fl (1 # 100) < Qabs (fsub a b).
Proof.
  intros H Hc. unfold fsub.
  destruct (Qlt_le_dec (a - b) 0) as [Hn | Hp].
  - rewrite (Qabs_neg (a - b)) in H by lra.
    assert (Hle : fl (a - b) <= fl (- c)) by (apply fl_mono; lra).
    rewrite fl_opp in Hle.
    assert (Hneg : fl (a - b) <= 0) by (apply fl_sign; lra).
    rewrite Qabs_neg by exact Hneg. lra.
  - rewrite (Qabs_pos (a - b)) in H by exact Hp.
    assert (Hle : fl c <= fl (a - b)) by now apply fl_mono.
    assert (Hpos : 0 <= fl (a - b)) by now apply fl_sign.
    rewrite Qabs_pos by exact Hpos. lra.
Qed.

(** ** Sample extraction results *)

Example twoWarnings_findings :
  findings 0 twoWarnings = ([], [MsgRoundTotal; MsgHighAmountNoTax]).
Proof. reflexivity. Qed.

Example threeWarnings_findings :
  findings 0 threeWarnings
  = ([], [MsgInvoiceNumberAllZeros; MsgRoundTotal; MsgHighAmountNoTax]).
Proof. reflexivity. Qed.

(** ** The review decision of the validation engine *)

Lemma ltb_0_length {A} (l : list A) : Nat.ltb 0 (length l) = true <-> l <> [].
Proof.
  destruct l; simpl; split; intro H; try congruence; try reflexivity.
  intro; discriminate.
Qed.

(** C2.  The flag returned by [validateInvoice] is true exactly when
    the errors list is non-empty or the warnings list has more than two
    entries; with no error, two warnings leave it false and three
    warnings set it. *)
Theorem validateInvoice_requiresManualReview (now : Z) (invoice : ExtractedData) :
  let r := validateInvoice now invoice in
  (requiresManualReview r = true
   <-> errors r <> [] \/ (2 < length (warnings r))%nat)
  /\ (errors r = [] -> length (warnings r) = 2%nat -> requiresManualReview r = false)
  /\ (errors r = [] -> length (warnings r) = 3%nat -> requiresManualReview r = true).
Proof.
  cbv zeta. unfold validateInvoice; simpl.
  set (f := findings now invoice).
  repeat split.
  - intro H. apply orb_true_iff in H as [H | H].
    + left. now apply ltb_0_length.
    + right. apply Nat.ltb_lt in H. exact H.
  - intros [H | H]; apply orb_true_iff.
    + left. now apply ltb_0_length.
    + right. now apply Nat.ltb_lt.
  - intros He Hw. rewrite He, Hw. reflexivity.
  - intros He Hw. rewrite He, Hw. reflexivity.
Qed.

Lemma validateInvoice_requiresManualReview_witness :
  requiresManualReview (validateInvoice 0 twoWarnings) = false
  /\ requiresManualReview (validateInvoice 0 threeWarnings) = true.
Proof.
  split.
  - apply (proj1 (proj2 (validateInvoice_requiresManualReview 0 twoWarnings)));
      reflexivity.
  - apply (proj2 (proj2 (validateInvoice_requiresManualReview 0 threeWarnings)));
      reflexivity.
Defined.

(** ** The confidence adjustment *)

Lemma Qclamp_bounds (x : Q) : 0 <= Qmax 0 (Qmin 1 x) <= 1.
Proof.
  split.
  - apply Q.le_max_l.
  - apply Q.max_lub; [ discriminate | apply Q.le_min_l ].
Qed.

(** C6.  The adjusted confidence is max(0, min(1, base - 0.1 E - 0.02 W))
    for E errors and W warnings, so it lies in [0, 1] whatever the
    penalty, and so does the score that [updateInvoiceWithExtraction]
    stores. *)
Theorem adjustConfidenceScore_clamped (base : Q) (v : ValidationResult) :
  let E := inject_Z (Z.of_nat (length (errors v))) in
  let W := inject_Z (Z.of_nat (length (warnings v))) in
  adjustConfidenceScore base v
    == Qmax 0 (Qmin 1 (base - (1 # 10) * E - (2 # 100) * W))
  /\ 0 <= adjustConfidenceScore base v <= 1
  /\ (forall (invoice : Invoice.t) (d : ExtractedData),
        exists c,
          confidenceScore (Invoice.columns (updateInvoiceWithExtraction invoice d v))
          = Val c
          /\ 0 <= c <= 1).
Proof.
  cbv zeta. split; [ | split ].
  - unfold adjustConfidenceScore.
    apply Q.max_compat; [ reflexivity | ].
    apply Q.min_compat; [ reflexivity | ]. ring.
  - apply Qclamp_bounds.
  - intros invoice d. eexists. split; [ reflexivity | apply Qclamp_bounds ].
Qed.

Example adjustConfidenceScore_five_errors :
  adjustConfidenceScore (3 # 10)
    {| isValid := false;
       errors := [MsgTotalNotPositive; MsgDueBeforeInvoice; MsgNoItemsNoTotal;
                  MsgDiscountExceedsSubtotal; MsgRequired "Vendor name"];
       warnings := []; requiresManualReview := true |} = 0.
Proof. reflexivity. Qed.

(** ** The base confidence *)

Example confidenceOnly_average :
  ExtractionService.calculateConfidenceScore confidenceOnly == 45 # 100.
Proof. reflexivity. Qed.

Example confidenceOnly_base :
  ProcessingService.baseConfidence confidenceOnly == 9 # 10.
Proof. reflexivity. Qed.

(** C5 as stated fails: when the extractor reports an overall
    confidence, the base confidence is that value alone and not the
    equal-weight average of the components. *)
Lemma baseConfidence_not_average :
  ~ (forall d : ExtractedData,
        ProcessingService.baseConfidence d
        == ExtractionService.calculateConfidenceScore d).
Proof.
  intro H. specialize (H confidenceOnly). vm_compute in H. discriminate H.
Qed.

(** C5, amended.  The score persisted by [updateInvoiceWithExtraction]
    is the penalty adjustment of a base confidence that is the
    extractor-reported overall confidence alone when the extractor
    reports one (a non-zero number), and otherwise the equal-weight
    average of the field-presence fraction and, when there are line
    items, the mean of their confidences. *)
Theorem baseConfidence_by_cases (invoice : Invoice.t) (d : ExtractedData)
        (v : ValidationResult) :
  confidenceScore (Invoice.columns (ProcessingService.updateInvoiceWithExtraction invoice d v))
  = Val (adjustConfidenceScore (ProcessingService.baseConfidence d) v)
  /\ (truthyN (confidenceScore d) = true ->
      ProcessingService.baseConfidence d = num (confidenceScore d))
  /\ (truthyN (confidenceScore d) = false ->
      ProcessingService.baseConfidence d
      == match lineItems d with
         | Val ((_ :: _) as items) => (fieldPresence d + lineItemMean items) / 2
         | _ => fieldPresence d
         end).
Proof.
  split; [ reflexivity | split ].
  - intro H. unfold ProcessingService.baseConfidence. now rewrite H.
  - intro H. unfold ProcessingService.baseConfidence. rewrite H.
    unfold ExtractionService.calculateConfidenceScore, ExtractionService.scores.
    rewrite H. fold (fieldPresence d).
    generalize (fieldPresence d); intro a.
    destruct (lineItems d) as [ | | [ | item rest ] ].
    1-3: simpl app; unfold ExtractionService.sumQ; simpl;
      change (inject_Z 1) with 1; field.
    fold (lineItemMean (item :: rest)).
    generalize (lineItemMean (item :: rest)); intro b.
    simpl app; unfold ExtractionService.sumQ; simpl.
    change (inject_Z 2) with 2. field.
Qed.

Lemma baseConfidence_by_cases_witness :
  ProcessingService.baseConfidence confidenceOnly = 9 # 10
  /\ ProcessingService.baseConfidence twoWarnings == 4 # 5.
Proof.
  split.
  - apply (proj1 (proj2 (baseConfidence_by_cases
                           (Invoice.create "a" "a.pdf" Null) confidenceOnly
                           (validateInvoice 0 confidenceOnly)))).
    reflexivity.
  - apply (proj2 (proj2 (baseConfidence_by_cases
                           (Invoice.create "a" "a.pdf" Null) twoWarnings
                           (validateInvoice 0 twoWarnings)))).
    reflexivity.
Defined.

(** ** Line-item arithmetic *)

Lemma Qltb_lt (a b : Q) : Qltb a b = true <-> a < b.
Proof.
  unfold Qltb. rewrite negb_true_iff. split; intro H.
  - apply Qnot_le_lt. intro Hle. apply Qle_bool_iff in Hle. congruence.
  - destruct (Qle_bool b a) eqn:E; [ | reflexivity ].
    apply Qle_bool_iff in E. exfalso. exact (Qlt_not_le _ _ H E).
Qed.

Lemma Qleb_le (a b : Q) : Qleb a b = true <-> a <= b.
Proof. apply Qle_bool_iff. Qed.

Lemma In_pushIf (b : bool) (m x : Message) :
  In x (pushIf b m) <-> b = true /\ x = m.
Proof.
  destruct b; simpl; split; intros H; try tauto.
  - destruct H as [H | []]. now split.
  - destruct H as [_ H]. now left.
  - destruct H as [H _]. discriminate H.
Qed.

(** The errors of the line-item loop are those of its items, each
    under its own position. *)
Lemma lineItemsLoop_errors (m : Message) (items : list LineItem) (start : nat) :
  In m (fst (lineItemsLoop start items))
  <-> exists j item, items !! j = Some item
                     /\ In m (lineItemErrors (start + j) item).
Proof.
  revert start. induction items as [ | x rest IH ]; intro start; simpl.
  - split; [ tauto | ]. intros (j & item & H & _). discriminate H.
  - rewrite in_app_iff, IH. split.
    + intros [H | (j & item & Hj & H)].
      * exists 0%nat, x. rewrite Nat.add_0_r. now split.
      * exists (S j), item. rewrite Nat.add_succ_r. now split.
    + intros (j & item & Hj & H). destruct j as [ | j ].
      * left. rewrite Nat.add_0_r in H. simpl in Hj. now inversion Hj; subst.
      * right. exists j, item. rewrite Nat.add_succ_r in H. now split.
Qed.

(** Close a goal whose hypothesis [H] places a message in a list that
    cannot contain it. *)
Ltac absurd_member H :=
  exfalso;
  repeat match type of H with
         | context [if ?c then _ else _] => destruct c
         | context [match ?d with _ => _ end] => destruct d
         end;
  simpl in H; intuition discriminate.

(** A line-item calculation error can only come from the loop. *)
Lemma lineItemCalc_origin (now : Z) (invoice : ExtractedData)
      (k : nat) (q p e a : Q) :
  In (MsgLineItemCalc k q p e a) (errors (validateInvoice now invoice))
  <-> exists items, lineItems invoice = Val items
                    /\ In (MsgLineItemCalc k q p e a) (fst (lineItemsLoop 0 items)).
Proof.
  unfold validateInvoice, findings, validateCalculations.
  cbn [errors fst snd both].
  split.
  - intro H.
    destruct (lineItems invoice) as [ | | [ | x rest ] ] eqn:Hi;
      cbn [fst snd both noFindings app] in H.
    all: repeat (apply in_app_or in H; destruct H as [H | H]).
    all: try (apply In_pushIf in H; destruct H as [_ H]; discriminate H).
    all: try (unfold validateFormats, validateBusinessRules, checkSubtotal,
               checkTotal, mismatch, noFindings, pushIf in H;
              cbn [fst snd both app] in H; solve [absurd_member H]).
    + exists (x :: rest). split; [ reflexivity | ].
      cbn [lineItemsLoop both fst snd]. apply in_or_app; left. exact H.
    + exists (x :: rest). split; [ reflexivity | ].
      cbn [lineItemsLoop both fst snd]. apply in_or_app; right. exact H.
  - intros (items & Hi & H). rewrite Hi.
    destruct items as [ | x rest ]; [ destruct H | ].
    cbn [fst snd both].
    apply in_or_app; right. apply in_or_app; left.
    apply in_or_app; left. exact H.
Qed.

Example zeroAmount_errors : errors (validateInvoice 0 zeroAmount) = [].
Proof. reflexivity. Qed.

Example wrongAmount_errors :
  errors (validateInvoice 0 wrongAmount) = [MsgLineItemCalc 1 2 10 20 25].
Proof. vm_compute. reflexivity. Qed.

(** One unit at 1.02 with an amount of 1.01: the rounded amounts are
    one cent apart, and their difference in double precision,
    0.010000000000000009, is above the 0.01 of the source. *)
Example oneCentGap_errors :
  errors (validateInvoice 0 oneCentGap)
  = [MsgLineItemCalc 1 1 (fl (102 # 100)) (fl (102 # 100)) (fl (101 # 100))]
  /\ fsub (fl (102 # 100)) (fl (101 # 100)) == 5764607523034240 # 576460752303423488
  /\ fl (1 # 100) == 5764607523034235 # 576460752303423488.
Proof. vm_compute. repeat split. Qed.

(** Two cents against one: the same gap of one cent, computed as
    exactly the 0.01 of the source, is not reported. *)
Example oneCentGap_small_errors :
  errors (validateInvoice 0
            (itemsInvoice [item (Val 1) (Val (fl (2 # 100))) (Val (fl (1 # 100)))]
               (Val (fl (1 # 100))))) = [].
Proof. vm_compute. reflexivity. Qed.

(** C8 as stated fails: an item whose amount is 0 differs from
    quantity x unitPrice by more than 0.01, and no error names it. *)
Lemma lineItem_zero_amount_not_reported :
  ~ (forall (now : Z) (invoice : ExtractedData) (items : list LineItem)
            (i : nat) (it : LineItem),
        lineItems invoice = Val items ->
        items !! i = Some it ->
        1 # 100 < Qabs (num (amount it) - num (quantity it) * num (unitPrice it)) ->
        exists q p e a,
          In (MsgLineItemCalc (i + 1) q p e a) (errors (validateInvoice now invoice))).
Proof.
  intro H.
  destruct (H 0%Z zeroAmount [item (Val 2) (Val 10) (Val 0)] 0%nat
              (item (Val 2) (Val 10) (Val 0)) eq_refl eq_refl)
    as (q & p & e & a & Hin).
  - reflexivity.
  - exact Hin.
Qed.

(** C8, amended.  For the line item at position i (counted from 0) the
    validation emits the error numbered i + 1, carrying the expected and
    the actual amount rounded to cents, exactly when quantity, unit
    price and amount are all present and non-zero and the difference
    of the two rounded amounts, computed in double precision, is above
    the literal 0.01; no other error carries that number.  Rounded
    amounts that are at most 0.01 apart are never reported, those that
    are 0.01 + 1e-17 or more apart always, and an item with a zero or
    missing quantity, unit price or amount is not checked. *)
Theorem lineItem_error_iff (now : Z) (invoice : ExtractedData)
        (items : list LineItem) (i : nat) (it : LineItem) :
  lineItems invoice = Val items ->
  items !! i = Some it ->
  let reported :=
    In (MsgLineItemCalc (i + 1) (num (quantity it)) (num (unitPrice it))
          (itemExpected it) (itemActual it))
       (errors (validateInvoice now invoice)) in
  (itemChecked it = true ->
   fl (1 # 100) < Qabs (fsub (itemExpected it) (itemActual it)) ->
   reported)
  /\ (forall q p e a,
       In (MsgLineItemCalc (i + 1) q p e a) (errors (validateInvoice now invoice)) ->
       itemChecked it = true
       /\ fl (1 # 100) < Qabs (fsub (itemExpected it) (itemActual it))
       /\ q = num (quantity it) /\ p = num (unitPrice it)
       /\ e = itemExpected it /\ a = itemActual it)
  /\ (itemChecked it = true ->
      (1 # 100) + (1 # 100000000000000000) <= Qabs (itemExpected it - itemActual it) ->
      reported)
  /\ (Qabs (itemExpected it - itemActual it) <= 1 # 100 -> ~ reported).
Proof.
  intros Hitems Hi. cbv zeta.
  assert (Hin : itemChecked it = true ->
                fl (1 # 100) < Qabs (fsub (itemExpected it) (itemActual it)) ->
                In (MsgLineItemCalc (i + 1) (num (quantity it)) (num (unitPrice it))
                      (itemExpected it) (itemActual it))
                   (errors (validateInvoice now invoice))).
  { intros Hc Hd. apply lineItemCalc_origin. exists items. split; [ exact Hitems | ].
    apply lineItemsLoop_errors. exists i, it. split; [ exact Hi | ].
    unfold lineItemErrors. apply In_pushIf. split; [ | reflexivity ].
    rewrite Hc. apply Qltb_lt. exact Hd. }
  assert (Hout : forall q p e a,
             In (MsgLineItemCalc (i + 1) q p e a) (errors (validateInvoice now invoice)) ->
             itemChecked it = true
             /\ fl (1 # 100) < Qabs (fsub (itemExpected it) (itemActual it))
             /\ q = num (quantity it) /\ p = num (unitPrice it)
             /\ e = itemExpected it /\ a = itemActual it).
  { intros q p e a H.
    apply lineItemCalc_origin in H as (items' & Hitems' & H).
    rewrite Hitems in Hitems'. inversion Hitems'; subst items'.
    apply lineItemsLoop_errors in H as (j & it' & Hj & H).
    unfold lineItemErrors in H. apply In_pushIf in H as [Hb Heq].
    inversion Heq as [[Hidx Hq Hp He Ha]].
    assert (j = i) by (simpl in Hidx; lia). subst j.
    rewrite Hi in Hj. inversion Hj; subst it'.
    apply andb_true_iff in Hb as [Hc Hd]. apply Qltb_lt in Hd.
    repeat split; assumption || reflexivity. }
  split; [ exact Hin | split; [ exact Hout | split ] ].
  - intros Hc Hd. apply Hin; [ exact Hc | ].
    apply fsub_apart with (c := (1 # 100) + (1 # 100000000000000000));
      [ exact Hd | vm_compute; reflexivity ].
  - intros Hd Hrep. apply Hout in Hrep as (_ & Hgap & _).
    pose proof (fsub_close _ _ _ Hd) as Hle. lra.
Qed.

Lemma lineItem_error_iff_witness :
  In (MsgLineItemCalc 1 2 10 (itemExpected (item (Val 2) (Val 10) (Val 25)))
        (itemActual (item (Val 2) (Val 10) (Val 25))))
     (errors (validateInvoice 0 wrongAmount)).
Proof.
  apply (proj1 (lineItem_error_iff 0 wrongAmount
                  [item (Val 2) (Val 10) (Val 25)] 0
                  (item (Val 2) (Val 10) (Val 25)) eq_refl eq_refl));
    vm_compute; reflexivity.
Defined.

(** ** Runs of the retry loop *)

Lemma addTrace_nil (s : State) : addTrace [] s = s.
Proof. destruct s; unfold addTrace; simpl. now rewrite app_nil_r. Qed.

Lemma addTrace_app (evs1 evs2 : list Event) (s : State) :
  addTrace evs2 (addTrace evs1 s) = addTrace (evs1 ++ evs2) s.
Proof. unfold addTrace; simpl. now rewrite app_assoc. Qed.

Lemma retryLoop_failure (cfg : Config) (env : Env) (remaining : nat) (a : Z)
      (last : Thrown) (e : JsError) (s : State) :
  attempt cfg env a = inl e ->
  retryLoop cfg env (S remaining) a last s
  = retryLoop cfg env remaining (a + 1)%Z (ThrownError e)
      (addTrace (failedAttempt cfg a) s).
Proof.
  intro H. simpl. unfold tryCatch, callExtraction, bind, emit, modify.
  unfold attempt in H. rewrite H. unfold throw, when, failedAttempt, delay, emit, modify, ret.
  destruct (a <? retryAttempts cfg)%Z; unfold addTrace; simpl.
  - now rewrite <- app_assoc.
  - reflexivity.
Qed.

Lemma retryLoop_success (cfg : Config) (env : Env) (remaining : nat) (a : Z)
      (last : Thrown) (d : ExtractedData) (s : State) :
  attempt cfg env a = inr d ->
  retryLoop cfg env (S remaining) a last s = (inr d, addTrace [EvExtract a] s).
Proof.
  intro H. simpl. unfold tryCatch, callExtraction, bind, emit, modify.
  unfold attempt in H. rewrite H. reflexivity.
Qed.

(** The loop does the same whatever the state it starts in, and it
    only appends to the trace. *)
Lemma retryLoop_uniform (cfg : Config) (env : Env) (remaining : nat) :
  forall (a : Z) (last : Thrown),
  exists r evs, forall s, retryLoop cfg env remaining a last s = (r, addTrace evs s).
Proof.
  induction remaining as [ | n IH ]; intros a last.
  - exists (inl last), []. intro s. simpl. unfold throw. now rewrite addTrace_nil.
  - destruct (attempt cfg env a) as [ e | d ] eqn:Ha.
    + destruct (IH (a + 1)%Z (ThrownError e)) as (r & evs & H).
      exists r, (failedAttempt cfg a ++ evs). intro s.
      rewrite (retryLoop_failure _ _ _ _ _ _ _ Ha), H. now rewrite addTrace_app.
    + exists (inr d), [EvExtract a]. intro s. now apply retryLoop_success.
Qed.

Lemma extractWithRetry_run (cfg : Config) (env : Env) (s : State) :
  extractWithRetry cfg env s
  = (extractionOutcome cfg env, addTrace (extractionEvents cfg env) s).
Proof.
  unfold extractionOutcome, extractionEvents, extractWithRetry.
  destruct (retryLoop_uniform cfg env (Z.to_nat (retryAttempts cfg)) 1%Z ThrownUndefined)
    as (r & evs & H).
  now rewrite !H.
Qed.

(** When the next [k] attempts fail, the loop reaches the iteration
    after them, with the last of their errors at hand. *)
Lemma retryLoop_failures (cfg : Config) (env : Env) (err : Z -> JsError) (k : nat) :
  forall (remaining : nat) (a : Z) (last : Thrown) (s : State),
    (forall j, (a <= j < a + Z.of_nat (S k))%Z -> attempt cfg env j = inl (err j)) ->
    retryLoop cfg env (S k + remaining) a last s
    = retryLoop cfg env remaining (a + Z.of_nat (S k))%Z
        (ThrownError (err (a + Z.of_nat k)%Z))
        (addTrace (failedAttempts cfg (S k) a) s).
Proof.
  induction k as [ | k IH ]; intros remaining a last s Hfail.
  - change (1 + remaining)%nat with (S remaining).
    rewrite (retryLoop_failure _ _ _ _ _ (err a)) by (apply Hfail; lia).
    simpl failedAttempts. rewrite app_nil_r. now rewrite Z.add_0_r.
  - change (S (S k) + remaining)%nat with (S (S k + remaining)).
    rewrite (retryLoop_failure _ _ _ _ _ (err a)) by (apply Hfail; lia).
    rewrite IH by (intros j Hj; apply Hfail; lia).
    rewrite addTrace_app.
    replace (a + 1 + Z.of_nat (S k))%Z with (a + Z.of_nat (S (S k)))%Z by lia.
    replace (a + 1 + Z.of_nat k)%Z with (a + Z.of_nat (S k))%Z by lia.
    reflexivity.
Qed.

(** ** Runs of [processInvoice] *)

Lemma tryBlock_success (cfg : Config) (env : Env) (invoiceId : string)
      (invoice : Invoice.t) (d : ExtractedData) (s : State) :
  store s !! invoiceId = Some invoice ->
  Invoice.id invoice = invoiceId ->
  document env = None ->
  extractionOutcome cfg env = inr d ->
  refusal env (savedRow env invoice d) = None ->
  let row := processedRow env invoice d in
  tryCatch (tryBlock cfg env invoiceId) (catchBlock env invoiceId) s
  = (inr row,
     mkState (<[invoiceId := row]> (store s)) (processingQueue s)
       (activeProcessing s) (running s)
       (trace s ++ extractionEvents cfg env
        ++ webhookEvents invoice
             (InvoiceProcessed invoiceId (Invoice.status row)
                (confidenceScore (Invoice.columns row))
                (Invoice.processingTimeMs row)))).
Proof.
  intros Hfound Hid Hdoc Hout Hdb. cbv zeta.
  unfold tryCatch, tryBlock, findByPk, bind, get, ret.
  cbv beta iota. rewrite Hfound, Hdoc.
  unfold save, setStore, modify. cbn [store processingQueue activeProcessing running trace].
  rewrite extractWithRetry_run, Hout.
  unfold saveExtraction. fold (savedRow env invoice d). rewrite Hdb.
  unfold savedRow, processedRow, webhookEvents, addTrace, sendWebhook, emit, modify,
    save, setStore, modify.
  cbn [store processingQueue activeProcessing running trace Invoice.id Invoice.webhookUrl
       Invoice.setStatus Invoice.setProcessingTimeMs Invoice.setWebhookSent
       updateInvoiceWithExtraction Invoice.setExtraction].
  rewrite Hid.
  destruct (truthyS (Invoice.webhookUrl invoice)) eqn:Hurl.
  - cbn [store processingQueue activeProcessing running trace Invoice.id
         Invoice.status Invoice.columns Invoice.processingTimeMs].
    rewrite !insert_insert_eq, <- app_assoc. reflexivity.
  - cbn [store processingQueue activeProcessing running trace].
    rewrite !insert_insert_eq, app_nil_r. reflexivity.
Qed.

(** The database refuses the extracted row: the [catch] block reads
    the row again and records the failure. *)
Lemma tryBlock_refused (cfg : Config) (env : Env) (invoiceId : string)
      (invoice : Invoice.t) (d : ExtractedData) (e : JsError) (s : State) :
  store s !! invoiceId = Some invoice ->
  Invoice.id invoice = invoiceId ->
  document env = None ->
  extractionOutcome cfg env = inr d ->
  refusal env (savedRow env invoice d) = Some e ->
  let row := failedRow env invoice e in
  tryCatch (tryBlock cfg env invoiceId) (catchBlock env invoiceId) s
  = (inl (ThrownError e),
     mkState (<[invoiceId := row]> (store s)) (processingQueue s)
       (activeProcessing s) (running s)
       (trace s ++ extractionEvents cfg env
        ++ webhookEvents invoice (InvoiceFailed invoiceId (errMessage e)))).
Proof.
  intros Hfound Hid Hdoc Hout Hdb. cbv zeta.
  unfold tryCatch, tryBlock, findByPk, bind, get, ret.
  cbv beta iota. rewrite Hfound, Hdoc.
  unfold save, setStore, modify. cbn [store processingQueue activeProcessing running trace].
  rewrite extractWithRetry_run, Hout.
  unfold saveExtraction. fold (savedRow env invoice d). rewrite Hdb.
  unfold throw, catchBlock, findByPk, bind, get, ret, addTrace.
  cbn [store processingQueue activeProcessing running trace Invoice.id Invoice.setStatus].
  rewrite Hid, lookup_insert_eq.
  unfold save, setStore, modify, when, sendWebhook, emit, modify, throw, ret,
    failedRow, webhookEvents.
  cbn [store processingQueue activeProcessing running trace Invoice.id Invoice.webhookUrl
       Invoice.setStatus Invoice.setProcessingTimeMs Invoice.setLastError
       Invoice.setRetryCount Invoice.retryCount].
  rewrite Hid.
  destruct (truthyS (Invoice.webhookUrl invoice)) eqn:Hurl.
  - cbn [store processingQueue activeProcessing running trace].
    rewrite !insert_insert_eq, <- app_assoc. reflexivity.
  - cbn [store processingQueue activeProcessing running trace].
    rewrite !insert_insert_eq, app_nil_r. reflexivity.
Qed.

Lemma tryBlock_failure (cfg : Config) (env : Env) (invoiceId : string)
      (invoice : Invoice.t) (e : JsError) (s : State) :
  store s !! invoiceId = Some invoice ->
  Invoice.id invoice = invoiceId ->
  document env = None ->
  extractionOutcome cfg env = inl (ThrownError e) ->
  let row := failedRow env invoice e in
  tryCatch (tryBlock cfg env invoiceId) (catchBlock env invoiceId) s
  = (inl (ThrownError e),
     mkState (<[invoiceId := row]> (store s)) (processingQueue s)
       (activeProcessing s) (running s)
       (trace s ++ extractionEvents cfg env
        ++ webhookEvents invoice (InvoiceFailed invoiceId (errMessage e)))).
Proof.
  intros Hfound Hid Hdoc Hout. cbv zeta.
  unfold tryCatch, tryBlock, findByPk, bind, get, ret.
  cbv beta iota. rewrite Hfound, Hdoc.
  unfold save, setStore, modify. cbn [store processingQueue activeProcessing running trace].
  rewrite extractWithRetry_run, Hout.
  unfold catchBlock, findByPk, bind, get, ret, addTrace.
  cbn [store processingQueue activeProcessing running trace Invoice.id Invoice.setStatus].
  rewrite Hid, lookup_insert_eq.
  unfold save, setStore, modify, when, sendWebhook, emit, modify, throw, ret,
    failedRow, webhookEvents.
  cbn [store processingQueue activeProcessing running trace Invoice.id Invoice.webhookUrl
       Invoice.setStatus Invoice.setProcessingTimeMs Invoice.setLastError
       Invoice.setRetryCount Invoice.retryCount].
  rewrite Hid.
  destruct (truthyS (Invoice.webhookUrl invoice)) eqn:Hurl.
  - cbn [store processingQueue activeProcessing running trace].
    rewrite !insert_insert_eq, <- app_assoc. reflexivity.
  - cbn [store processingQueue activeProcessing running trace].
    rewrite !insert_insert_eq, app_nil_r. reflexivity.
Qed.

Lemma finallyBlock_frame (cfg : Config) (invoiceId : string) (s : State) :
  store (snd (finallyBlock cfg invoiceId s)) = store s
  /\ trace (snd (finallyBlock cfg invoiceId s)) = trace s.
Proof.
  unfold finallyBlock, processQueue, bind, modify. cbv beta iota.
  cbn [store processingQueue activeProcessing running trace snd].
  destruct (drain cfg (processingQueue s) (activeProcessing s - 1)
              (removeFirst invoiceId (running s))) as [[q a] r].
  now split.
Qed.

(** [finally] leaves the table and the trace as the [try] and [catch]
    blocks left them. *)
Lemma settle_frame (cfg : Config) (env : Env) (invoiceId : string)
      (s s1 : State) (r : Thrown + Invoice.t) :
  tryCatch (tryBlock cfg env invoiceId) (catchBlock env invoiceId) s = (r, s1) ->
  fst (settle cfg env invoiceId s) = r
  /\ store (snd (settle cfg env invoiceId s)) = store s1
  /\ trace (snd (settle cfg env invoiceId s)) = trace s1.
Proof.
  intro H. unfold settle. rewrite H. cbn [fst snd].
  split; [ reflexivity | apply finallyBlock_frame ].
Qed.

(** A whole call whose extraction returns [d], a row that the
    database accepts. *)
Lemma processInvoice_success (cfg : Config) (env : Env) (invoiceId : string)
      (invoice : Invoice.t) (d : ExtractedData) (s : State) :
  store s !! invoiceId = Some invoice ->
  Invoice.id invoice = invoiceId ->
  document env = None ->
  extractionOutcome cfg env = inr d ->
  refusal env (savedRow env invoice d) = None ->
  let row := processedRow env invoice d in
  let s' := snd (processInvoice cfg env invoiceId s) in
  fst (processInvoice cfg env invoiceId s) = inr row
  /\ store s' = <[invoiceId := row]> (store s)
  /\ trace s' = trace s ++ extractionEvents cfg env
                ++ webhookEvents invoice
                     (InvoiceProcessed invoiceId (Invoice.status row)
                        (confidenceScore (Invoice.columns row))
                        (Invoice.processingTimeMs row)).
Proof.
  intros Hfound Hid Hdoc Hout Hdb. cbv zeta. unfold processInvoice.
  pose proof (tryBlock_success cfg env invoiceId invoice d (snd (enter invoiceId s))
                Hfound Hid Hdoc Hout Hdb) as H.
  cbv zeta in H. apply settle_frame in H. exact H.
Qed.

(** A whole call whose extraction returns [d], a row that the
    database refuses with the error [e]. *)
Lemma processInvoice_refused (cfg : Config) (env : Env) (invoiceId : string)
      (invoice : Invoice.t) (d : ExtractedData) (e : JsError) (s : State) :
  store s !! invoiceId = Some invoice ->
  Invoice.id invoice = invoiceId ->
  document env = None ->
  extractionOutcome cfg env = inr d ->
  refusal env (savedRow env invoice d) = Some e ->
  let row := failedRow env invoice e in
  let s' := snd (processInvoice cfg env invoiceId s) in
  fst (processInvoice cfg env invoiceId s) = inl (ThrownError e)
  /\ store s' = <[invoiceId := row]> (store s)
  /\ trace s' = trace s ++ extractionEvents cfg env
                ++ webhookEvents invoice (InvoiceFailed invoiceId (errMessage e)).
Proof.
  intros Hfound Hid Hdoc Hout Hdb. cbv zeta. unfold processInvoice.
  pose proof (tryBlock_refused cfg env invoiceId invoice d e (snd (enter invoiceId s))
                Hfound Hid Hdoc Hout Hdb) as H.
  cbv zeta in H. apply settle_frame in H. exact H.
Qed.

(** A whole call whose extraction throws the error [e]. *)
Lemma processInvoice_failure (cfg : Config) (env : Env) (invoiceId : string)
      (invoice : Invoice.t) (e : JsError) (s : State) :
  store s !! invoiceId = Some invoice ->
  Invoice.id invoice = invoiceId ->
  document env = None ->
  extractionOutcome cfg env = inl (ThrownError e) ->
  let row := failedRow env invoice e in
  let s' := snd (processInvoice cfg env invoiceId s) in
  fst (processInvoice cfg env invoiceId s) = inl (ThrownError e)
  /\ store s' = <[invoiceId := row]> (store s)
  /\ trace s' = trace s ++ extractionEvents cfg env
                ++ webhookEvents invoice (InvoiceFailed invoiceId (errMessage e)).
Proof.
  intros Hfound Hid Hdoc Hout. cbv zeta. unfold processInvoice.
  pose proof (tryBlock_failure cfg env invoiceId invoice e (snd (enter invoiceId s))
                Hfound Hid Hdoc Hout) as H.
  cbv zeta in H. apply settle_frame in H. exact H.
Qed.

(** ** The final status of a processed invoice *)

Example threeWarnings_completed :
  Invoice.status <$> (store (snd (processInvoice liveConfig
                                    (constEnv (ApiReturns threeWarnings))
                                    "inv-1" oneInvoice)) !! "inv-1"%string)
  = Some completed.
Proof. vm_compute. reflexivity. Qed.

Lemma finalStatus_cases (v : ValidationResult) :
  (finalStatus v = review_required <-> errors v <> [])
  /\ (finalStatus v = completed <-> errors v = []).
Proof.
  unfold finalStatus. destruct (errors v); simpl; repeat split;
    intros; congruence.
Qed.

Lemma processedRow_status (env : Env) (invoice : Invoice.t) (d : ExtractedData) :
  Invoice.status (processedRow env invoice d)
  = finalStatus (validateInvoice (validatedAt env) d)
  /\ Invoice.requiresManualReview (processedRow env invoice d)
     = requiresManualReview (validateInvoice (validatedAt env) d).
Proof.
  unfold processedRow. destruct (truthyS (Invoice.webhookUrl invoice)); now split.
Qed.

(** C1 as stated fails: an extraction with no validation error and
    three warnings, written to a row that the database accepts,
    leaves the invoice [completed]. *)
Lemma three_warnings_not_review_required :
  ~ (forall (cfg : Config) (env : Env) (invoiceId : string) (invoice : Invoice.t)
            (d : ExtractedData) (s : State),
        store s !! invoiceId = Some invoice ->
        Invoice.id invoice = invoiceId ->
        document env = None ->
        extractionOutcome cfg env = inr d ->
        refusal env (savedRow env invoice d) = None ->
        let v := validateInvoice (validatedAt env) d in
        exists row,
          store (snd (processInvoice cfg env invoiceId s)) !! invoiceId = Some row
          /\ (Invoice.status row = review_required
              <-> errors v <> [] \/ (2 < length (warnings v))%nat)).
Proof.
  intro H.
  destruct (H liveConfig (constEnv (ApiReturns threeWarnings)) "inv-1"%string
              (Invoice.create "inv-1" "uploads/a.pdf" Null) threeWarnings oneInvoice)
    as (row & Hrow & Hiff); try reflexivity.
  assert (Hst : Invoice.status row = completed).
  { pose proof threeWarnings_completed as Hc. rewrite Hrow in Hc.
    simpl in Hc. now inversion Hc. }
  assert (Hrev : Invoice.status row = review_required).
  { apply Hiff. right. vm_compute. lia. }
  congruence.
Qed.

(** An extracted date that does not parse is refused by the database. *)
Lemma invalid_date_refused (env : Env) (invoice : Invoice.t) (d : ExtractedData) :
  hasInvalidDate d = true ->
  refusal env (savedRow env invoice d) = Some (dbError env (savedRow env invoice d)).
Proof.
  intro H. unfold refusal.
  replace (hasInvalidDate (Invoice.columns (savedRow env invoice d))) with true;
    [ reflexivity | ].
  symmetry. unfold savedRow, hasInvalidDate in *.
  cbn [Invoice.columns Invoice.setStatus Invoice.setProcessingTimeMs
       updateInvoiceWithExtraction Invoice.setExtraction invoiceDate dueDate].
  destruct (invoiceDate d), (dueDate d); try discriminate H; cbn [assignDate];
    try reflexivity;
    destruct (invoiceDate (Invoice.columns invoice));
    try destruct (dueDate (Invoice.columns invoice)); reflexivity.
Qed.

Lemma failedRow_fields (env : Env) (invoice : Invoice.t) (e : JsError) :
  Invoice.status (failedRow env invoice e) = failed
  /\ Invoice.lastError (failedRow env invoice e) = Some (errMessage e)
  /\ Invoice.retryCount (failedRow env invoice e) = (Invoice.retryCount invoice + 1)%Z.
Proof. now repeat split. Qed.

(** C1, amended.  When extraction succeeds and the database accepts
    the extracted row, the persisted status is [review_required]
    exactly when validation produced at least one error, and
    [completed] otherwise; the count of warnings decides the persisted
    [requiresManualReview] flag only, which is the review decision of
    the validation engine.  When the database refuses the row, as it
    always does for an extracted date that does not parse, the job
    ends [failed], with the database error as last error and one more
    retry counted. *)
Theorem final_status_by_errors (cfg : Config) (env : Env) (invoiceId : string)
        (invoice : Invoice.t) (d : ExtractedData) (s : State) :
  store s !! invoiceId = Some invoice ->
  Invoice.id invoice = invoiceId ->
  document env = None ->
  extractionOutcome cfg env = inr d ->
  let v := validateInvoice (validatedAt env) d in
  exists row,
    store (snd (processInvoice cfg env invoiceId s)) !! invoiceId = Some row
    /\ (refusal env (savedRow env invoice d) = None ->
        (Invoice.status row = review_required <-> errors v <> [])
        /\ (Invoice.status row = completed <-> errors v = [])
        /\ Invoice.requiresManualReview row = requiresManualReview v)
    /\ (forall e,
          refusal env (savedRow env invoice d) = Some e ->
          Invoice.status row = failed
          /\ Invoice.lastError row = Some (errMessage e)
          /\ Invoice.retryCount row = (Invoice.retryCount invoice + 1)%Z)
    /\ (hasInvalidDate d = true -> Invoice.status row = failed).
Proof.
  intros Hfound Hid Hdoc Hout v.
  destruct (refusal env (savedRow env invoice d)) as [e | ] eqn:Hdb.
  - destruct (processInvoice_refused cfg env invoiceId invoice d e s
                Hfound Hid Hdoc Hout Hdb) as (_ & Hstore & _).
    exists (failedRow env invoice e). split; [ | split; [ | split ] ].
    + rewrite Hstore. apply lookup_insert_eq.
    + discriminate.
    + intros e' [= <-]. apply failedRow_fields.
    + intros _. apply failedRow_fields.
  - destruct (processInvoice_success cfg env invoiceId invoice d s
                Hfound Hid Hdoc Hout Hdb) as (_ & Hstore & _).
    exists (processedRow env invoice d). split; [ | split; [ | split ] ].
    + rewrite Hstore. apply lookup_insert_eq.
    + intros _. destruct (processedRow_status env invoice d) as [Hs Hr].
      rewrite Hs, Hr. destruct (finalStatus_cases v) as [H1 H2].
      repeat split; try apply H1; try apply H2.
    + discriminate.
    + intro Hinv. rewrite (invalid_date_refused env invoice d Hinv) in Hdb.
      discriminate Hdb.
Qed.

Lemma final_status_by_errors_witness :
  exists row,
    store (snd (processInvoice liveConfig (constEnv (ApiReturns wrongAmount))
                  "inv-1" oneInvoice)) !! "inv-1"%string = Some row
    /\ (Invoice.status row = review_required
        <-> errors (validateInvoice 0 wrongAmount) <> []).
Proof.
  destruct (final_status_by_errors liveConfig (constEnv (ApiReturns wrongAmount))
              "inv-1" (Invoice.create "inv-1" "uploads/a.pdf" Null) wrongAmount
              oneInvoice eq_refl eq_refl eq_refl eq_refl)
    as (row & Hrow & Hok & _).
  exists row. split; [ exact Hrow | ]. apply (Hok eq_refl).
Defined.

(** An invoice date that does not parse: validation reports it, and
    the job does not reach [review_required]; it ends [failed]. *)
Example unparseableDate_failed :
  errors (validateInvoice 0 unparseableDate) = [MsgInvalidInvoiceDate "not a date"]
  /\ Invoice.status <$> (store (snd (processInvoice liveConfig
                                      (constEnv (ApiReturns unparseableDate))
                                      "inv-1" oneInvoice)) !! "inv-1"%string)
     = Some failed.
Proof. vm_compute. split; reflexivity. Qed.

(** ** Exhausted retries *)

Lemma extractCalls_app (l1 l2 : list Event) :
  extractCalls (l1 ++ l2) = extractCalls l1 ++ extractCalls l2.
Proof. apply flat_map_app. Qed.

Lemma delaysOf_app (l1 l2 : list Event) :
  delaysOf (l1 ++ l2) = delaysOf l1 ++ delaysOf l2.
Proof. apply flat_map_app. Qed.

Lemma extractCalls_failedAttempts (cfg : Config) (k : nat) :
  forall a, extractCalls (failedAttempts cfg k a) = seqZ a (Z.of_nat k).
Proof.
  induction k as [ | k IH ]; intro a.
  - reflexivity.
  - rewrite seqZ_cons by lia.
    replace (Z.pred (Z.of_nat (S k))) with (Z.of_nat k) by lia.
    cbn [failedAttempts]. rewrite extractCalls_app, IH.
    unfold failedAttempt. destruct (a <? retryAttempts cfg)%Z; reflexivity.
Qed.

(** Every failed attempt below the limit is followed by its delay. *)
Lemma delaysOf_failedAttempts_below (cfg : Config) (k : nat) :
  forall a, (a + Z.of_nat k <= retryAttempts cfg)%Z ->
    delaysOf (failedAttempts cfg k a)
    = map (fun n => retryDelayMs cfg * n)%Z (seqZ a (Z.of_nat k)).
Proof.
  induction k as [ | k IH ]; intros a Ha.
  - reflexivity.
  - rewrite seqZ_cons by lia.
    replace (Z.pred (Z.of_nat (S k))) with (Z.of_nat k) by lia.
    cbn [failedAttempts map]. rewrite delaysOf_app, IH by lia.
    unfold failedAttempt.
    destruct (a <? retryAttempts cfg)%Z eqn:E; [ reflexivity | ].
    apply Z.ltb_ge in E. lia.
Qed.

Lemma failedAttempts_snoc (cfg : Config) (k : nat) :
  forall a, failedAttempts cfg (S k) a
            = failedAttempts cfg k a ++ failedAttempt cfg (a + Z.of_nat k)%Z.
Proof.
  induction k as [ | k IH ]; intro a.
  - cbn [failedAttempts]. rewrite app_nil_r, Z.add_0_r. reflexivity.
  - change (failedAttempts cfg (S (S k)) a)
      with (failedAttempt cfg a ++ failedAttempts cfg (S k) (a + 1)%Z).
    rewrite IH. cbn [failedAttempts]. rewrite <- app_assoc.
    replace (a + 1 + Z.of_nat k)%Z with (a + Z.of_nat (S k))%Z by lia.
    reflexivity.
Qed.

(** The last of [retryAttempts] failed attempts is not followed by a
    delay. *)
Lemma delaysOf_all_failed (cfg : Config) :
  (1 <= retryAttempts cfg)%Z ->
  delaysOf (failedAttempts cfg (Z.to_nat (retryAttempts cfg)) 1)
  = map (fun n => retryDelayMs cfg * n)%Z (seqZ 1 (retryAttempts cfg - 1)).
Proof.
  intro HN.
  destruct (Z.to_nat (retryAttempts cfg)) as [ | k ] eqn:E; [ lia | ].
  rewrite failedAttempts_snoc, delaysOf_app, delaysOf_failedAttempts_below by lia.
  replace (retryAttempts cfg - 1)%Z with (Z.of_nat k) by lia.
  unfold failedAttempt.
  destruct (1 + Z.of_nat k <? retryAttempts cfg)%Z eqn:E'.
  - apply Z.ltb_lt in E'. lia.
  - simpl. now rewrite app_nil_r.
Qed.

(** When every attempt fails, [extractWithRetry] throws the error of
    the last one after [retryAttempts] iterations. *)
Lemma extractWithRetry_all_failed (cfg : Config) (env : Env) (err : Z -> JsError) :
  (1 <= retryAttempts cfg)%Z ->
  (forall a, (1 <= a <= retryAttempts cfg)%Z -> attempt cfg env a = inl (err a)) ->
  extractionOutcome cfg env = inl (ThrownError (err (retryAttempts cfg)))
  /\ extractionEvents cfg env = failedAttempts cfg (Z.to_nat (retryAttempts cfg)) 1.
Proof.
  intros HN Hfail. unfold extractionOutcome, extractionEvents, extractWithRetry.
  destruct (Z.to_nat (retryAttempts cfg)) as [ | k ] eqn:E; [ lia | ].
  replace (S k) with (S k + 0)%nat by lia.
  rewrite (retryLoop_failures cfg env err k 0 1 ThrownUndefined (init ∅))
    by (intros j Hj; apply Hfail; lia).
  cbn [retryLoop]. unfold throw. cbn [fst snd addTrace trace init].
  replace (1 + Z.of_nat k)%Z with (retryAttempts cfg) by lia.
  replace (S k + 0)%nat with (S k) by lia.
  now split.
Qed.

(** C3.  When every extraction attempt of an admitted job fails, the
    run makes exactly [retryAttempts] extraction calls (attempts 1 to
    [retryAttempts]), awaits the delay attempt x [retryDelayMs] after
    each failed attempt but the last, and leaves the job [failed] with
    the message of the last error as [lastError] and its retry count
    incremented. *)
Theorem failing_extraction_exhausts_retries (cfg : Config) (env : Env)
        (invoiceId : string) (invoice : Invoice.t) (s : State) (err : Z -> JsError) :
  (1 <= retryAttempts cfg)%Z ->
  store s !! invoiceId = Some invoice ->
  Invoice.id invoice = invoiceId ->
  document env = None ->
  (forall a, (1 <= a <= retryAttempts cfg)%Z -> attempt cfg env a = inl (err a)) ->
  let s' := snd (processInvoice cfg env invoiceId s) in
  let lastMessage := errMessage (err (retryAttempts cfg)) in
  trace s' = trace s ++ failedAttempts cfg (Z.to_nat (retryAttempts cfg)) 1
             ++ webhookEvents invoice (InvoiceFailed invoiceId lastMessage)
  /\ extractCalls (trace s') = extractCalls (trace s) ++ seqZ 1 (retryAttempts cfg)
  /\ delaysOf (trace s')
     = delaysOf (trace s)
       ++ map (fun n => retryDelayMs cfg * n)%Z (seqZ 1 (retryAttempts cfg - 1))
  /\ exists row,
       store s' !! invoiceId = Some row
       /\ Invoice.status row = failed
       /\ Invoice.lastError row = Some lastMessage
       /\ Invoice.retryCount row = (Invoice.retryCount invoice + 1)%Z.
Proof.
  intros HN Hfound Hid Hdoc Hfail. cbv zeta.
  destruct (extractWithRetry_all_failed cfg env err HN Hfail) as [Hout Hevs].
  destruct (processInvoice_failure cfg env invoiceId invoice _ s Hfound Hid Hdoc Hout)
    as (_ & Hstore & Htrace).
  rewrite Hevs in Htrace. rewrite Htrace, Hstore.
  assert (Hhook : forall p, extractCalls (webhookEvents invoice p) = []
                            /\ delaysOf (webhookEvents invoice p) = []).
  { intro p. unfold webhookEvents.
    destruct (truthyS (Invoice.webhookUrl invoice)); now split. }
  repeat split.
  - rewrite !extractCalls_app, extractCalls_failedAttempts.
    rewrite (proj1 (Hhook _)), app_nil_r, Z2Nat.id by lia. reflexivity.
  - rewrite !delaysOf_app, delaysOf_all_failed by exact HN.
    rewrite (proj2 (Hhook _)), app_nil_r. reflexivity.
  - exists (failedRow env invoice (err (retryAttempts cfg))).
    split; [ apply lookup_insert_eq | ]. now repeat split.
Qed.

Lemma failing_extraction_exhausts_retries_witness :
  let s' := snd (processInvoice liveConfig (constEnv (ApiRejects timeoutError))
                   "inv-1" oneInvoice) in
  trace s' = [EvExtract 1; EvDelay 1000; EvExtract 2; EvDelay 2000; EvExtract 3]
  /\ extractCalls (trace s') = [1; 2; 3]%Z
  /\ delaysOf (trace s') = [1000; 2000]%Z
  /\ exists row,
       store s' !! "inv-1"%string = Some row
       /\ Invoice.status row = failed
       /\ Invoice.lastError row = Some "Request timed out."%string
       /\ Invoice.retryCount row = 1%Z.
Proof.
  apply (failing_extraction_exhausts_retries liveConfig
           (constEnv (ApiRejects timeoutError)) "inv-1"
           (Invoice.create "inv-1" "uploads/a.pdf" Null) oneInvoice
           (fun _ => timeoutError)).
  - vm_compute. discriminate.
  - reflexivity.
  - reflexivity.
  - reflexivity.
  - intros a _. reflexivity.
Defined.

(** ** Malformed extraction output *)

Example malformedThenValid_run :
  let s' := snd (processInvoice liveConfig malformedThenValid "inv-1" oneInvoice) in
  trace s' = [EvExtract 1; EvDelay 1000; EvExtract 2]
  /\ Invoice.status <$> (store s' !! "inv-1"%string) = Some completed.
Proof. vm_compute. split; reflexivity. Qed.

(** C4 as stated fails: after a malformed response the loop goes on to
    the next attempt, and the job is not failed when that one
    succeeds. *)
Lemma malformed_output_does_not_end_loop :
  ~ (forall (cfg : Config) (env : Env) (invoiceId : string) (invoice : Invoice.t)
            (db : gmap string Invoice.t) (k : Z) (e : JsError),
        db !! invoiceId = Some invoice ->
        Invoice.id invoice = invoiceId ->
        document env = None ->
        api env k = ApiMalformed e ->
        attempt cfg env k = inl e ->
        let s' := snd (processInvoice cfg env invoiceId (init db)) in
        In (EvExtract k) (trace s') ->
        ~ In (EvExtract (k + 1)) (trace s')
        /\ Invoice.status <$> (store s' !! invoiceId) = Some failed).
Proof.
  intro H.
  destruct (H liveConfig malformedThenValid "inv-1"%string
              (Invoice.create "inv-1" "uploads/a.pdf" Null)
              {[ "inv-1"%string := Invoice.create "inv-1" "uploads/a.pdf" Null ]}
              1%Z syntaxError) as [Hno _]; try reflexivity.
  - vm_compute. tauto.
  - apply Hno. vm_compute. tauto.
Qed.

(** A parse error whose message contains 401 is taken for an
    authentication failure: the first attempt returns generated data,
    and the job is completed. *)
Example malformedAuthLike_run :
  let s' := snd (processInvoice liveConfig malformedAuthLike "inv-1" oneInvoice) in
  trace s' = [EvExtract 1]
  /\ Invoice.status <$> (store s' !! "inv-1"%string) = Some completed.
Proof. vm_compute. split; reflexivity. Qed.

(** What an attempt does with a malformed response. *)
Lemma attempt_malformed (cfg : Config) (env : Env) (k : Z) (e : JsError) :
  keyNotConfigured cfg = false ->
  api env k = ApiMalformed e ->
  attempt cfg env k
  = if looksLikeAuthFailure e
    then inr (generateMockInvoiceData (random env) (clock env) (clock' env))
    else inl e.
Proof.
  intros Hkey Hapi. unfold attempt, extractInvoiceData. now rewrite Hkey, Hapi.
Qed.

(** The loop stops at the first attempt that returns data. *)
Lemma extractWithRetry_stops (cfg : Config) (env : Env)
      (err : Z -> JsError) (k : Z) (d : ExtractedData) :
  (0 <= k < retryAttempts cfg)%Z ->
  (forall a, (1 <= a <= k)%Z -> attempt cfg env a = inl (err a)) ->
  attempt cfg env (k + 1)%Z = inr d ->
  extractionOutcome cfg env = inr d
  /\ extractionEvents cfg env
     = failedAttempts cfg (Z.to_nat k) 1 ++ [EvExtract (k + 1)%Z].
Proof.
  intros Hk Hfail Hok.
  assert (Hrun : extractWithRetry cfg env (init ∅)
                 = (inr d, addTrace (failedAttempts cfg (Z.to_nat k) 1
                                     ++ [EvExtract (k + 1)%Z]) (init ∅))).
  { unfold extractWithRetry.
    destruct (Z.to_nat k) as [ | k' ] eqn:Ek.
    - assert (k = 0%Z) by lia. subst k.
      destruct (Z.to_nat (retryAttempts cfg)) as [ | r ] eqn:Er; [ lia | ].
      now rewrite (retryLoop_success _ _ _ _ _ _ _ Hok).
    - replace (Z.to_nat (retryAttempts cfg))
        with (S k' + S (Z.to_nat (retryAttempts cfg - k - 1)))%nat by lia.
      rewrite (retryLoop_failures cfg env err k' _ 1 ThrownUndefined (init ∅))
        by (intros j Hj; apply Hfail; lia).
      replace (1 + Z.of_nat (S k'))%Z with (k + 1)%Z by lia.
      rewrite (retryLoop_success _ _ _ _ _ _ _ Hok).
      now rewrite addTrace_app. }
  unfold extractionOutcome, extractionEvents. rewrite Hrun.
  cbn [fst snd addTrace trace init app]. now split.
Qed.

(** When the loop throws, every attempt has failed. *)
Lemma retryLoop_throws (cfg : Config) (env : Env) (remaining : nat) :
  forall (a : Z) (last t : Thrown) (s : State),
    fst (retryLoop cfg env remaining a last s) = inl t ->
    forall j, (a <= j < a + Z.of_nat remaining)%Z ->
              exists e, attempt cfg env j = inl e.
Proof.
  induction remaining as [ | n IH ]; intros a last t s H j Hj; [ lia | ].
  destruct (attempt cfg env a) as [ e | d ] eqn:Ha.
  - rewrite (retryLoop_failure _ _ _ _ _ _ _ Ha) in H.
    destruct (Z.eq_dec j a) as [-> | Hne]; [ eauto | ].
    apply (IH _ _ _ _ H). lia.
  - rewrite (retryLoop_success _ _ _ _ _ _ _ Ha) in H. discriminate H.
Qed.

(** After a failed attempt below the limit the loop awaits the delay
    and makes the next attempt. *)
Lemma extractWithRetry_goes_on (cfg : Config) (env : Env)
      (err : Z -> JsError) (k : Z) :
  (1 <= k < retryAttempts cfg)%Z ->
  (forall a, (1 <= a <= k)%Z -> attempt cfg env a = inl (err a)) ->
  exists rest,
    extractionEvents cfg env
    = failedAttempts cfg (Z.to_nat (k - 1)) 1
      ++ [EvExtract k; EvDelay (retryDelayMs cfg * k)%Z; EvExtract (k + 1)%Z]
      ++ rest.
Proof.
  intros Hk Hfail.
  unfold extractionEvents, extractWithRetry.
  destruct (Z.to_nat k) as [ | k' ] eqn:Ek; [ lia | ].
  replace (Z.to_nat (retryAttempts cfg))
    with (S k' + S (Z.to_nat (retryAttempts cfg - k - 1)))%nat by lia.
  rewrite (retryLoop_failures cfg env err k' _ 1 ThrownUndefined (init ∅))
    by (intros j Hj; apply Hfail; lia).
  rewrite failedAttempts_snoc.
  replace (Z.to_nat (k - 1)) with k' by lia.
  replace (1 + Z.of_nat k')%Z with k by lia.
  replace (1 + Z.of_nat (S k'))%Z with (k + 1)%Z by lia.
  assert (Hdelay : failedAttempt cfg k = [EvExtract k; EvDelay (retryDelayMs cfg * k)%Z]).
  { unfold failedAttempt. destruct (k <? retryAttempts cfg)%Z eqn:E; [ reflexivity | ].
    apply Z.ltb_ge in E. lia. }
  rewrite Hdelay.
  destruct (attempt cfg env (k + 1)) as [ e' | d ] eqn:Ha.
  - rewrite (retryLoop_failure _ _ _ _ _ _ _ Ha).
    destruct (retryLoop_uniform cfg env (Z.to_nat (retryAttempts cfg - k - 1))
                (k + 1 + 1)%Z (ThrownError e'))
      as (res & evs & Hrun).
    rewrite Hrun. cbn [snd addTrace trace init app]. unfold failedAttempt.
    eexists. rewrite <- !app_assoc. cbn [app]. reflexivity.
  - rewrite (retryLoop_success _ _ _ _ _ _ _ Ha).
    cbn [snd addTrace trace init app].
    exists []. rewrite <- !app_assoc. reflexivity.
Qed.

Lemma finalStatus_not_failed (v : ValidationResult) : finalStatus v <> failed.
Proof. unfold finalStatus. now destruct (Nat.ltb 0 _). Qed.

(** C4, amended.  Attempt k of an admitted job gets a response that
    is not JSON, after k - 1 failed attempts, with the API key
    configured.  When the parse error looks like an authentication
    failure (its message contains 401, say), the attempt returns
    generated data: the loop ends without a further attempt and the
    job is not failed.  Otherwise the attempt fails with the parse
    error, like any other failed attempt: below [retryAttempts] the
    loop awaits k x [retryDelayMs] and makes attempt k + 1, and when
    that attempt returns data the job gets the status that the
    validation of the data decides; at k = [retryAttempts] no
    further attempt is made and the job is failed with the message
    of the parse error.  In every case the job is failed only when
    all [retryAttempts] attempts have failed or the database has
    refused the extracted row. *)
Theorem malformed_output_is_retried (cfg : Config) (env : Env)
        (invoiceId : string) (invoice : Invoice.t) (s : State)
        (err : Z -> JsError) (k : Z) (e : JsError) :
  keyNotConfigured cfg = false ->
  (1 <= k <= retryAttempts cfg)%Z ->
  store s !! invoiceId = Some invoice ->
  Invoice.id invoice = invoiceId ->
  document env = None ->
  (forall a, (1 <= a < k)%Z -> attempt cfg env a = inl (err a)) ->
  api env k = ApiMalformed e ->
  let s' := snd (processInvoice cfg env invoiceId s) in
  let mock := generateMockInvoiceData (random env) (clock env) (clock' env) in
  let accepted d := refusal env (savedRow env invoice d) = None in
  let decided d :=
    exists row,
      store s' !! invoiceId = Some row
      /\ Invoice.status row = finalStatus (validateInvoice (validatedAt env) d)
      /\ Invoice.status row <> failed in
  (looksLikeAuthFailure e = true ->
   attempt cfg env k = inr mock
   /\ extractionEvents cfg env
      = failedAttempts cfg (Z.to_nat (k - 1)) 1 ++ [EvExtract k]
   /\ (accepted mock -> decided mock))
  /\ (looksLikeAuthFailure e = false ->
      attempt cfg env k = inl e
      /\ ((k < retryAttempts cfg)%Z ->
          (exists rest,
              extractionEvents cfg env
              = failedAttempts cfg (Z.to_nat (k - 1)) 1
                ++ [EvExtract k; EvDelay (retryDelayMs cfg * k)%Z;
                    EvExtract (k + 1)%Z]
                ++ rest)
          /\ (forall d, attempt cfg env (k + 1)%Z = inr d ->
                        accepted d -> decided d))
      /\ (k = retryAttempts cfg ->
          extractionEvents cfg env = failedAttempts cfg (Z.to_nat k) 1
          /\ exists row,
               store s' !! invoiceId = Some row
               /\ Invoice.status row = failed
               /\ Invoice.lastError row = Some (errMessage e)))
  /\ (forall row,
         store s' !! invoiceId = Some row ->
         Invoice.status row = failed ->
         (forall a, (1 <= a <= retryAttempts cfg)%Z ->
                    exists e', attempt cfg env a = inl e')
         \/ (exists d, extractionOutcome cfg env = inr d /\ ~ accepted d)).
Proof.
  intros Hkey Hk Hfound Hid Hdoc Hbefore Hapi. cbv zeta.
  pose proof (attempt_malformed cfg env k e Hkey Hapi) as Hatt.
  assert (Hdecided : forall d,
             extractionOutcome cfg env = inr d ->
             refusal env (savedRow env invoice d) = None ->
             exists row,
               store (snd (processInvoice cfg env invoiceId s)) !! invoiceId = Some row
               /\ Invoice.status row = finalStatus (validateInvoice (validatedAt env) d)
               /\ Invoice.status row <> failed).
  { intros d Hout Hdb.
    destruct (processInvoice_success cfg env invoiceId invoice d s
                Hfound Hid Hdoc Hout Hdb) as (_ & Hstore & _).
    exists (processedRow env invoice d).
    split; [ rewrite Hstore; apply lookup_insert_eq | ].
    rewrite (proj1 (processedRow_status env invoice d)).
    split; [ reflexivity | apply finalStatus_not_failed ]. }
  split; [ | split ].
  - intro Hauth. rewrite Hauth in Hatt.
    destruct (extractWithRetry_stops cfg env err (k - 1)
                (generateMockInvoiceData (random env) (clock env) (clock' env)))
      as [Hout Hevs].
    + lia.
    + intros a Ha. apply Hbefore. lia.
    + replace (k - 1 + 1)%Z with k by lia. exact Hatt.
    + replace (k - 1 + 1)%Z with k in Hevs by lia.
      split; [ exact Hatt | ]. split; [ exact Hevs | ].
      intro Hdb. now apply Hdecided.
  - intro Hauth. rewrite Hauth in Hatt.
    set (err' := fun a => if (a =? k)%Z then e else err a).
    assert (Hfail : forall a, (1 <= a <= k)%Z -> attempt cfg env a = inl (err' a)).
    { intros a Ha. unfold err'. destruct (a =? k)%Z eqn:E.
      - apply Z.eqb_eq in E. now subst a.
      - apply Z.eqb_neq in E. apply Hbefore. lia. }
    split; [ exact Hatt | ]. split.
    + intro Hlt. split.
      * apply (extractWithRetry_goes_on cfg env err' k); [ lia | exact Hfail ].
      * intros d Hnext Hdb. apply Hdecided; [ | exact Hdb ].
        apply (extractWithRetry_stops cfg env err' k d); [ lia | exact Hfail | exact Hnext ].
    + intro Hlast. subst k.
      destruct (extractWithRetry_all_failed cfg env err') as [Hout Hevs];
        [ lia | exact Hfail | ].
      split; [ exact Hevs | ].
      assert (Hlast : err' (retryAttempts cfg) = e)
        by (unfold err'; now rewrite Z.eqb_refl).
      rewrite Hlast in Hout.
      destruct (processInvoice_failure cfg env invoiceId invoice e s
                  Hfound Hid Hdoc Hout) as (_ & Hstore & _).
      exists (failedRow env invoice e).
      split; [ rewrite Hstore; apply lookup_insert_eq | ].
      split; reflexivity.
  - intros row Hrow Hst.
    destruct (extractionOutcome cfg env) as [ t | d ] eqn:Hout.
    + left. intros a Ha.
      unfold extractionOutcome, extractWithRetry in Hout.
      apply (retryLoop_throws _ _ _ _ _ _ _ Hout). lia.
    + right. exists d. split; [ reflexivity | ].
      intro Hdb. destruct (Hdecided d eq_refl Hdb) as (row' & Hrow' & _ & Hnot).
      rewrite Hrow in Hrow'. injection Hrow' as <-. now apply Hnot.
Qed.

Lemma malformed_output_is_retried_witness :
  let s' := snd (processInvoice liveConfig malformedThenValid "inv-1" oneInvoice) in
  (exists rest,
      extractionEvents liveConfig malformedThenValid
      = [EvExtract 1; EvDelay 1000; EvExtract 2] ++ rest)
  /\ exists row,
       store s' !! "inv-1"%string = Some row
       /\ Invoice.status row = finalStatus (validateInvoice 0 twoWarnings)
       /\ Invoice.status row <> failed.
Proof.
  destruct (malformed_output_is_retried liveConfig malformedThenValid "inv-1"
              (Invoice.create "inv-1" "uploads/a.pdf" Null) oneInvoice
              (fun _ => syntaxError) 1 syntaxError
              eq_refl ltac:(vm_compute; split; discriminate) eq_refl eq_refl eq_refl
              ltac:(intros a Ha; lia) eq_refl)
    as (_ & Hthrows & _).
  destruct (Hthrows eq_refl) as (_ & Hbelow & _).
  destruct (Hbelow eq_refl) as (Hevents & Hnext).
  split; [ exact Hevents | ].
  apply (Hnext twoWarnings); reflexivity.
Defined.

(** ** Admission from the queue *)

(** The loop of [processQueue] takes a prefix of the queue, in order,
    appends it to the running calls, counts it, and stops at an empty
    queue or at the limit. *)
Lemma drain_spec (cfg : Config) (queue : list string) :
  forall (active : Z) (started : list string),
  exists taken,
    drain cfg queue active started
    = (drop (length taken) queue, (active + Z.of_nat (length taken))%Z, started ++ taken)
    /\ queue = taken ++ drop (length taken) queue
    /\ (drop (length taken) queue = []
        \/ (maxConcurrent cfg <= active + Z.of_nat (length taken))%Z)
    /\ (taken = [] \/ (active + Z.of_nat (length taken) <= maxConcurrent cfg)%Z).
Proof.
  induction queue as [ | x rest IH ]; intros active started.
  - exists []. simpl. rewrite app_nil_r, Z.add_0_r. repeat split; auto.
  - simpl. destruct (active <? maxConcurrent cfg)%Z eqn:E.
    + destruct (IH (active + 1)%Z (started ++ [x])) as (taken & Hrun & Hq & Hstop & Hmax).
      exists (x :: taken). rewrite Hrun. cbn [length drop].
      rewrite <- app_assoc. cbn [app].
      replace (active + 1 + Z.of_nat (length taken))%Z
        with (active + Z.of_nat (S (length taken)))%Z in * by lia.
      repeat split.
      * now rewrite <- Hq.
      * exact Hstop.
      * right. destruct Hmax as [-> | H]; [ | exact H ].
        apply Z.ltb_lt in E. simpl. lia.
    + exists []. simpl. rewrite app_nil_r, Z.add_0_r.
      apply Z.ltb_ge in E. repeat split; auto.
Qed.

(** ** Manual retry *)

Example failedInvoice_fields :
  Invoice.status failedInvoice = failed /\ Invoice.retryCount failedInvoice = 1%Z.
Proof. split; reflexivity. Qed.

Example retry_keeps_retryCount :
  Invoice.retryCount <$> (store (snd (retryInvoice liveConfig "inv-1" afterFailure))
                            !! "inv-1"%string) = Some 1%Z.
Proof. vm_compute. reflexivity. Qed.

(** C10 as stated fails: a manual retry does not increment the retry
    count. *)
Lemma retry_does_not_increment_retryCount :
  ~ (forall (cfg : Config) (invoiceId : string) (invoice : Invoice.t) (s : State),
        store s !! invoiceId = Some invoice ->
        Invoice.id invoice = invoiceId ->
        Invoice.status invoice = failed ->
        let s' := snd (retryInvoice cfg invoiceId s) in
        exists row,
          store s' !! invoiceId = Some row
          /\ Invoice.status row = pending
          /\ Invoice.retryCount row = (Invoice.retryCount invoice + 1)%Z
          /\ In invoiceId (processingQueue s' ++ running s')).
Proof.
  intro H.
  destruct (H liveConfig "inv-1"%string failedInvoice afterFailure)
    as (row & Hrow & _ & Hcount & _); try reflexivity.
  pose proof retry_keeps_retryCount as Hc. rewrite Hrow in Hc.
  simpl in Hc. inversion Hc as [Hc']. rewrite Hcount in Hc'. discriminate Hc'.
Qed.

(** C10, amended.  Manually retrying a [failed] job writes it back with
    status [pending] and [lastError] cleared, leaves its retry count as
    the failure left it, appends its id to the queue and runs the
    admission loop, so that the id is queued or already admitted; a job
    in any other status makes the retry throw and leaves the state
    unchanged. *)
Theorem retryInvoice_failed_only (cfg : Config) (invoiceId : string)
        (invoice : Invoice.t) (s : State) :
  store s !! invoiceId = Some invoice ->
  Invoice.id invoice = invoiceId ->
  (Invoice.status invoice = failed ->
   let row := Invoice.setLastError None (Invoice.setStatus pending invoice) in
   let s' := snd (retryInvoice cfg invoiceId s) in
   fst (retryInvoice cfg invoiceId s) = inr row
   /\ store s' = <[invoiceId := row]> (store s)
   /\ Invoice.status row = pending
   /\ Invoice.lastError row = None
   /\ Invoice.retryCount row = Invoice.retryCount invoice
   /\ (processingQueue s', activeProcessing s', running s')
      = drain cfg (processingQueue s ++ [invoiceId]) (activeProcessing s) (running s)
   /\ In invoiceId (processingQueue s' ++ running s')
   /\ trace s' = trace s)
  /\ (Invoice.status invoice <> failed ->
      retryInvoice cfg invoiceId s
      = (inl (newError "Can only retry failed invoices"), s)).
Proof.
  intros Hfound Hid. split.
  - intro Hst. cbv zeta.
    unfold retryInvoice, findByPk, bind, get, ret. cbv beta iota.
    rewrite Hfound, Hst.
    unfold save, setStore, queueInvoice, processQueue, bind, modify, ret.
    cbv beta iota.
    cbn [store processingQueue activeProcessing running trace Invoice.id
         Invoice.setStatus Invoice.setLastError].
    rewrite Hid.
    destruct (drain_spec cfg (processingQueue s ++ [invoiceId])
                (activeProcessing s) (running s))
      as (taken & Hrun & Hq & _).
    rewrite Hrun.
    cbn [fst snd store processingQueue activeProcessing running trace].
    repeat split.
    assert (Hin : In invoiceId (processingQueue s ++ [invoiceId]))
      by (apply in_or_app; right; now left).
    rewrite Hq in Hin. apply in_app_or in Hin as [Hin | Hin]; apply in_or_app.
    + right. apply in_or_app. now right.
    + now left.
  - intro Hst.
    unfold retryInvoice, findByPk, bind, get, ret. cbv beta iota.
    rewrite Hfound. destruct (Invoice.status invoice); try reflexivity.
    now contradiction Hst.
Qed.

Lemma retryInvoice_failed_only_witness :
  (let row := Invoice.setLastError None (Invoice.setStatus pending failedInvoice) in
   let s' := snd (retryInvoice liveConfig "inv-1" afterFailure) in
   fst (retryInvoice liveConfig "inv-1" afterFailure) = inr row
   /\ store s' = <["inv-1"%string := row]> (store afterFailure)
   /\ Invoice.status row = pending
   /\ Invoice.lastError row = None
   /\ Invoice.retryCount row = 1%Z
   /\ (processingQueue s', activeProcessing s', running s')
      = ([], 1%Z, ["inv-1"%string])
   /\ In "inv-1"%string (processingQueue s' ++ running s')
   /\ trace s' = [])
  /\ retryInvoice liveConfig "inv-1" oneInvoice
     = (inl (newError "Can only retry failed invoices"), oneInvoice).
Proof.
  split.
  - apply (proj1 (retryInvoice_failed_only liveConfig "inv-1" failedInvoice
                    afterFailure eq_refl eq_refl)).
    reflexivity.
  - apply (proj2 (retryInvoice_failed_only liveConfig "inv-1"
                    (Invoice.create "inv-1" "uploads/a.pdf" Null)
                    oneInvoice eq_refl eq_refl)).
    discriminate.
Defined.

(** ** The concurrency bound *)

Lemma frames_ret {A} (a : A) : frames (ret a).
Proof. intro s. reflexivity. Qed.

Lemma frames_throw {A} (e : Thrown) : frames (@throw A e).
Proof. intro s. reflexivity. Qed.

Lemma frames_get : frames get.
Proof. intro s. reflexivity. Qed.

Lemma frames_emit (e : Event) : frames (emit e).
Proof. intro s. reflexivity. Qed.

Lemma frames_setStore (f : gmap string Invoice.t -> gmap string Invoice.t) :
  frames (setStore f).
Proof. intro s. reflexivity. Qed.

Lemma frames_bind {A B} (m : M A) (k : A -> M B) :
  frames m -> (forall a, frames (k a)) -> frames (bind m k).
Proof.
  intros Hm Hk s. unfold bind. specialize (Hm s).
  destruct (m s) as [[e | a] s1]; cbn [snd] in *.
  - exact Hm.
  - now rewrite Hk.
Qed.

Lemma frames_tryCatch {A} (m : M A) (h : Thrown -> M A) :
  frames m -> (forall e, frames (h e)) -> frames (tryCatch m h).
Proof.
  intros Hm Hh s. unfold tryCatch. specialize (Hm s).
  destruct (m s) as [[e | a] s1]; cbn [snd] in *.
  - now rewrite Hh.
  - exact Hm.
Qed.

Create HintDb frames.
#[local] Hint Resolve frames_ret frames_throw frames_get frames_emit
  frames_setStore : frames.

Ltac frames_step :=
  first
    [ apply frames_bind; [ | intro ]
    | apply frames_tryCatch; [ | intro ]
    | match goal with
      | |- frames (match ?x with _ => _ end) => destruct x
      | |- frames (if ?c then _ else _) => destruct c
      end
    | solve [ auto with frames ] ].

Lemma frames_retryLoop (cfg : Config) (env : Env) (remaining : nat) :
  forall a last, frames (retryLoop cfg env remaining a last).
Proof.
  induction remaining as [ | n IH ]; intros a last; cbn [retryLoop].
  - auto with frames.
  - unfold callExtraction, when, delay. repeat frames_step.
Qed.

Lemma frames_tryBlock (cfg : Config) (env : Env) (invoiceId : string) :
  frames (tryBlock cfg env invoiceId).
Proof.
  unfold tryBlock, findByPk, saveExtraction, save, sendWebhook, extractWithRetry.
  repeat frames_step. apply frames_retryLoop.
Qed.

Lemma frames_catchBlock (env : Env) (invoiceId : string) (error : Thrown) :
  frames (catchBlock env invoiceId error).
Proof.
  unfold catchBlock, findByPk, save, sendWebhook, when.
  repeat frames_step.
Qed.

Lemma drain_scheduled (cfg : Config) (queue : list string) (active : Z)
      (started : list string) (db : gmap string Invoice.t) (tr : list Event) :
  active = Z.of_nat (length started) ->
  (active <= maxConcurrent cfg)%Z ->
  match drain cfg queue active started with
  | (queue', active', started') => scheduled cfg (mkState db queue' active' started' tr)
  end.
Proof.
  intros Hlen Hmax.
  destruct (drain_spec cfg queue active started) as (taken & Hrun & _ & Hstop & Hle).
  rewrite Hrun. unfold scheduled.
  cbn [store processingQueue activeProcessing running trace].
  rewrite length_app, Nat2Z.inj_add, <- Hlen.
  assert (Hbound : (active + Z.of_nat (length taken) <= maxConcurrent cfg)%Z).
  { destruct Hle as [-> | H]; [ simpl; lia | exact H ]. }
  repeat split; [ exact Hbound | ].
  intro Hq. destruct Hstop as [H | H]; [ contradiction | lia ].
Qed.

Lemma length_removeFirst (x : string) (l : list string) :
  In x l -> length l = S (length (removeFirst x l)).
Proof.
  induction l as [ | y t IH ]; intro H; [ destruct H | ].
  simpl. destruct (String.eqb x y) eqn:E; [ reflexivity | ].
  destruct H as [H | H].
  - subst y. rewrite String.eqb_refl in E. discriminate E.
  - simpl. now rewrite <- IH.
Qed.

Lemma queueInvoice_scheduled (cfg : Config) (invoice : Invoice.t) (s : State) :
  scheduled cfg s -> scheduled cfg (snd (queueInvoice cfg invoice s)).
Proof.
  intros (Hlen & Hmax & _).
  unfold queueInvoice, processQueue, bind, modify, ret. cbv beta iota.
  cbn [store processingQueue activeProcessing running trace snd].
  pose proof (drain_scheduled cfg (processingQueue s ++ [Invoice.id invoice])
                (activeProcessing s) (running s) (store s) (trace s) Hlen Hmax) as H.
  destruct (drain cfg (processingQueue s ++ [Invoice.id invoice])
              (activeProcessing s) (running s)) as [[q a] r].
  exact H.
Qed.

(** The [try] and [catch] blocks leave the service fields alone. *)
Lemma body_sched (cfg : Config) (env : Env) (invoiceId : string) (s : State) :
  sched (snd (tryCatch (tryBlock cfg env invoiceId) (catchBlock env invoiceId) s))
  = sched s.
Proof.
  apply (frames_tryCatch _ _ (frames_tryBlock cfg env invoiceId)
           (frames_catchBlock env invoiceId)).
Qed.

Lemma settle_sched (cfg : Config) (env : Env) (invoiceId : string) (s : State) :
  sched (snd (settle cfg env invoiceId s))
  = drain cfg (processingQueue s) (activeProcessing s - 1)%Z
      (removeFirst invoiceId (running s)).
Proof.
  unfold settle. pose proof (body_sched cfg env invoiceId s) as H.
  destruct (tryCatch (tryBlock cfg env invoiceId) (catchBlock env invoiceId) s)
    as [r s1].
  cbn [snd] in *. unfold sched in H. inversion H as [[Hq Ha Hr]].
  unfold finallyBlock, processQueue, bind, modify. cbv beta iota.
  cbn [store processingQueue activeProcessing running trace snd].
  rewrite Hq, Ha, Hr.
  destruct (drain cfg (processingQueue s) (activeProcessing s - 1)
              (removeFirst invoiceId (running s))) as [[q a] r'].
  reflexivity.
Qed.

Lemma settle_scheduled (cfg : Config) (env : Env) (invoiceId : string) (s : State) :
  In invoiceId (running s) ->
  scheduled cfg s -> scheduled cfg (snd (settle cfg env invoiceId s)).
Proof.
  intros Hin (Hlen & Hmax & _).
  pose proof (settle_sched cfg env invoiceId s) as Hs.
  apply length_removeFirst in Hin.
  pose proof (drain_scheduled cfg (processingQueue s) (activeProcessing s - 1)%Z
                (removeFirst invoiceId (running s))
                (store (snd (settle cfg env invoiceId s)))
                (trace (snd (settle cfg env invoiceId s)))) as H.
  rewrite <- Hs in H. unfold sched in H.
  destruct (snd (settle cfg env invoiceId s)) as [db q a r tr].
  cbn [store processingQueue activeProcessing running trace] in H.
  apply H; lia.
Qed.

Lemma retryInvoice_scheduled (cfg : Config) (invoiceId : string) (s : State) :
  scheduled cfg s -> scheduled cfg (snd (retryInvoice cfg invoiceId s)).
Proof.
  intro Hs. unfold retryInvoice, findByPk, bind, get, ret. cbv beta iota.
  destruct (store s !! invoiceId) as [ invoice | ]; [ | exact Hs ].
  destruct (Invoice.status invoice); try exact Hs.
  unfold save, setStore, modify. cbv beta iota.
  set (row := Invoice.setLastError None (Invoice.setStatus pending invoice)).
  set (s1 := mkState _ _ _ _ _).
  assert (H1 : scheduled cfg s1) by exact Hs.
  pose proof (queueInvoice_scheduled cfg row s1 H1) as H.
  destruct (queueInvoice cfg row s1) as [[e | a] s2]; exact H.
Qed.

Lemma reachable_scheduled (cfg : Config) (s : State) :
  (0 <= maxConcurrent cfg)%Z -> reachable cfg s -> scheduled cfg s.
Proof.
  intros Hpos Hreach. induction Hreach as [ db | s s' _ IH Hstep ].
  - unfold scheduled, init; simpl. repeat split; [ exact Hpos | congruence ].
  - destruct Hstep as [ invoice s | env invoiceId s Hin | invoiceId s ].
    + now apply queueInvoice_scheduled.
    + now apply settle_scheduled.
    + now apply retryInvoice_scheduled.
Qed.

(** With the counter at the limit, the end of one call admits the head
    of the queue and nothing more. *)
Lemma drain_one (cfg : Config) (queue : list string) (active : Z)
      (started : list string) :
  (queue <> [] -> active = maxConcurrent cfg) ->
  drain cfg queue (active - 1)%Z started
  = (drop 1 queue, (active - 1 + Z.of_nat (length (take 1 queue)))%Z,
     started ++ take 1 queue).
Proof.
  intro Hfull. destruct queue as [ | x rest ].
  - simpl. now rewrite app_nil_r, Z.add_0_r.
  - rewrite Hfull by discriminate. cbn [drain].
    replace (maxConcurrent cfg - 1 <? maxConcurrent cfg)%Z with true
      by (symmetry; apply Z.ltb_lt; lia).
    destruct rest as [ | y rest ]; cbn [drain drop take length].
    + reflexivity.
    + replace (maxConcurrent cfg - 1 + 1 <? maxConcurrent cfg)%Z with false
        by (symmetry; apply Z.ltb_ge; lia).
      reflexivity.
Qed.

Example fiveSubmitted_sched :
  sched fiveSubmitted = (["j3"; "j4"; "j5"], 2%Z, ["j1"; "j2"])%string.
Proof. reflexivity. Qed.

Example fiveSubmitted_after_one :
  sched (snd (settle twoSlots (constEnv (ApiRejects timeoutError)) "j1" fiveSubmitted))
  = (["j4"; "j5"], 2%Z, ["j2"; "j3"])%string.
Proof. vm_compute. reflexivity. Qed.

(** C9.  In every reachable state the counter is the number of running
    calls and does not exceed [maxConcurrent]; a submission is admitted
    from the head of the queue, in queue order, and only up to the
    limit; the end of a running call, whatever its outcome, decrements
    the counter and admits the head of the queue at once, that job and
    no other. *)
Theorem concurrency_bounded (cfg : Config) (s : State) :
  (0 <= maxConcurrent cfg)%Z ->
  reachable cfg s ->
  (activeProcessing s = Z.of_nat (length (running s))
   /\ (Z.of_nat (length (running s)) <= maxConcurrent cfg)%Z)
  /\ (forall invoice,
        let s' := snd (queueInvoice cfg invoice s) in
        exists taken,
          processingQueue s ++ [Invoice.id invoice] = taken ++ processingQueue s'
          /\ running s' = running s ++ taken
          /\ activeProcessing s' = (activeProcessing s + Z.of_nat (length taken))%Z
          /\ (activeProcessing s' <= maxConcurrent cfg)%Z
          /\ (processingQueue s' = [] \/ activeProcessing s' = maxConcurrent cfg))
  /\ (forall env invoiceId,
        In invoiceId (running s) ->
        let s' := snd (settle cfg env invoiceId s) in
        running s' = removeFirst invoiceId (running s) ++ take 1 (processingQueue s)
        /\ processingQueue s' = drop 1 (processingQueue s)
        /\ activeProcessing s'
           = (activeProcessing s - 1 + Z.of_nat (length (take 1 (processingQueue s))))%Z).
Proof.
  intros Hpos Hreach.
  pose proof (reachable_scheduled cfg s Hpos Hreach) as (Hlen & Hmax & Hfull).
  split; [ | split ].
  - split; [ exact Hlen | now rewrite <- Hlen ].
  - intros invoice s'.
    assert (Hs' : scheduled cfg s')
      by (apply queueInvoice_scheduled; repeat split; assumption).
    destruct Hs' as (_ & Hmax' & Hfull').
    subst s'. revert Hmax' Hfull'.
    unfold queueInvoice, processQueue, bind, modify, ret. cbv beta iota.
    cbn [store processingQueue activeProcessing running trace snd].
    destruct (drain_spec cfg (processingQueue s ++ [Invoice.id invoice])
                (activeProcessing s) (running s)) as (taken & Hrun & Hq & _).
    rewrite Hrun. cbn [store processingQueue activeProcessing running trace].
    intros Hmax' Hfull'. exists taken. repeat split; try assumption; try reflexivity.
    destruct (drop (length taken) (processingQueue s ++ [Invoice.id invoice]));
      [ now left | right; apply Hfull'; discriminate ].
  - intros env invoiceId Hin s'. subst s'.
    pose proof (settle_sched cfg env invoiceId s) as Hs.
    rewrite (drain_one cfg _ _ _ Hfull) in Hs.
    unfold sched in Hs. inversion Hs as [[Hq Ha Hr]]. now repeat split.
Qed.

Lemma concurrency_bounded_witness :
  (activeProcessing fiveSubmitted = 2%Z
   /\ (Z.of_nat (length (running fiveSubmitted)) <= 2)%Z)
  /\ (let s' := snd (settle twoSlots (constEnv (ApiRejects timeoutError)) "j1"
                       fiveSubmitted) in
      running s' = ["j2"; "j3"]%string
      /\ processingQueue s' = ["j4"; "j5"]%string
      /\ activeProcessing s' = 2%Z).
Proof.
  assert (Hreach : reachable twoSlots fiveSubmitted).
  { unfold fiveSubmitted, submit.
    repeat (eapply reach_step; [ | apply step_queue ]).
    apply reach_init. }
  assert (Hpos : (0 <= maxConcurrent twoSlots)%Z) by (vm_compute; discriminate).
  split.
  - apply (proj1 (concurrency_bounded twoSlots fiveSubmitted Hpos Hreach)).
  - apply (proj2 (proj2 (concurrency_bounded twoSlots fiveSubmitted Hpos Hreach))
             (constEnv (ApiRejects timeoutError)) "j1"%string).
    vm_compute. tauto.
Defined.

(** ** Rounding to cents *)

Lemma Qltb_ge (a b : Q) : Qltb a b = false <-> b <= a.
Proof.
  unfold Qltb. rewrite negb_false_iff. apply Qle_bool_iff.
Qed.

Lemma Qfloor_unique (x : Q) (z : Z) :
  inject_Z z <= x -> x < inject_Z (z + 1) -> Qfloor x = z.
Proof.
  intros Hle Hlt.
  pose proof (Qfloor_le x) as H1. pose proof (Qlt_floor x) as H2.
  assert (Ha : (z < Qfloor x + 1)%Z).
  { rewrite Zlt_Qlt. eapply Qle_lt_trans; [ exact Hle | exact H2 ]. }
  assert (Hb : (Qfloor x < z + 1)%Z).
  { rewrite Zlt_Qlt. eapply Qle_lt_trans; [ exact H1 | exact Hlt ]. }
  lia.
Qed.

Lemma Qdiv100 (x : Q) : x / 100 == x * (1 # 100).
Proof. reflexivity. Qed.

(** Half-up rounding to an integer stays within one half. *)
Lemma Qfloor_half (y : Q) :
  y - (1 # 2) <= inject_Z (Qfloor (y + (1 # 2))) <= y + (1 # 2).
Proof.
  pose proof (Qfloor_le (y + (1 # 2))) as H1.
  pose proof (Qlt_floor (y + (1 # 2))) as H2.
  rewrite inject_Z_plus in H2. change (inject_Z 1) with 1 in H2.
  split; lra.
Qed.

Lemma toFixed2_bounds (x : Q) : x - (1 # 200) <= toFixed2 x <= x + (1 # 200).
Proof.
  unfold toFixed2. destruct (Qltb x 0).
  - pose proof (Qfloor_half (- x * 100)) as H. rewrite Qdiv100. split; lra.
  - pose proof (Qfloor_half (x * 100)) as H. rewrite Qdiv100. split; lra.
Qed.

Lemma toFixed2_cents (x : Q) : cents (toFixed2 x).
Proof.
  unfold toFixed2, cents. destruct (Qltb x 0).
  - exists (- Qfloor (- x * 100 + (1 # 2)))%Z. rewrite inject_Z_opp, !Qdiv100. ring.
  - eexists. reflexivity.
Qed.

(** A number within half a cent of a whole number of cents is printed
    as that number of cents. *)
Lemma toFixed2_near (c : Z) (x : Q) :
  x * 100 - (1 # 2) < inject_Z c -> inject_Z c < x * 100 + (1 # 2) ->
  toFixed2 x == inject_Z c / 100.
Proof.
  intros H1 H2. unfold toFixed2. destruct (Qltb x 0).
  - assert (E : Qfloor (- x * 100 + (1 # 2)) = (- c)%Z).
    { apply Qfloor_unique.
      - rewrite inject_Z_opp. lra.
      - rewrite inject_Z_plus, inject_Z_opp. change (inject_Z 1) with 1. lra. }
    rewrite E, inject_Z_opp, !Qdiv100. ring.
  - assert (E : Qfloor (x * 100 + (1 # 2)) = c).
    { apply Qfloor_unique.
      - lra.
      - rewrite inject_Z_plus. change (inject_Z 1) with 1. lra. }
    rewrite E. reflexivity.
Qed.

Lemma Math_round_near (c : Z) (x : Q) :
  x - (1 # 2) < inject_Z c -> inject_Z c < x + (1 # 2) -> Math_round x = c.
Proof.
  intros H1 H2. unfold Math_round. apply Qfloor_unique.
  - lra.
  - rewrite inject_Z_plus. change (inject_Z 1) with 1. lra.
Qed.

Lemma Qzerob_false (q : Q) : ~ q == 0 -> Qzerob q = false.
Proof.
  intro H. unfold Qzerob. destruct (Qeq_bool q 0) eqn:E; [ | reflexivity ].
  apply Qeq_bool_iff in E. contradiction.
Qed.

Lemma truthyN_pos (q : Q) : 0 < q -> truthyN (Val q) = true.
Proof.
  intro H. simpl. rewrite Qzerob_false; [ reflexivity | ].
  intro H0. rewrite H0 in H. discriminate H.
Qed.

Lemma orZero_Val (q : Q) : orZero (Val q) == q.
Proof.
  simpl. unfold Qzerob. destruct (Qeq_bool q 0) eqn:E; [ | reflexivity ].
  apply Qeq_bool_iff in E. now rewrite E.
Qed.

Lemma Qfloor_between (x : Q) (a b : Z) :
  inject_Z a <= x -> x < inject_Z b -> (a <= Qfloor x < b)%Z.
Proof.
  intros Ha Hb. split.
  - rewrite <- (Qfloor_Z a). now apply Qfloor_resp_le.
  - rewrite Zlt_Qlt. eapply Qle_lt_trans; [ apply Qfloor_le | exact Hb ].
Qed.

(** *** Rounding errors within a range *)

(** A number of magnitude at most [M], for [M] at least 1, is rounded
    by at most [M * 2^-52]. *)
Lemma fl_near (M x : Q) :
  1 <= M -> - M <= x <= M ->
  x - M * (1 # 4503599627370496) <= fl x <= x + M * (1 # 4503599627370496).
Proof.
  intros HM [H1 H2]. pose proof (fl_error x) as H.
  assert (Habs : Qabs x <= M) by (apply Qabs_Qle_condition; split; lra).
  assert (Htiny : pow2 (-1075) <= 1 # 9007199254740992).
  { change (1 # 9007199254740992) with (pow2 (-53)). apply pow2_le. lia. }
  change (pow2 (-53)) with (1 # 9007199254740992) in H.
  apply Qabs_Qle_condition in H.
  set (e := Qabs x) in *. set (t := pow2 (-1075)) in *. clearbody e t.
  split; lra.
Qed.

(** Rounding keeps a number between the rounded bounds. *)
Lemma fl_range (lo hi a b x : Q) :
  lo <= x -> x <= hi -> a <= fl lo -> fl hi <= b -> a <= fl x <= b.
Proof.
  intros H1 H2 Ha Hb.
  pose proof (fl_mono _ _ H1). pose proof (fl_mono _ _ H2). split; lra.
Qed.

Ltac by_computation := apply Qle_bool_iff; vm_compute; reflexivity.

(** ** The mock generator *)

Section Mock.

Variable rnd : nat -> Q.
Hypothesis rnd_range : forall k, 0 <= rnd k <= maxRandom.

Lemma mockSubtotalText_range :
  499999 # 100 <= mockSubtotalText rnd <= 5500001 # 100.
Proof.
  unfold mockSubtotalText, fadd, fmul.
  pose proof (rnd_range 2%nat) as [H0 H1]. unfold maxRandom in H1.
  assert (Hp : 0 <= fl (rnd 2%nat * 50000) <= 50000).
  { apply (fl_range 0 50000); try lra; by_computation. }
  assert (Hs : 5000 <= fl (fl (rnd 2%nat * 50000) + 5000) <= 55000).
  { apply (fl_range 5000 55000); try lra; by_computation. }
  pose proof (toFixed2_bounds (fl (fl (rnd 2%nat * 50000) + 5000))). split; lra.
Qed.

Lemma mockSubtotal_near :
  Qabs (mockSubtotal rnd - mockSubtotalText rnd) <= 1 # 10000000000
  /\ 4999 < mockSubtotal rnd < 55001.
Proof.
  unfold mockSubtotal, parseFloat.
  pose proof mockSubtotalText_range as [H1 H2].
  pose proof (fl_near 55001 (mockSubtotalText rnd) ltac:(lra) ltac:(split; lra)) as H.
  split; [ apply Qabs_Qle_condition; split; lra | split; lra ].
Qed.


Lemma fl_small (x : Q) :
  - 3000000 <= x <= 3000000 ->
  x - (1 # 1000000000) <= fl x <= x + (1 # 1000000000).
Proof.
  intro H. pose proof (fl_near 3000000 x ltac:(lra) H). split; lra.
Qed.

Lemma fl_medium (x : Q) :
  - 300000000 <= x <= 300000000 ->
  x - (1 # 10000000) <= fl x <= x + (1 # 10000000).
Proof.
  intro H. pose proof (fl_near 300000000 x ltac:(lra) H). split; lra.
Qed.

Lemma fl_zero (x : Q) : x == 0 -> fl x == 0.
Proof. intro H. now rewrite (fl_wd x 0 H). Qed.

(** [Math.round(x * 100)] of a number close to [c] cents. *)
Lemma Math_round_cents (c : Z) (x : Q) :
  - 100000000 <= inject_Z c <= 100000000 ->
  inject_Z c / 100 - (1 # 1000) <= x <= inject_Z c / 100 + (1 # 1000) ->
  Math_round (fmul x 100) = c.
Proof.
  intros Hc Hx. unfold fmul. rewrite Qdiv100 in Hx.
  pose proof (fl_medium (x * 100) ltac:(split; lra)) as H.
  apply Math_round_near; lra.
Qed.

(** An item whose unit price times quantity and whose amount are both
    close to the same whole number of cents passes the line-item
    check. *)
Lemma lineItemErrors_consistent (i : nat) (it : LineItem) (c : Z) :
  - 100000000 <= inject_Z c <= 100000000 ->
  inject_Z c / 100 - (1 # 1000)
    <= fmul (num (quantity it)) (num (unitPrice it))
    <= inject_Z c / 100 + (1 # 1000) ->
  inject_Z c / 100 - (1 # 1000) <= num (amount it) <= inject_Z c / 100 + (1 # 1000) ->
  lineItemErrors i it = [].
Proof.
  intros Hc Hy Ha. unfold lineItemErrors, pushIf.
  destruct (itemChecked it); [ | reflexivity ].
  unfold itemExpected, itemActual, round2.
  rewrite (Math_round_cents c _ Hc Hy), (Math_round_cents c _ Hc Ha).
  replace (Qltb _ _) with false; [ reflexivity | ].
  symmetry. apply Qltb_ge. unfold Math_abs, fsub.
  rewrite fl_zero by ring. vm_compute. discriminate.
Qed.

(** The amount [parseFloat((qty * price).toFixed(2))] of an item of
    the generator: [qty] times the cents of the price. *)
Lemma mock_amount (q P : Z) (text : Q) :
  (1 <= q <= 10)%Z -> text == inject_Z P / 100 -> - 60000 <= text <= 60000 ->
  let price := parseFloat text in
  let product := fmul (inject_Z q) price in
  let amount := parseFloat (toFixed2 product) in
  (text - (1 # 1000000000) <= price <= text + (1 # 1000000000))
  /\ (inject_Z (q * P) / 100 - (1 # 10000000) <= product
      <= inject_Z (q * P) / 100 + (1 # 10000000))
  /\ (product - (1 # 1000000000) <= inject_Z q * price
      <= product + (1 # 1000000000))
  /\ (inject_Z (q * P) / 100 - (1 # 1000000000) <= amount
      <= inject_Z (q * P) / 100 + (1 # 1000000000)).
Proof.
  intros Hq HP Ht. cbv zeta. unfold parseFloat, fmul.
  assert (Hq1 : 1 <= inject_Z q <= 10).
  { split; [ change 1 with (inject_Z 1) | change 10 with (inject_Z 10) ];
      rewrite <- Zle_Qle; lia. }
  pose proof (fl_small text ltac:(split; lra)) as Hp.
  set (p := fl text) in *. clearbody p.
  assert (HqP : inject_Z (q * P) / 100 == inject_Z q * text).
  { rewrite inject_Z_mult, HP, !Qdiv100. ring. }
  set (z := inject_Z q) in *. clearbody z.
  assert (Hprod : z * text - (1 # 100000000) <= z * p <= z * text + (1 # 100000000))
    by (split; nra).
  assert (Hmag : - 600000 <= z * text <= 600000) by (split; nra).
  pose proof (fl_small (z * p) ltac:(split; lra)) as Hy.
  set (y := fl (z * p)) in *. clearbody y.
  set (zt := z * text) in *. clearbody zt.
  assert (Hfix : toFixed2 y == inject_Z (q * P) / 100).
  { apply toFixed2_near; rewrite Qdiv100 in HqP; lra. }
  pose proof (fl_small (toFixed2 y) ltac:(split; lra)) as Hamt.
  repeat split; lra.
Qed.

(** [Math.floor(Math.random() * n + 1)] is one of 1, ..., n. *)
Lemma randomCount_range (r n : Q) (m : Z) :
  0 <= r <= maxRandom -> 0 <= n ->
  fl 1 == 1 -> fl (fl (maxRandom * n) + 1) < inject_Z (m + 1) ->
  (1 <= Math_floor (fadd (fmul r n) 1) <= m)%Z.
Proof.
  intros [H0 H1] Hn Hone Hmax. unfold fadd, fmul.
  assert (Hp : fl 0 <= fl (r * n) <= fl (maxRandom * n))
    by (split; apply fl_mono; nra).
  assert (Hz : fl 0 == 0) by reflexivity.
  assert (Hs : fl 1 <= fl (fl (r * n) + 1) <= fl (fl (maxRandom * n) + 1))
    by (split; apply fl_mono; lra).
  assert (H : (1 <= Math_floor (fl (fl (r * n) + 1)) < m + 1)%Z).
  { apply Qfloor_between; [ change (inject_Z 1) with 1 | ]; lra. }
  lia.
Qed.

Lemma item1Qty_range : (1 <= Math_floor (fadd (fmul (rnd 6%nat) 10) 1) <= 10)%Z.
Proof.
  apply randomCount_range; [ apply rnd_range | discriminate | reflexivity | reflexivity ].
Qed.

Lemma item2Qty_range : (1 <= Math_floor (fadd (fmul (rnd 8%nat) 5) 1) <= 5)%Z.
Proof.
  apply randomCount_range; [ apply rnd_range | discriminate | reflexivity | reflexivity ].
Qed.

Lemma item1PriceText_range :
  49999 # 100 <= toFixed2 (fadd (fmul (rnd 7%nat) 2000) 500) <= 250001 # 100.
Proof.
  unfold fadd, fmul.
  pose proof (rnd_range 7%nat) as [H0 H1]. unfold maxRandom in H1.
  assert (Hp : 0 <= fl (rnd 7%nat * 2000) <= 2000).
  { apply (fl_range 0 2000); try lra; by_computation. }
  assert (Hs : 500 <= fl (fl (rnd 7%nat * 2000) + 500) <= 2500).
  { apply (fl_range 500 2500); try lra; by_computation. }
  pose proof (toFixed2_bounds (fl (fl (rnd 7%nat * 2000) + 500))). split; lra.
Qed.

(** The two line items of the generator: each amount is the quantity
    times the cents of the unit price, up to the rounding of the
    numbers, and the second amount misses the rest of the subtotal by
    at most half a cent for each of its units. *)
Lemma mockLineItems_facts :
  let q1 := Math_floor (fadd (fmul (rnd 6%nat) 10) 1) in
  let p1 := parseFloat (toFixed2 (fadd (fmul (rnd 7%nat) 2000) 500)) in
  let a1 := parseFloat (toFixed2 (fmul (inject_Z q1) p1)) in
  let q2 := Math_floor (fadd (fmul (rnd 8%nat) 5) 1) in
  let p2 := parseFloat (toFixed2 (fdiv (fsub (mockSubtotal rnd) a1) (inject_Z q2))) in
  let a2 := parseFloat (toFixed2 (fmul (inject_Z q2) p2)) in
  exists c1 c2 : Z,
    (1 <= q1 <= 10)%Z /\ (1 <= q2 <= 5)%Z
    /\ (0 <= inject_Z c1 <= 2500100 /\ - 6000000 <= inject_Z c2 <= 6000000)
    /\ (inject_Z c1 / 100 - (1 # 10000000) <= fmul (inject_Z q1) p1
        <= inject_Z c1 / 100 + (1 # 10000000))
    /\ (inject_Z c1 / 100 - (1 # 1000000000) <= a1
        <= inject_Z c1 / 100 + (1 # 1000000000))
    /\ (fmul (inject_Z q1) p1 - (1 # 1000000000) <= inject_Z q1 * p1
        <= fmul (inject_Z q1) p1 + (1 # 1000000000))
    /\ (fmul (inject_Z q2) p2 - (1 # 1000000000) <= inject_Z q2 * p2
        <= fmul (inject_Z q2) p2 + (1 # 1000000000))
    /\ (inject_Z c2 / 100 - (1 # 10000000) <= fmul (inject_Z q2) p2
        <= inject_Z c2 / 100 + (1 # 10000000))
    /\ (inject_Z c2 / 100 - (1 # 1000000000) <= a2
        <= inject_Z c2 / 100 + (1 # 1000000000))
    /\ (mockSubtotal rnd - a1 - (250001 # 10000000)
        <= inject_Z c2 / 100 <= mockSubtotal rnd - a1 + (250001 # 10000000)).
Proof.
  cbv zeta.
  pose proof item1Qty_range as Hq1. pose proof item2Qty_range as Hq2.
  set (q1 := Math_floor (fadd (fmul (rnd 6%nat) 10) 1)) in *.
  set (q2 := Math_floor (fadd (fmul (rnd 8%nat) 5) 1)) in *.
  clearbody q1 q2.
  pose proof item1PriceText_range as Ht1.
  destruct (toFixed2_cents (fadd (fmul (rnd 7%nat) 2000) 500)) as [P1 HP1].
  set (text1 := toFixed2 (fadd (fmul (rnd 7%nat) 2000) 500)) in *. clearbody text1.
  destruct (mock_amount q1 P1 text1 Hq1 HP1 ltac:(split; lra)) as (Hp1 & Hy1 & Hx1 & Ha1).
  assert (Hz1 : 1 <= inject_Z q1 <= 10).
  { split; [ change 1 with (inject_Z 1) | change 10 with (inject_Z 10) ];
      rewrite <- Zle_Qle; lia. }
  assert (Hc1 : inject_Z (q1 * P1) / 100 == inject_Z q1 * text1).
  { rewrite inject_Z_mult, HP1, !Qdiv100. ring. }
  assert (Hc1r : 499 <= inject_Z (q1 * P1) / 100 <= 25001) by (split; nra).
  set (p1 := parseFloat text1) in *.
  set (y1 := fmul (inject_Z q1) p1) in *.
  set (a1 := parseFloat (toFixed2 y1)) in *.
  set (c1 := (q1 * P1)%Z) in *. clearbody a1 y1 p1 c1.
  destruct mockSubtotal_near as [_ [Hs1 Hs2]].
  set (sub := mockSubtotal rnd) in *. clearbody sub.
  assert (Hz2 : inject_Z q2 == 1 \/ inject_Z q2 == 2 \/ inject_Z q2 == 3
                \/ inject_Z q2 == 4 \/ inject_Z q2 == 5).
  { assert (Hcase : (q2 = 1 \/ q2 = 2 \/ q2 = 3 \/ q2 = 4 \/ q2 = 5)%Z) by lia.
    destruct Hcase as [-> | [-> | [-> | [-> | ->]]]]; auto 6 using Qeq_refl. }
  pose proof (fl_small (sub - a1) ltac:(split; lra)) as Hd.
  fold (fsub sub a1) in Hd. set (d := fsub sub a1) in *. clearbody d.
  assert (Hback : inject_Z q2 * (d / inject_Z q2) == d).
  { apply Qmult_div_r. destruct Hz2 as [E | [E | [E | [E | E]]]]; rewrite E; discriminate. }
  assert (Hquot : - 21000 <= d / inject_Z q2 <= 55000).
  { set (quot := d / inject_Z q2) in *. clearbody quot.
    destruct Hz2 as [E | [E | [E | [E | E]]]]; rewrite E in Hback; split; lra. }
  pose proof (fl_small (d / inject_Z q2) ltac:(split; lra)) as Hy2.
  fold (fdiv d (inject_Z q2)) in Hy2.
  set (quot := d / inject_Z q2) in *.
  set (y2 := fdiv d (inject_Z q2)) in *. clearbody y2 quot.
  pose proof (toFixed2_bounds y2) as Hb2.
  destruct (toFixed2_cents y2) as [P2 HP2].
  set (text2 := toFixed2 y2) in *. clearbody text2.
  destruct (mock_amount q2 P2 text2 ltac:(lia) HP2 ltac:(split; lra))
    as (Hp2 & Hprod2 & Hx2 & Ha2).
  assert (Hc2 : inject_Z (q2 * P2) / 100 == inject_Z q2 * text2).
  { rewrite inject_Z_mult, HP2, !Qdiv100. ring. }
  exists c1, (q2 * P2)%Z.
  set (c2 := (q2 * P2)%Z) in *. clearbody c2.
  set (z2 := inject_Z q2) in *. clearbody z2.
  assert (Hscale : d - z2 * (5000001 # 1000000000) <= z2 * text2
                   <= d + z2 * (5000001 # 1000000000)).
  { split; nra. }
  assert (Hz2r : 1 <= z2 <= 5)
    by (destruct Hz2 as [E | [E | [E | [E | E]]]]; rewrite E; split; lra).
  split; [ lia | split; [ lia | ] ].
  split; [ split; [ split | split ] | ].
  - rewrite Qdiv100 in Hc1r. lra.
  - rewrite Qdiv100 in Hc1r. lra.
  - rewrite Qdiv100 in Hc2. lra.
  - rewrite Qdiv100 in Hc2. lra.
  - repeat split; try assumption; try lra.
Qed.


Lemma inject_Z_Val_nonzero (z : Z) : (1 <= z)%Z -> truthyN (Val (inject_Z z)) = true.
Proof.
  intro H. apply truthyN_pos. change 0 with (inject_Z 0). rewrite <- Zlt_Qlt. lia.
Qed.

(** The line-item check finds nothing in the items of the generator. *)
Lemma mockLineItems_no_error : fst (lineItemsLoop 0 (mockLineItems rnd)) = [].
Proof.
  destruct mockLineItems_facts
    as (c1 & c2 & _ & _ & [Hc1 Hc2] & Hy1 & Ha1 & _ & _ & Hy2 & Ha2 & _).
  unfold mockLineItems. cbv zeta. cbn [lineItemsLoop both fst snd app].
  rewrite (lineItemErrors_consistent 0 _ c1), (lineItemErrors_consistent 1 _ c2);
    cbn [quantity unitPrice amount num]; try reflexivity; try (split; lra).
Qed.

(** Each amount is its quantity times its unit price, up to the
    rounding of the numbers. *)
Lemma mockLineItems_amounts (it : LineItem) :
  In it (mockLineItems rnd) ->
  Qabs (num (amount it) - num (quantity it) * num (unitPrice it)) <= 1 # 1000000.
Proof.
  destruct mockLineItems_facts
    as (c1 & c2 & _ & _ & _ & Hy1 & Ha1 & Hx1 & Hx2 & Hy2 & Ha2 & _).
  unfold mockLineItems. cbv zeta.
  intros [<- | [<- | []]]; cbn [amount quantity unitPrice num];
    apply Qabs_Qle_condition; split; lra.
Qed.

(** The calculated subtotal is within 2.6 cents of the subtotal. *)
Lemma mockLineItems_sum :
  Qabs (mockSubtotal rnd - calculatedSubtotal (mockLineItems rnd)) <= 26 # 1000
  /\ 4998 < calculatedSubtotal (mockLineItems rnd).
Proof.
  destruct mockLineItems_facts
    as (c1 & c2 & _ & _ & [Hc1 Hc2] & _ & Ha1 & _ & _ & _ & Ha2 & Hsum).
  destruct mockSubtotal_near as [_ [Hs1 Hs2]].
  unfold calculatedSubtotal, mockLineItems. cbv zeta. cbn [fold_left amount].
  match goal with
  | |- context [fadd (fadd 0 (orZero (Val ?x))) (orZero (Val ?y))] =>
      set (a2 := y) in *; set (a1 := x) in *
  end.
  clearbody a2. clearbody a1.
  pose proof (orZero_Val a1) as E1. pose proof (orZero_Val a2) as E2.
  set (o1 := orZero (Val a1)) in *. set (o2 := orZero (Val a2)) in *. clearbody o1 o2.
  rewrite Qdiv100 in *.
  unfold fadd.
  pose proof (fl_small (0 + o1) ltac:(split; lra)) as H1.
  set (s1 := fl (0 + o1)) in *. clearbody s1.
  pose proof (fl_small (s1 + o2) ltac:(split; lra)) as H2.
  set (s2 := fl (s1 + o2)) in *. clearbody s2.
  split; [ apply Qabs_Qle_condition; split; lra | lra ].
Qed.


(** The tax amount is 18% of the subtotal, rounded to cents. *)
Lemma mockTaxAmount_bounds :
  Qabs (mockTaxAmount rnd - (18 # 100) * mockSubtotal rnd) <= 51 # 10000
  /\ 899 < mockTaxAmount rnd < 9901
  /\ Qabs (mockTaxAmount rnd - mockTaxAmountText rnd) <= 1 # 1000000000.
Proof.
  unfold mockTaxAmount, mockTaxAmountText, parseFloat, mockTaxRate, fdiv, fmul.
  destruct mockSubtotal_near as [_ [Hs1 Hs2]].
  set (sub := mockSubtotal rnd) in *. clearbody sub.
  pose proof (fl_small (sub * 18) ltac:(split; lra)) as H1.
  set (x := fl (sub * 18)) in *. clearbody x.
  pose proof (Qdiv100 x) as Ex. set (xd := x / 100) in *. clearbody xd.
  pose proof (fl_small xd ltac:(split; lra)) as H2.
  set (y := fl xd) in *. clearbody y.
  pose proof (toFixed2_bounds y) as H3.
  pose proof (fl_small (toFixed2 y) ltac:(split; lra)) as H4.
  set (t := toFixed2 y) in *. clearbody t.
  repeat split; try (apply Qabs_Qle_condition; split); lra.
Qed.

(** The total is the subtotal plus the tax, up to the rounding of the
    numbers. *)
Lemma mockTotalAmount_sum :
  Qabs (mockTotalAmount rnd - (mockSubtotal rnd + mockTaxAmount rnd)) <= 1 # 100000000
  /\ Qabs (mockTotalAmount rnd - fadd (mockSubtotal rnd) (mockTaxAmount rnd))
     <= 1 # 100000000
  /\ 5000 < mockTotalAmount rnd.
Proof.
  unfold mockTotalAmount.
  destruct mockSubtotal_near as [Hsn [Hs1 Hs2]].
  destruct mockTaxAmount_bounds as (_ & [Ht1 Ht2] & Htn).
  destruct (toFixed2_cents (fadd (fmul (rnd 2%nat) 50000) 5000)) as [S HS].
  fold (mockSubtotalText rnd) in HS.
  destruct (toFixed2_cents (fdiv (fmul (mockSubtotal rnd) mockTaxRate) 100)) as [X HX].
  fold (mockTaxAmountText rnd) in HX.
  apply Qabs_Qle_condition in Hsn, Htn.
  set (sub := mockSubtotal rnd) in *. set (tax := mockTaxAmount rnd) in *.
  set (st := mockSubtotalText rnd) in *. set (tt := mockTaxAmountText rnd) in *.
  clearbody sub tax st tt.
  unfold fadd, parseFloat.
  pose proof (fl_small (sub + tax) ltac:(split; lra)) as He.
  set (e := fl (sub + tax)) in *. clearbody e.
  assert (Hfix : toFixed2 e == inject_Z (S + X) / 100).
  { rewrite Qdiv100 in HS, HX.
    apply toFixed2_near; rewrite inject_Z_plus; lra. }
  pose proof (fl_small (toFixed2 e) ltac:(pose proof (toFixed2_bounds e); split; lra)) as Hp.
  set (t := toFixed2 e) in *. clearbody t.
  rewrite inject_Z_plus, Qdiv100 in Hfix. rewrite Qdiv100 in HS, HX.
  repeat split; try (apply Qabs_Qle_condition; split); lra.
Qed.

End Mock.

(** *** The generator against the validation *)

(** The shared comparison reports nothing when the two amounts are
    within 0.01 of each other. *)
Lemma mismatch_close (x calc : Q) (err warn : Q -> Q -> Message) :
  Qabs (x - calc) <= 1 # 100 -> mismatch x calc err warn = noFindings.
Proof.
  intro H. unfold mismatch, Math_abs.
  replace (Qltb (fl (1 # 100)) (Qabs (fsub x calc))) with false; [ reflexivity | ].
  symmetry. apply Qltb_ge. now apply fsub_close.
Qed.

(** It reports no error when the amounts are within 0.04 of each
    other and the calculated one is at least 1. *)
Lemma mismatch_small (x calc : Q) (err warn : Q -> Q -> Message) :
  1 <= calc -> Qabs (x - calc) <= 4 # 100 ->
  fst (mismatch x calc err warn) = [].
Proof.
  intros Hc H. unfold mismatch, Math_abs, ratioExceeds.
  destruct (Qltb (fl (1 # 100)) (Qabs (fsub x calc))); [ | reflexivity ].
  rewrite Qzerob_false by lra.
  replace (Qltb (fl (5 # 100)) (fdiv (Qabs (fsub x calc)) calc)) with false;
    [ reflexivity | ].
  symmetry. apply Qltb_ge.
  pose proof (fsub_close x calc _ H) as Hd.
  pose proof (Qabs_nonneg (fsub x calc)) as H0.
  set (d := Qabs (fsub x calc)) in *. clearbody d.
  assert (Hq : d / calc <= fl (4 # 100)).
  { apply Qle_shift_div_r; [ lra | ].
    assert (0 <= fl (4 # 100)) by (vm_compute; discriminate). nra. }
  unfold fdiv. apply Qle_trans with (fl (fl (4 # 100))).
  - now apply fl_mono.
  - by_computation.
Qed.

Lemma mock_vendor_present (r : Q) :
  0 <= r <= maxRandom -> truthyS (Val (pick r mockVendors)) = true.
Proof.
  intros [H0 H1]. unfold pick, fmul. cbn [mockVendors length].
  change (inject_Z (Z.of_nat 4)) with 4.
  assert (Hp : fl 0 <= fl (r * 4) <= fl (maxRandom * 4)) by (split; apply fl_mono; lra).
  assert (Hmax : fl (maxRandom * 4) < 4) by reflexivity.
  assert (Hz : fl 0 == 0) by reflexivity.
  assert (H : (0 <= Math_floor (fl (r * 4)) < 4)%Z).
  { apply Qfloor_between; [ change (inject_Z 0) with 0 | change (inject_Z 4) with 4 ]; lra. }
  set (z := Math_floor (fl (r * 4))) in *.
  assert (Hcase : (z = 0 \/ z = 1 \/ z = 2 \/ z = 3)%Z) by lia.
  destruct Hcase as [E | [E | [E | E]]]; rewrite E; reflexivity.
Qed.

Lemma mock_required_fields (rnd : nat -> Q) (now now' : Z) :
  (forall k, 0 <= rnd k <= maxRandom) ->
  validateRequiredFields (generateMockInvoiceData rnd now now') = [].
Proof.
  intro Hr. unfold validateRequiredFields, generateMockInvoiceData.
  cbn [vendorName invoiceNumber invoiceDate totalAmount lineItems].
  unfold missingS. rewrite (mock_vendor_present _ (Hr 0%nat)).
  reflexivity.
Qed.

Lemma validateCalculations_no_error (invoice : ExtractedData) (items : list LineItem) :
  lineItems invoice = Val items ->
  fst (lineItemsLoop 0 items) = [] ->
  fst (checkSubtotal invoice (calculatedSubtotal items)) = [] ->
  fst (checkTotal invoice (calculatedSubtotal items)) = [] ->
  fst (validateCalculations invoice) = [].
Proof.
  intros Hitems Hloop Hsub Htotal. unfold validateCalculations. rewrite Hitems.
  destruct items as [ | x rest ]; [ reflexivity | ].
  cbn [both fst snd]. rewrite Hloop, Hsub, Htotal. reflexivity.
Qed.

(** The total of a mock invoice against the expected total of the
    validation: the same sum, up to the rounding of the numbers. *)
Lemma mock_expectedTotal (rnd : nat -> Q) (now now' : Z) (calc : Q) :
  (forall k, 0 <= rnd k <= maxRandom) ->
  Qabs (mockTotalAmount rnd - expectedTotal (generateMockInvoiceData rnd now now') calc)
  <= 1 # 1000000.
Proof.
  intro Hr. unfold expectedTotal.
  change (subtotal (generateMockInvoiceData rnd now now')) with (Val (mockSubtotal rnd)).
  change (taxAmount (generateMockInvoiceData rnd now now')) with (Val (mockTaxAmount rnd)).
  change (discountAmount (generateMockInvoiceData rnd now now')) with (@Val Q 0).
  change (shippingAmount (generateMockInvoiceData rnd now now')) with (@Val Q 0).
  destruct (mockSubtotal_near rnd Hr) as [_ [Hs1 Hs2]].
  destruct (mockTaxAmount_bounds rnd Hr) as (_ & [Ht1 Ht2] & _).
  destruct (mockTotalAmount_sum rnd Hr) as (Hsum & _ & _).
  apply Qabs_Qle_condition in Hsum.
  rewrite (truthyN_pos (mockSubtotal rnd)) by lra. cbn [num].
  change (orZero (Val 0)) with 0.
  pose proof (orZero_Val (mockTaxAmount rnd)) as Ex.
  set (tax := orZero (Val (mockTaxAmount rnd))) in *. clearbody tax.
  set (sub := mockSubtotal rnd) in *. set (t := mockTaxAmount rnd) in *.
  set (total := mockTotalAmount rnd) in *. clearbody sub t total.
  unfold fadd, fsub.
  pose proof (fl_small (sub + tax) ltac:(split; lra)) as H1.
  set (e1 := fl (sub + tax)) in *. clearbody e1.
  pose proof (fl_small (e1 - 0) ltac:(split; lra)) as H2.
  set (e2 := fl (e1 - 0)) in *. clearbody e2.
  pose proof (fl_small (e2 + 0) ltac:(split; lra)) as H3.
  set (e3 := fl (e2 + 0)) in *. clearbody e3.
  apply Qabs_Qle_condition. split; lra.
Qed.

Lemma mock_calculations (rnd : nat -> Q) (now now' : Z) :
  (forall k, 0 <= rnd k <= maxRandom) ->
  fst (validateCalculations (generateMockInvoiceData rnd now now')) = [].
Proof.
  intro Hr.
  destruct (mockLineItems_sum rnd Hr) as [Hsum Hcalc].
  destruct (mockSubtotal_near rnd Hr) as [_ [Hs1 Hs2]].
  apply (validateCalculations_no_error _ (mockLineItems rnd)).
  - reflexivity.
  - now apply mockLineItems_no_error.
  - set (calc := calculatedSubtotal (mockLineItems rnd)) in *.
    unfold checkSubtotal.
    change (subtotal (generateMockInvoiceData rnd now now')) with (Val (mockSubtotal rnd)).
    rewrite truthyN_pos by lra. cbn [num].
    apply mismatch_small; [ lra | ].
    apply Qabs_Qle_condition in Hsum. apply Qabs_Qle_condition. split; lra.
  - unfold checkTotal.
    change (totalAmount (generateMockInvoiceData rnd now now')) with (Val (mockTotalAmount rnd)).
    destruct (truthyN (Val (mockTotalAmount rnd))); [ | reflexivity ].
    rewrite mismatch_close; [ reflexivity | ]. cbn [num].
    pose proof (mock_expectedTotal rnd now now' (calculatedSubtotal (mockLineItems rnd)) Hr)
      as H.
    eapply Qle_trans; [ exact H | discriminate ].
Qed.

Lemma mock_formats (rnd : nat -> Q) (now now' vnow : Z) :
  fst (validateFormats vnow (generateMockInvoiceData rnd now now')) = [].
Proof. reflexivity. Qed.

Lemma mock_business_rules (rnd : nat -> Q) (now now' : Z) :
  (forall k, 0 <= rnd k <= maxRandom) -> (now <= now')%Z ->
  fst (validateBusinessRules (generateMockInvoiceData rnd now now')) = [].
Proof.
  intros Hr Hnow. unfold validateBusinessRules.
  change (totalAmount (generateMockInvoiceData rnd now now')) with (Val (mockTotalAmount rnd)).
  change (discountAmount (generateMockInvoiceData rnd now now')) with (@Val Q 0).
  change (invoiceDate (generateMockInvoiceData rnd now now')) with (DateAt now).
  change (dueDate (generateMockInvoiceData rnd now now'))
    with (DateAt (now' + 30 * 24 * 60 * 60 * 1000)%Z).
  destruct (mockTotalAmount_sum rnd Hr) as (_ & _ & Hpos).
  rewrite (truthyN_pos (mockTotalAmount rnd)) by lra.
  cbn [truthyD dueBeforeInvoice truthyN andb num both fst snd app].
  replace (now' + 30 * 24 * 60 * 60 * 1000 <? now)%Z with false
    by (symmetry; apply Z.ltb_ge; lia).
  replace (Qleb (mockTotalAmount rnd) 0) with false.
  - reflexivity.
  - symmetry. destruct (Qleb (mockTotalAmount rnd) 0) eqn:E; [ | reflexivity ].
    apply Qleb_le in E. lra.
Qed.

(** Validation finds no error in a mock invoice. *)
Lemma mock_no_errors (rnd : nat -> Q) (now now' vnow : Z) :
  (forall k, 0 <= rnd k <= maxRandom) -> (now <= now')%Z ->
  errors (validateInvoice vnow (generateMockInvoiceData rnd now now')) = [].
Proof.
  intros Hr Hnow. unfold validateInvoice, findings. cbn [errors fst snd both].
  rewrite (mock_required_fields rnd now now' Hr), (mock_calculations rnd now now' Hr),
    (mock_formats rnd now now' vnow), (mock_business_rules rnd now now' Hr Hnow).
  reflexivity.
Qed.

(** The confidence of a mock invoice lies between the numbers 0.85
    and 0.95, ends included. *)
Lemma mock_confidence (r : Q) :
  0 <= r <= maxRandom ->
  fl (85 # 100) <= fadd (fl (85 # 100)) (fmul r (fl (10 # 100))) <= fl (95 # 100).
Proof.
  intros [H0 H1]. unfold fadd, fmul.
  assert (Hc : 0 <= fl (10 # 100)) by (vm_compute; discriminate).
  assert (Hp : fl 0 <= fl (r * fl (10 # 100)) <= fl (maxRandom * fl (10 # 100)))
    by (split; apply fl_mono; nra).
  assert (Hz : fl 0 == 0) by reflexivity.
  assert (Hlo : fl (fl (85 # 100)) <= fl (fl (85 # 100) + fl (r * fl (10 # 100))))
    by (apply fl_mono; lra).
  assert (Hhi : fl (fl (85 # 100) + fl (r * fl (10 # 100)))
                <= fl (fl (85 # 100) + fl (maxRandom * fl (10 # 100))))
    by (apply fl_mono; lra).
  assert (E1 : fl (fl (85 # 100)) == fl (85 # 100)) by reflexivity.
  assert (E2 : fl (fl (85 # 100) + fl (maxRandom * fl (10 # 100))) <= fl (95 # 100))
    by by_computation.
  split; lra.
Qed.

(** An authentication failure, or a missing key, makes the attempt
    return the mock invoice. *)
Lemma attempt_falls_back (cfg : Config) (env : Env) (a : Z) (e : JsError) :
  api env a = ApiRejects e ->
  looksLikeAuthFailure e = true ->
  attempt cfg env a
  = inr (generateMockInvoiceData (random env) (clock env) (clock' env)).
Proof.
  intros Hapi Hauth. unfold attempt, extractInvoiceData.
  destruct (keyNotConfigured cfg); [ reflexivity | ].
  now rewrite Hapi, Hauth.
Qed.

Lemma extractWithRetry_first_success (cfg : Config) (env : Env) (d : ExtractedData) :
  (1 <= retryAttempts cfg)%Z ->
  attempt cfg env 1 = inr d ->
  extractionOutcome cfg env = inr d.
Proof.
  intros HN Ha. unfold extractionOutcome, extractWithRetry.
  destruct (Z.to_nat (retryAttempts cfg)) as [ | r ] eqn:E; [ lia | ].
  now rewrite (retryLoop_success _ _ _ _ _ _ _ Ha).
Qed.

Lemma sampleRandom_range (k : nat) : 0 <= sampleRandom k <= maxRandom.
Proof.
  unfold sampleRandom.
  destruct (Nat.eqb k 2); [ | destruct (Nat.eqb k 8) ];
    (split; discriminate).
Qed.

(** The sample invoice: a subtotal of 5000.01 against items that add
    up to 5000, a tax of 900 and a total of 5900.01. *)
Example sampleRandom_amounts :
  let d := generateMockInvoiceData sampleRandom 0 0 in
  num (subtotal d) = fl (500001 # 100)
  /\ calculatedSubtotal (mockLineItems sampleRandom) = 5000
  /\ num (taxAmount d) = 900
  /\ num (totalAmount d) = fl (590001 # 100).
Proof. vm_compute. repeat split. Qed.

(** C7 as stated fails: the subtotal of a mock invoice need not be the
    sum of its line-item amounts. *)
Lemma mock_subtotal_not_exact :
  ~ (forall (rnd : nat -> Q) (now now' : Z),
        (forall k, 0 <= rnd k <= maxRandom) -> (now <= now')%Z ->
        let d := generateMockInvoiceData rnd now now' in
        forall items, lineItems d = Val items ->
                      num (subtotal d) == calculatedSubtotal items).
Proof.
  intro H.
  specialize (H sampleRandom 0%Z 0%Z sampleRandom_range (Z.le_refl 0)
                (mockLineItems sampleRandom) eq_refl).
  vm_compute in H. discriminate H.
Qed.

(** C7, amended.  For random numbers in [0, 1), a mock invoice has line
    items whose amount is quantity x unit price up to the rounding of
    the numbers; its subtotal is within 0.026 of the sum of their
    amounts; its tax amount is within 0.0051 of 18% of the subtotal;
    its total is subtotal + tax up to the rounding of the numbers; its
    confidence lies between the numbers 0.85 and 0.95, ends included;
    validation finds no error in it, and a job whose extraction falls
    back to it on an authentication failure ends [completed] when the
    database accepts the row. *)
Theorem mock_invoice_consistent (rnd : nat -> Q) (now now' : Z) :
  (forall k, 0 <= rnd k <= maxRandom) ->
  (now <= now')%Z ->
  let d := generateMockInvoiceData rnd now now' in
  (exists items,
      lineItems d = Val items
      /\ (forall it, In it items ->
                     Qabs (num (amount it) - num (quantity it) * num (unitPrice it))
                     <= 1 # 1000000)
      /\ Qabs (num (subtotal d) - calculatedSubtotal items) <= 26 # 1000)
  /\ Qabs (num (taxAmount d) - (18 # 100) * num (subtotal d)) <= 51 # 10000
  /\ Qabs (num (totalAmount d) - (num (subtotal d) + num (taxAmount d)))
     <= 1 # 100000000
  /\ (fl (85 # 100) <= num (confidenceScore d) <= fl (95 # 100))
  /\ (forall vnow, errors (validateInvoice vnow d) = [])
  /\ (forall cfg env invoiceId invoice s e,
        random env = rnd -> clock env = now -> clock' env = now' ->
        (1 <= retryAttempts cfg)%Z ->
        api env 1%Z = ApiRejects e ->
        looksLikeAuthFailure e = true ->
        store s !! invoiceId = Some invoice ->
        Invoice.id invoice = invoiceId ->
        document env = None ->
        refusal env (savedRow env invoice d) = None ->
        exists row,
          store (snd (processInvoice cfg env invoiceId s)) !! invoiceId = Some row
          /\ Invoice.rawExtractionData row = Some d
          /\ Invoice.status row = completed).
Proof.
  intros Hr Hnow d. split; [ | split; [ | split; [ | split; [ | split ] ] ] ].
  - exists (mockLineItems rnd). split; [ reflexivity | split ].
    + intros it Hin. now apply (mockLineItems_amounts rnd).
    + exact (proj1 (mockLineItems_sum rnd Hr)).
  - exact (proj1 (mockTaxAmount_bounds rnd Hr)).
  - exact (proj1 (mockTotalAmount_sum rnd Hr)).
  - exact (mock_confidence (rnd 11%nat) (Hr 11%nat)).
  - intro vnow. now apply mock_no_errors.
  - intros cfg env invoiceId invoice s e Hrnd Hc Hc' HN Hapi Hauth Hfound Hid Hdoc Hdb.
    pose proof (attempt_falls_back cfg env 1 e Hapi Hauth) as Ha.
    rewrite Hrnd, Hc, Hc' in Ha. fold d in Ha.
    pose proof (extractWithRetry_first_success cfg env d HN Ha) as Hout.
    destruct (processInvoice_success cfg env invoiceId invoice d s
                Hfound Hid Hdoc Hout Hdb) as (_ & Hstore & _).
    exists (processedRow env invoice d). rewrite Hstore.
    split; [ apply lookup_insert_eq | split ].
    + unfold processedRow. now destruct (truthyS (Invoice.webhookUrl invoice)).
    + rewrite (proj1 (processedRow_status env invoice d)).
      apply finalStatus_cases. now apply mock_no_errors.
Qed.

Lemma mock_invoice_consistent_witness :
  errors (validateInvoice 0 (generateMockInvoiceData sampleRandom 0 0)) = []
  /\ exists row,
       store (snd (processInvoice liveConfig
                     {| document := None; api := fun _ => ApiRejects unauthorized;
                        random := sampleRandom; clock := 0%Z; clock' := 0%Z;
                        validatedAt := 0%Z; elapsed := 1200%Z;
                        dbAccepts := fun _ => true;
                        dbError := fun _ => databaseError |}
                     "inv-1" oneInvoice)) !! "inv-1"%string = Some row
       /\ Invoice.rawExtractionData row = Some (generateMockInvoiceData sampleRandom 0 0)
       /\ Invoice.status row = completed.
Proof.
  pose proof (mock_invoice_consistent sampleRandom 0 0 sampleRandom_range (Z.le_refl 0))
    as H.
  cbv zeta in H. destruct H as (_ & _ & _ & _ & Herr & Hjob).
  split.
  - apply Herr.
  - apply (Hjob liveConfig _ "inv-1"%string (Invoice.create "inv-1" "uploads/a.pdf" Null)
             oneInvoice unauthorized); try reflexivity.
    vm_compute. discriminate.
Defined.

(* ===================================================================== *)
(** * Further properties of the services *)
(* ===================================================================== *)

(** ** Every outcome of the retry loop *)

(** The loop calls the extraction at consecutive attempt numbers, and
    at most once per iteration. *)
Lemma retryLoop_calls (cfg : Config) (env : Env) (remaining : nat) :
  forall (a : Z) (last : Thrown),
  exists r evs,
    (forall s, retryLoop cfg env remaining a last s = (r, addTrace evs s))
    /\ (length (extractCalls evs) <= remaining)%nat
    /\ extractCalls evs = seqZ a (Z.of_nat (length (extractCalls evs)))
    /\ (length (delaysOf evs) <= length (extractCalls evs))%nat.
Proof.
  induction remaining as [ | n IH ]; intros a last.
  - exists (inl last), []. repeat split; auto.
    intro s. simpl. unfold throw. now rewrite addTrace_nil.
  - destruct (attempt cfg env a) as [ e | d ] eqn:Ha.
    + destruct (IH (a + 1)%Z (ThrownError e)) as (r & evs & Hrun & Hlen & Hseq & Hdel).
      exists r, (failedAttempt cfg a ++ evs).
      assert (Hc : extractCalls (failedAttempt cfg a ++ evs) = a :: extractCalls evs).
      { rewrite extractCalls_app. unfold failedAttempt.
        destruct (a <? retryAttempts cfg)%Z; reflexivity. }
      assert (Hd : (length (delaysOf (failedAttempt cfg a ++ evs))
                    <= S (length (delaysOf evs)))%nat).
      { rewrite delaysOf_app, length_app. unfold failedAttempt.
        destruct (a <? retryAttempts cfg)%Z; simpl; lia. }
      rewrite Hc. cbn [length]. repeat split.
      * intro s. rewrite (retryLoop_failure _ _ _ _ _ _ _ Ha), Hrun.
        now rewrite addTrace_app.
      * lia.
      * rewrite seqZ_cons by lia.
        replace (Z.pred (Z.of_nat (S (length (extractCalls evs)))))
          with (Z.of_nat (length (extractCalls evs))) by lia.
        replace (Z.succ a) with (a + 1)%Z by lia.
        now rewrite <- Hseq.
      * lia.
    + exists (inr d), [EvExtract a]. repeat split.
      * intro s. now apply retryLoop_success.
      * simpl. lia.
      * simpl. lia.
Qed.

(** X1.  Whatever the model API does, [extractWithRetry] calls the
    extraction at attempts 1, 2, ... without a gap, at most
    [retryAttempts] times, and awaits at most one delay per call. *)
Theorem extractWithRetry_call_bound (cfg : Config) (env : Env) :
  let calls := extractCalls (extractionEvents cfg env) in
  (length calls <= Z.to_nat (retryAttempts cfg))%nat
  /\ calls = seqZ 1 (Z.of_nat (length calls))
  /\ (length (delaysOf (extractionEvents cfg env)) <= length calls)%nat.
Proof.
  cbv zeta. unfold extractionEvents, extractWithRetry.
  destruct (retryLoop_calls cfg env (Z.to_nat (retryAttempts cfg)) 1 ThrownUndefined)
    as (r & evs & Hrun & Hlen & Hseq & Hdel).
  rewrite Hrun. cbn [snd addTrace trace init app]. now repeat split.
Qed.

(** X2.  [extractWithRetry] stops at the first attempt that returns
    data: when attempts 1 to k fail and attempt k + 1, still within the
    budget, returns [d], the result is [d] after exactly k + 1 calls
    and the k delays 1 x [retryDelayMs], ..., k x [retryDelayMs]. *)
Theorem extractWithRetry_first_success_after (cfg : Config) (env : Env)
        (err : Z -> JsError) (k : Z) (d : ExtractedData) :
  (0 <= k < retryAttempts cfg)%Z ->
  (forall a, (1 <= a <= k)%Z -> attempt cfg env a = inl (err a)) ->
  attempt cfg env (k + 1)%Z = inr d ->
  extractionOutcome cfg env = inr d
  /\ extractionEvents cfg env
     = failedAttempts cfg (Z.to_nat k) 1 ++ [EvExtract (k + 1)%Z]
  /\ extractCalls (extractionEvents cfg env) = seqZ 1 (k + 1)
  /\ delaysOf (extractionEvents cfg env)
     = map (fun n => retryDelayMs cfg * n)%Z (seqZ 1 k).
Proof.
  intros Hk Hfail Hok.
  assert (Hrun : extractWithRetry cfg env (init ∅)
                 = (inr d, addTrace (failedAttempts cfg (Z.to_nat k) 1
                                     ++ [EvExtract (k + 1)%Z]) (init ∅))).
  { unfold extractWithRetry.
    destruct (Z.to_nat k) as [ | k' ] eqn:Ek.
    - assert (k = 0%Z) by lia. subst k.
      destruct (Z.to_nat (retryAttempts cfg)) as [ | r ] eqn:Er; [ lia | ].
      now rewrite (retryLoop_success _ _ _ _ _ _ _ Hok).
    - replace (Z.to_nat (retryAttempts cfg))
        with (S k' + S (Z.to_nat (retryAttempts cfg - k - 1)))%nat by lia.
      rewrite (retryLoop_failures cfg env err k' _ 1 ThrownUndefined (init ∅))
        by (intros j Hj; apply Hfail; lia).
      replace (1 + Z.of_nat (S k'))%Z with (k + 1)%Z by lia.
      rewrite (retryLoop_success _ _ _ _ _ _ _ Hok).
      now rewrite addTrace_app. }
  unfold extractionOutcome, extractionEvents. rewrite Hrun.
  cbn [fst snd addTrace trace init app].
  repeat split.
  - rewrite extractCalls_app, extractCalls_failedAttempts. cbn [extractCalls flat_map app].
    rewrite Z2Nat.id by lia.
    replace (k + 1)%Z with (Z.of_nat (S (Z.to_nat k))) at 2 by lia.
    rewrite seqZ_S, Z2Nat.id by lia.
    replace (1 + k)%Z with (k + 1)%Z by lia. reflexivity.
  - rewrite delaysOf_app, delaysOf_failedAttempts_below by lia.
    cbn [delaysOf flat_map app]. rewrite app_nil_r, Z2Nat.id by lia. reflexivity.
Qed.

Lemma extractWithRetry_first_success_after_witness :
  extractionOutcome liveConfig thirdTimeLucky = inr twoWarnings
  /\ extractionEvents liveConfig thirdTimeLucky
     = [EvExtract 1; EvDelay 1000; EvExtract 2; EvDelay 2000; EvExtract 3]
  /\ extractCalls (extractionEvents liveConfig thirdTimeLucky) = [1; 2; 3]%Z
  /\ delaysOf (extractionEvents liveConfig thirdTimeLucky) = [1000; 2000]%Z.
Proof.
  apply (extractWithRetry_first_success_after liveConfig thirdTimeLucky
           (fun _ => timeoutError) 2 twoWarnings).
  - vm_compute. split; [ discriminate | reflexivity ].
  - intros a Ha. assert (Hc : a = 1%Z \/ a = 2%Z) by lia.
    destruct Hc as [-> | ->]; reflexivity.
  - reflexivity.
Defined.

(** ** Every outcome of a [processInvoice] call *)

Lemma tryBlock_not_found (cfg : Config) (env : Env) (invoiceId : string) (s : State) :
  store s !! invoiceId = None ->
  tryCatch (tryBlock cfg env invoiceId) (catchBlock env invoiceId) s
  = (inl (notFound invoiceId), s).
Proof.
  intro Hnone.
  unfold tryCatch, tryBlock, findByPk, bind, get, ret. cbv beta iota.
  rewrite Hnone. unfold throw, notFound, newError, catchBlock, findByPk, bind, get, ret.
  cbv beta iota. rewrite Hnone. reflexivity.
Qed.

Lemma tryBlock_document_error (cfg : Config) (env : Env) (invoiceId : string)
      (invoice : Invoice.t) (e : JsError) (s : State) :
  store s !! invoiceId = Some invoice ->
  Invoice.id invoice = invoiceId ->
  document env = Some e ->
  tryCatch (tryBlock cfg env invoiceId) (catchBlock env invoiceId) s
  = (inl (ThrownError e),
     mkState (<[invoiceId := failedRow env invoice e]> (store s)) (processingQueue s)
       (activeProcessing s) (running s)
       (trace s ++ webhookEvents invoice (InvoiceFailed invoiceId (errMessage e)))).
Proof.
  intros Hfound Hid Hdoc.
  unfold tryCatch, tryBlock, findByPk, bind, get, ret.
  cbv beta iota. rewrite Hfound, Hdoc.
  unfold save, setStore, modify, throw.
  cbn [store processingQueue activeProcessing running trace].
  unfold catchBlock, findByPk, bind, get, ret.
  cbn [store processingQueue activeProcessing running trace Invoice.id Invoice.setStatus].
  rewrite Hid, lookup_insert_eq.
  unfold save, setStore, modify, when, sendWebhook, emit, modify, throw, ret,
    failedRow, webhookEvents.
  cbn [store processingQueue activeProcessing running trace Invoice.id Invoice.webhookUrl
       Invoice.setStatus Invoice.setProcessingTimeMs Invoice.setLastError
       Invoice.setRetryCount Invoice.retryCount].
  rewrite Hid.
  destruct (truthyS (Invoice.webhookUrl invoice)) eqn:Hurl.
  - cbn [store processingQueue activeProcessing running trace].
    rewrite !insert_insert_eq. reflexivity.
  - cbn [store processingQueue activeProcessing running trace].
    rewrite !insert_insert_eq, app_nil_r. reflexivity.
Qed.

Lemma tryBlock_undefined (cfg : Config) (env : Env) (invoiceId : string)
      (invoice : Invoice.t) (s : State) :
  store s !! invoiceId = Some invoice ->
  Invoice.id invoice = invoiceId ->
  document env = None ->
  extractionOutcome cfg env = inl ThrownUndefined ->
  tryCatch (tryBlock cfg env invoiceId) (catchBlock env invoiceId) s
  = (inl typeErrorOnUndefined,
     mkState (<[invoiceId := startedRow invoice]> (store s)) (processingQueue s)
       (activeProcessing s) (running s) (trace s ++ extractionEvents cfg env)).
Proof.
  intros Hfound Hid Hdoc Hout.
  unfold tryCatch, tryBlock, findByPk, bind, get, ret.
  cbv beta iota. rewrite Hfound, Hdoc.
  unfold save, setStore, modify.
  cbn [store processingQueue activeProcessing running trace].
  rewrite extractWithRetry_run, Hout.
  unfold catchBlock, throw, addTrace, startedRow.
  cbn [store processingQueue activeProcessing running trace Invoice.id Invoice.setStatus].
  rewrite Hid. reflexivity.
Qed.

(** A whole call frames the table and the trace of its [try] and
    [catch] blocks. *)
Lemma processInvoice_frame (cfg : Config) (env : Env) (invoiceId : string)
      (s s1 : State) (r : Thrown + Invoice.t) :
  tryCatch (tryBlock cfg env invoiceId) (catchBlock env invoiceId)
    (snd (enter invoiceId s)) = (r, s1) ->
  fst (processInvoice cfg env invoiceId s) = r
  /\ store (snd (processInvoice cfg env invoiceId s)) = store s1
  /\ trace (snd (processInvoice cfg env invoiceId s)) = trace s1.
Proof. intro H. unfold processInvoice. now apply settle_frame. Qed.

(** X3.  Processing an id that is not in the table throws
    "Invoice <id> not found", writes nothing, calls nothing, and gives
    the slot back: the counter is decremented and the queue is drained
    as after any other call. *)
Theorem processInvoice_unknown_id (cfg : Config) (env : Env) (invoiceId : string)
        (s : State) :
  store s !! invoiceId = None ->
  let s' := snd (processInvoice cfg env invoiceId s) in
  fst (processInvoice cfg env invoiceId s) = inl (notFound invoiceId)
  /\ store s' = store s
  /\ trace s' = trace s
  /\ sched s'
     = drain cfg (processingQueue s) (activeProcessing s + 1 - 1)%Z
         (removeFirst invoiceId (running s ++ [invoiceId])).
Proof.
  intro Hnone. cbv zeta.
  pose proof (tryBlock_not_found cfg env invoiceId (snd (enter invoiceId s)) Hnone) as H.
  apply processInvoice_frame in H. destruct H as (Hr & Hs & Ht).
  repeat split; try assumption.
  unfold processInvoice. now rewrite settle_sched.
Qed.

Lemma processInvoice_unknown_id_witness :
  let s' := snd (processInvoice liveConfig (constEnv (ApiReturns twoWarnings))
                   "inv-404" oneInvoice) in
  fst (processInvoice liveConfig (constEnv (ApiReturns twoWarnings))
         "inv-404" oneInvoice) = inl (notFound "inv-404")
  /\ store s' = store oneInvoice
  /\ trace s' = []
  /\ sched s' = ([], 0%Z, []).
Proof.
  apply (processInvoice_unknown_id liveConfig (constEnv (ApiReturns twoWarnings))
           "inv-404" oneInvoice).
  reflexivity.
Defined.

(** X4.  When the document conversion throws, no extraction call is
    made: the job is [failed] at once with the message of that error
    and its retry count incremented, and the only event is the failure
    notification, if the invoice has a URL. *)
Theorem processInvoice_document_error (cfg : Config) (env : Env) (invoiceId : string)
        (invoice : Invoice.t) (e : JsError) (s : State) :
  store s !! invoiceId = Some invoice ->
  Invoice.id invoice = invoiceId ->
  document env = Some e ->
  let s' := snd (processInvoice cfg env invoiceId s) in
  fst (processInvoice cfg env invoiceId s) = inl (ThrownError e)
  /\ trace s' = trace s ++ webhookEvents invoice (InvoiceFailed invoiceId (errMessage e))
  /\ extractCalls (trace s') = extractCalls (trace s)
  /\ delaysOf (trace s') = delaysOf (trace s)
  /\ exists row,
       store s' !! invoiceId = Some row
       /\ Invoice.status row = failed
       /\ Invoice.lastError row = Some (errMessage e)
       /\ Invoice.retryCount row = (Invoice.retryCount invoice + 1)%Z
       /\ Invoice.rawExtractionData row = Invoice.rawExtractionData invoice.
Proof.
  intros Hfound Hid Hdoc. cbv zeta.
  pose proof (tryBlock_document_error cfg env invoiceId invoice e
                (snd (enter invoiceId s)) Hfound Hid Hdoc) as H.
  apply processInvoice_frame in H. destruct H as (Hr & Hs & Ht).
  cbn [store trace] in Hs, Ht. change (trace (snd (enter invoiceId s))) with (trace s) in Ht.
  change (store (snd (enter invoiceId s))) with (store s) in Hs.
  rewrite Ht, Hs.
  assert (Hhook : forall p, extractCalls (webhookEvents invoice p) = []
                            /\ delaysOf (webhookEvents invoice p) = []).
  { intro p. unfold webhookEvents.
    destruct (truthyS (Invoice.webhookUrl invoice)); now split. }
  repeat split; try assumption.
  - now rewrite extractCalls_app, (proj1 (Hhook _)), app_nil_r.
  - now rewrite delaysOf_app, (proj2 (Hhook _)), app_nil_r.
  - exists (failedRow env invoice e). split; [ apply lookup_insert_eq | now repeat split ].
Qed.

Lemma processInvoice_document_error_witness :
  let s' := snd (processInvoice liveConfig brokenDocument "inv-1" oneInvoice) in
  fst (processInvoice liveConfig brokenDocument "inv-1" oneInvoice)
  = inl (ThrownError unreadable)
  /\ trace s' = []
  /\ extractCalls (trace s') = []
  /\ delaysOf (trace s') = []
  /\ exists row,
       store s' !! "inv-1"%string = Some row
       /\ Invoice.status row = failed
       /\ Invoice.lastError row = Some "Unsupported file format: .docx"%string
       /\ Invoice.retryCount row = 1%Z
       /\ Invoice.rawExtractionData row = None.
Proof.
  apply (processInvoice_document_error liveConfig brokenDocument "inv-1"
           (Invoice.create "inv-1" "uploads/a.pdf" Null) unreadable oneInvoice);
    reflexivity.
Defined.

Lemma extractWithRetry_no_budget (cfg : Config) (env : Env) :
  (retryAttempts cfg <= 0)%Z ->
  extractionOutcome cfg env = inl ThrownUndefined
  /\ extractionEvents cfg env = [].
Proof.
  intro HN. unfold extractionOutcome, extractionEvents, extractWithRetry.
  replace (Z.to_nat (retryAttempts cfg)) with 0%nat by lia.
  now split.
Qed.

(** X5.  With a retry budget of zero or less the loop body never runs:
    no extraction call is made, [extractWithRetry] throws [undefined],
    the [catch] block fails on reading its message, and the row is left
    in status [processing], neither failed nor completed, with its retry
    count and last error untouched. *)
Theorem processInvoice_no_budget (cfg : Config) (env : Env) (invoiceId : string)
        (invoice : Invoice.t) (s : State) :
  (retryAttempts cfg <= 0)%Z ->
  store s !! invoiceId = Some invoice ->
  Invoice.id invoice = invoiceId ->
  document env = None ->
  let s' := snd (processInvoice cfg env invoiceId s) in
  fst (processInvoice cfg env invoiceId s) = inl typeErrorOnUndefined
  /\ trace s' = trace s
  /\ exists row,
       store s' !! invoiceId = Some row
       /\ Invoice.status row = processing
       /\ Invoice.retryCount row = Invoice.retryCount invoice
       /\ Invoice.lastError row = Invoice.lastError invoice.
Proof.
  intros HN Hfound Hid Hdoc. cbv zeta.
  destruct (extractWithRetry_no_budget cfg env HN) as [Hout Hevs].
  pose proof (tryBlock_undefined cfg env invoiceId invoice
                (snd (enter invoiceId s)) Hfound Hid Hdoc Hout) as H.
  apply processInvoice_frame in H. destruct H as (Hr & Hs & Ht).
  cbn [store trace] in Hs, Ht. rewrite Hevs, app_nil_r in Ht.
  change (trace (snd (enter invoiceId s))) with (trace s) in Ht.
  change (store (snd (enter invoiceId s))) with (store s) in Hs.
  rewrite Hs. repeat split; try assumption.
  exists (startedRow invoice). split; [ apply lookup_insert_eq | now repeat split ].
Qed.

Lemma processInvoice_no_budget_witness :
  let s' := snd (processInvoice noAttempts (constEnv (ApiReturns twoWarnings))
                   "inv-1" oneInvoice) in
  fst (processInvoice noAttempts (constEnv (ApiReturns twoWarnings)) "inv-1" oneInvoice)
  = inl typeErrorOnUndefined
  /\ trace s' = []
  /\ exists row,
       store s' !! "inv-1"%string = Some row
       /\ Invoice.status row = processing
       /\ Invoice.retryCount row = 0%Z
       /\ Invoice.lastError row = None.
Proof.
  apply (processInvoice_no_budget noAttempts (constEnv (ApiReturns twoWarnings)) "inv-1"
           (Invoice.create "inv-1" "uploads/a.pdf" Null) oneInvoice).
  - vm_compute. discriminate.
  - reflexivity.
  - reflexivity.
  - reflexivity.
Defined.

(** ** What a step does to the table *)

Lemma processedRow_fields (env : Env) (invoice : Invoice.t) (d : ExtractedData) :
  Invoice.id (processedRow env invoice d) = Invoice.id invoice
  /\ Invoice.filePath (processedRow env invoice d) = Invoice.filePath invoice
  /\ Invoice.webhookUrl (processedRow env invoice d) = Invoice.webhookUrl invoice.
Proof.
  unfold processedRow. destruct (truthyS (Invoice.webhookUrl invoice)); now repeat split.
Qed.

(** The [try] and [catch] blocks write at most the row they were called
    for, and keep its key, file and URL. *)
Lemma body_rows (cfg : Config) (env : Env) (invoiceId : string) (s : State) :
  keyed (store s) ->
  let s1 := snd (tryCatch (tryBlock cfg env invoiceId) (catchBlock env invoiceId) s) in
  store s1 = store s
  \/ exists invoice row,
       store s !! invoiceId = Some invoice
       /\ store s1 = <[invoiceId := row]> (store s)
       /\ Invoice.id row = invoiceId
       /\ Invoice.filePath row = Invoice.filePath invoice
       /\ Invoice.webhookUrl row = Invoice.webhookUrl invoice.
Proof.
  intros Hkeyed. cbv zeta.
  destruct (store s !! invoiceId) as [ invoice | ] eqn:Hfound.
  - pose proof (Hkeyed _ _ Hfound) as Hid. right. exists invoice.
    destruct (document env) as [ e | ] eqn:Hdoc.
    + rewrite (tryBlock_document_error cfg env invoiceId invoice e s Hfound Hid Hdoc).
      exists (failedRow env invoice e). now repeat split.
    + destruct (extractionOutcome cfg env) as [ [ e | ] | d ] eqn:Hout.
      * pose proof (tryBlock_failure cfg env invoiceId invoice e s Hfound Hid Hdoc Hout)
          as H. cbv zeta in H. rewrite H.
        exists (failedRow env invoice e). now repeat split.
      * rewrite (tryBlock_undefined cfg env invoiceId invoice s Hfound Hid Hdoc Hout).
        exists (startedRow invoice). now repeat split.
      * destruct (refusal env (savedRow env invoice d)) as [ e | ] eqn:Hdb.
        -- pose proof (tryBlock_refused cfg env invoiceId invoice d e s
                         Hfound Hid Hdoc Hout Hdb) as H.
           cbv zeta in H. rewrite H.
           exists (failedRow env invoice e). now repeat split.
        -- pose proof (tryBlock_success cfg env invoiceId invoice d s
                         Hfound Hid Hdoc Hout Hdb) as H.
           cbv zeta in H. rewrite H.
           exists (processedRow env invoice d).
           destruct (processedRow_fields env invoice d) as (H1 & H2 & H3).
           repeat split; try assumption. now rewrite H1.
  - left. now rewrite (tryBlock_not_found cfg env invoiceId s Hfound).
Qed.

Lemma queueInvoice_store (cfg : Config) (invoice : Invoice.t) (s : State) :
  store (snd (queueInvoice cfg invoice s)) = store s
  /\ trace (snd (queueInvoice cfg invoice s)) = trace s.
Proof.
  unfold queueInvoice, processQueue, bind, modify, ret. cbv beta iota.
  cbn [store processingQueue activeProcessing running trace snd].
  destruct (drain cfg (processingQueue s ++ [Invoice.id invoice])
              (activeProcessing s) (running s)) as [[q a] r].
  now split.
Qed.

(** The table after a step: unchanged, or one row rewritten in place. *)
Lemma step_rows (cfg : Config) (s s' : State) :
  keyed (store s) ->
  step cfg s s' ->
  store s' = store s
  \/ exists invoiceId invoice row,
       store s !! invoiceId = Some invoice
       /\ store s' = <[invoiceId := row]> (store s)
       /\ Invoice.id row = invoiceId
       /\ Invoice.filePath row = Invoice.filePath invoice
       /\ Invoice.webhookUrl row = Invoice.webhookUrl invoice.
Proof.
  intros Hkeyed Hstep.
  destruct Hstep as [ invoice s | env invoiceId s Hin | invoiceId s ].
  - left. apply queueInvoice_store.
  - pose proof (body_rows cfg env invoiceId s Hkeyed) as H. cbv zeta in H.
    destruct (tryCatch (tryBlock cfg env invoiceId) (catchBlock env invoiceId) s)
      as [r s1] eqn:Hbody.
    destruct (settle_frame cfg env invoiceId s s1 r Hbody) as (_ & Hs & _).
    rewrite Hs. cbn [snd] in H.
    destruct H as [H | (invoice & row & H)]; [ now left | right ].
    now exists invoiceId, invoice, row.
  - unfold retryInvoice, findByPk, bind, get, ret. cbv beta iota.
    destruct (store s !! invoiceId) as [ invoice | ] eqn:Hfound; [ | now left ].
    pose proof (Hkeyed _ _ Hfound) as Hid.
    destruct (Invoice.status invoice); try (now left).
    right. exists invoiceId, invoice,
             (Invoice.setLastError None (Invoice.setStatus pending invoice)).
    unfold save, setStore, modify. cbv beta iota.
    set (row := Invoice.setLastError None (Invoice.setStatus pending invoice)).
    set (s1 := mkState _ _ _ _ _).
    destruct (queueInvoice_store cfg row s1) as [Hs _].
    destruct (queueInvoice cfg row s1) as [[e | a] s2]; cbn [snd] in *;
      rewrite Hs; subst s1; cbn [store Invoice.id row Invoice.setLastError Invoice.setStatus];
      rewrite Hid; now repeat split.
Qed.

(** X6.  No step of the service deletes or adds a row, moves a row to
    another key, or touches the file path or the notification URL of a
    row; a step rewrites at most one row. *)
Theorem step_keeps_rows (cfg : Config) (s s' : State) :
  keyed (store s) ->
  step cfg s s' ->
  keyed (store s')
  /\ (forall k, is_Some (store s' !! k) <-> is_Some (store s !! k))
  /\ (forall k row', store s' !! k = Some row' ->
        exists row, store s !! k = Some row
                    /\ Invoice.filePath row' = Invoice.filePath row
                    /\ Invoice.webhookUrl row' = Invoice.webhookUrl row)
  /\ (exists invoiceId, forall k, k <> invoiceId -> store s' !! k = store s !! k).
Proof.
  intros Hkeyed Hstep.
  destruct (step_rows cfg s s' Hkeyed Hstep)
    as [Heq | (invoiceId & invoice & row & Hfound & Heq & Hid & Hpath & Hurl)];
    rewrite Heq.
  - repeat split; try tauto.
    + intros k row' H. now exists row'.
    + now exists EmptyString.
  - repeat split.
    + intros k row' H. destruct (decide (invoiceId = k)) as [-> | Hne].
      * rewrite lookup_insert_eq in H. now inversion H; subst.
      * rewrite lookup_insert_ne in H by exact Hne. now apply Hkeyed.
    + intro H. destruct (decide (invoiceId = k)) as [-> | Hne].
      * now rewrite Hfound.
      * now rewrite lookup_insert_ne in H.
    + intro H. destruct (decide (invoiceId = k)) as [-> | Hne].
      * now rewrite lookup_insert_eq.
      * now rewrite lookup_insert_ne.
    + intros k row' H. destruct (decide (invoiceId = k)) as [-> | Hne].
      * rewrite lookup_insert_eq in H. inversion H; subst row'.
        now exists invoice.
      * rewrite lookup_insert_ne in H by exact Hne. now exists row'.
    + exists invoiceId. intros k Hne. now rewrite lookup_insert_ne.
Qed.

Lemma twoInvoices_keyed : keyed (store twoInvoices).
Proof.
  intros k row H. unfold twoInvoices, init in H. cbn [store] in H.
  destruct (decide (k = "inv-1"%string)) as [-> | H1].
  - vm_compute in H. now inversion H.
  - destruct (decide (k = "inv-9"%string)) as [-> | H9].
    + vm_compute in H. now inversion H.
    + rewrite lookup_insert_ne in H by congruence.
      rewrite lookup_singleton_ne in H by congruence. discriminate H.
Qed.

Lemma step_keeps_rows_witness :
  let s' := snd (queueInvoice liveConfig notified twoInvoices) in
  let s'' := snd (settle liveConfig (constEnv (ApiRejects timeoutError)) "inv-9" s') in
  keyed (store s'')
  /\ (forall k, is_Some (store s'' !! k) <-> is_Some (store s' !! k))
  /\ (forall k row', store s'' !! k = Some row' ->
        exists row, store s' !! k = Some row
                    /\ Invoice.filePath row' = Invoice.filePath row
                    /\ Invoice.webhookUrl row' = Invoice.webhookUrl row)
  /\ (exists invoiceId, forall k, k <> invoiceId -> store s'' !! k = store s' !! k).
Proof.
  cbv zeta.
  apply (step_keeps_rows liveConfig).
  - rewrite (proj1 (queueInvoice_store liveConfig notified twoInvoices)).
    exact twoInvoices_keyed.
  - apply step_settle. vm_compute. tauto.
Defined.

(** ** Notifications *)

Lemma webhooksOf_app (l1 l2 : list Event) :
  webhooksOf (l1 ++ l2) = webhooksOf l1 ++ webhooksOf l2.
Proof. apply flat_map_app. Qed.

Lemma retryLoop_no_webhook (cfg : Config) (env : Env) (remaining : nat) :
  forall (a : Z) (last : Thrown),
  exists r evs,
    (forall s, retryLoop cfg env remaining a last s = (r, addTrace evs s))
    /\ webhooksOf evs = [].
Proof.
  induction remaining as [ | n IH ]; intros a last.
  - exists (inl last), []. split; [ | reflexivity ].
    intro s. simpl. unfold throw. now rewrite addTrace_nil.
  - destruct (attempt cfg env a) as [ e | d ] eqn:Ha.
    + destruct (IH (a + 1)%Z (ThrownError e)) as (r & evs & Hrun & Hw).
      exists r, (failedAttempt cfg a ++ evs). split.
      * intro s. rewrite (retryLoop_failure _ _ _ _ _ _ _ Ha), Hrun.
        now rewrite addTrace_app.
      * rewrite webhooksOf_app, Hw. unfold failedAttempt.
        destruct (a <? retryAttempts cfg)%Z; reflexivity.
    + exists (inr d), [EvExtract a]. split; [ | reflexivity ].
      intro s. now apply retryLoop_success.
Qed.

Lemma extractionEvents_no_webhook (cfg : Config) (env : Env) :
  webhooksOf (extractionEvents cfg env) = [].
Proof.
  unfold extractionEvents, extractWithRetry.
  destruct (retryLoop_no_webhook cfg env (Z.to_nat (retryAttempts cfg)) 1 ThrownUndefined)
    as (r & evs & Hrun & Hw).
  rewrite Hrun. exact Hw.
Qed.

(** X7.  A run whose extraction returned data or threw an error sends
    exactly one notification when the invoice has a non-empty URL, and
    none otherwise.  The notification goes to that URL and reports what
    was persisted: the final status, score and time of a processed
    invoice (whose row is then marked [webhookSent]), or the recorded
    error of a failed one. *)
Theorem processInvoice_notifies_once (cfg : Config) (env : Env) (invoiceId : string)
        (invoice : Invoice.t) (s : State) :
  store s !! invoiceId = Some invoice ->
  Invoice.id invoice = invoiceId ->
  document env = None ->
  extractionOutcome cfg env <> inl ThrownUndefined ->
  let s' := snd (processInvoice cfg env invoiceId s) in
  exists row,
    store s' !! invoiceId = Some row
    /\ (truthyS (Invoice.webhookUrl invoice) = false ->
        webhooksOf (trace s') = webhooksOf (trace s)
        /\ Invoice.webhookSent row = Invoice.webhookSent invoice)
    /\ (truthyS (Invoice.webhookUrl invoice) = true ->
        exists payload,
          webhooksOf (trace s')
          = webhooksOf (trace s) ++ [(str (Invoice.webhookUrl invoice), payload)]
          /\ ((payload = InvoiceProcessed invoiceId (Invoice.status row)
                           (confidenceScore (Invoice.columns row))
                           (Invoice.processingTimeMs row)
               /\ Invoice.status row <> failed
               /\ Invoice.webhookSent row = true)
              \/ (exists message,
                     payload = InvoiceFailed invoiceId message
                     /\ Invoice.status row = failed
                     /\ Invoice.lastError row = Some message
                     /\ Invoice.webhookSent row = Invoice.webhookSent invoice))).
Proof.
  intros Hfound Hid Hdoc Hdef. cbv zeta.
  pose proof (extractionEvents_no_webhook cfg env) as Hnw.
  destruct (extractionOutcome cfg env) as [ [ e | ] | d ] eqn:Hout;
    [ | contradiction | ].
  - destruct (processInvoice_failure cfg env invoiceId invoice e s Hfound Hid Hdoc Hout)
      as (_ & Hstore & Htrace).
    exists (failedRow env invoice e). rewrite Hstore, Htrace.
    split; [ apply lookup_insert_eq | ].
    rewrite !webhooksOf_app, Hnw. unfold webhookEvents. split; intro Hurl; rewrite Hurl.
    + cbn [webhooksOf flat_map app]. rewrite app_nil_r. now split.
    + eexists. split; [ reflexivity | right ].
      exists (errMessage e). now repeat split.
  - destruct (refusal env (savedRow env invoice d)) as [ e | ] eqn:Hdb.
    { destruct (processInvoice_refused cfg env invoiceId invoice d e s
                  Hfound Hid Hdoc Hout Hdb) as (_ & Hstore & Htrace).
      exists (failedRow env invoice e). rewrite Hstore, Htrace.
      split; [ apply lookup_insert_eq | ].
      rewrite !webhooksOf_app, Hnw. unfold webhookEvents.
      split; intro Hurl; rewrite Hurl.
      - cbn [webhooksOf flat_map app]. rewrite app_nil_r. now split.
      - eexists. split; [ reflexivity | right ].
        exists (errMessage e). now repeat split. }
    destruct (processInvoice_success cfg env invoiceId invoice d s
                Hfound Hid Hdoc Hout Hdb) as (_ & Hstore & Htrace).
    exists (processedRow env invoice d). rewrite Hstore, Htrace.
    split; [ apply lookup_insert_eq | ].
    rewrite !webhooksOf_app, Hnw. unfold webhookEvents. split; intro Hurl; rewrite Hurl.
    + cbn [webhooksOf flat_map app]. rewrite app_nil_r. split; [ reflexivity | ].
      unfold processedRow. now rewrite Hurl.
    + eexists. split; [ reflexivity | left ]. split; [ reflexivity | ].
      rewrite (proj1 (processedRow_status env invoice d)).
      unfold processedRow. rewrite Hurl. split; [ | reflexivity ].
      unfold finalStatus. now destruct (Nat.ltb 0 _).
Qed.

Lemma processInvoice_notifies_once_witness :
  let s' := snd (processInvoice liveConfig (constEnv (ApiReturns twoWarnings))
                   "inv-9" twoInvoices) in
  exists row,
    store s' !! "inv-9"%string = Some row
    /\ (truthyS (Invoice.webhookUrl notified) = false ->
        webhooksOf (trace s') = webhooksOf (trace twoInvoices)
        /\ Invoice.webhookSent row = Invoice.webhookSent notified)
    /\ (truthyS (Invoice.webhookUrl notified) = true ->
        exists payload,
          webhooksOf (trace s')
          = webhooksOf (trace twoInvoices) ++ [(str (Invoice.webhookUrl notified), payload)]
          /\ ((payload = InvoiceProcessed "inv-9" (Invoice.status row)
                           (confidenceScore (Invoice.columns row))
                           (Invoice.processingTimeMs row)
               /\ Invoice.status row <> failed
               /\ Invoice.webhookSent row = true)
              \/ (exists message,
                     payload = InvoiceFailed "inv-9" message
                     /\ Invoice.status row = failed
                     /\ Invoice.lastError row = Some message
                     /\ Invoice.webhookSent row = Invoice.webhookSent notified))).
Proof.
  apply (processInvoice_notifies_once liveConfig (constEnv (ApiReturns twoWarnings))
           "inv-9" notified twoInvoices); try reflexivity.
  vm_compute. discriminate.
Defined.

(** The score 0.76 is the fraction 3800/5000. *)
Example notified_run :
  webhooksOf (trace (snd (processInvoice liveConfig (constEnv (ApiReturns twoWarnings))
                            "inv-9" twoInvoices)))
  = [("https://erp.example/hook"%string,
      InvoiceProcessed "inv-9" completed (Val (3800 # 5000)) (Some 1200%Z))].
Proof. vm_compute. reflexivity. Qed.

(** ** The queue loop, batches and the status calls *)

Lemma drain_fixpoint (cfg : Config) (queue : list string) :
  forall (active : Z) (started : list string),
    match drain cfg queue active started with
    | (queue', active', started') =>
        drain cfg queue' active' started' = (queue', active', started')
    end.
Proof.
  induction queue as [ | x rest IH ]; intros active started.
  - reflexivity.
  - cbn [drain]. destruct (active <? maxConcurrent cfg)%Z eqn:E.
    + apply IH.
    + cbn [drain]. now rewrite E.
Qed.

(** X8.  [processQueue] is idempotent, and it changes nothing when the
    queue is empty or the counter has reached the limit. *)
Theorem processQueue_idempotent (cfg : Config) (s : State) :
  snd (processQueue cfg (snd (processQueue cfg s))) = snd (processQueue cfg s)
  /\ (processingQueue s = [] \/ (maxConcurrent cfg <= activeProcessing s)%Z ->
      snd (processQueue cfg s) = s).
Proof.
  split.
  - unfold processQueue, modify. cbn [snd].
    pose proof (drain_fixpoint cfg (processingQueue s) (activeProcessing s) (running s))
      as H.
    destruct (drain cfg (processingQueue s) (activeProcessing s) (running s))
      as [[q a] r].
    cbn [store processingQueue activeProcessing running trace]. now rewrite H.
  - intro H. unfold processQueue, modify. cbn [snd].
    destruct s as [db q a r tr].
    cbn [store processingQueue activeProcessing running trace] in *.
    destruct q as [ | x rest ]; [ reflexivity | ].
    destruct H as [H | H]; [ discriminate H | ].
    cbn [drain]. replace (a <? maxConcurrent cfg)%Z with false; [ reflexivity | ].
    symmetry. now apply Z.ltb_ge.
Qed.

Lemma processQueue_idempotent_witness :
  snd (processQueue twoSlots fiveSubmitted) = fiveSubmitted.
Proof.
  apply (proj2 (processQueue_idempotent twoSlots fiveSubmitted)).
  right. vm_compute. discriminate.
Defined.

(** X9.  In every state the service can reach, [getQueueStatus] reports
    a counter between 0 and the limit, and a non-empty queue only when
    the counter is at the limit: no job waits while a slot is free. *)
Theorem getQueueStatus_no_idle_slot (cfg : Config) (s : State) :
  (0 <= maxConcurrent cfg)%Z ->
  reachable cfg s ->
  let st := getQueueStatus cfg s in
  (0 <= QueueStatus.activeProcessing st <= QueueStatus.maxConcurrent st)%Z
  /\ ((0 < QueueStatus.queueLength st)%nat ->
      QueueStatus.activeProcessing st = QueueStatus.maxConcurrent st).
Proof.
  intros Hpos Hreach. cbv zeta. unfold getQueueStatus.
  cbn [QueueStatus.activeProcessing QueueStatus.maxConcurrent QueueStatus.queueLength].
  destruct (reachable_scheduled cfg s Hpos Hreach) as (Hlen & Hmax & Hfull).
  repeat split.
  - lia.
  - exact Hmax.
  - intro Hq. apply Hfull. intro H0. rewrite H0 in Hq. simpl in Hq. lia.
Qed.

Lemma getQueueStatus_no_idle_slot_witness :
  let st := getQueueStatus twoSlots fiveSubmitted in
  (0 <= QueueStatus.activeProcessing st <= QueueStatus.maxConcurrent st)%Z
  /\ ((0 < QueueStatus.queueLength st)%nat ->
      QueueStatus.activeProcessing st = QueueStatus.maxConcurrent st).
Proof.
  apply (getQueueStatus_no_idle_slot twoSlots fiveSubmitted).
  - vm_compute. discriminate.
  - unfold fiveSubmitted, submit.
    repeat (eapply reach_step; [ | apply step_queue ]).
    apply reach_init.
Defined.

Lemma createAll_run (files : list (string * string)) (url : jsval string) :
  forall s,
    fst (createAll files url s)
    = inr (map (fun f => Invoice.create (fst f) (snd f) url) files)
    /\ sched (snd (createAll files url s)) = sched s
    /\ trace (snd (createAll files url s)) = trace s.
Proof.
  induction files as [ | [i path] rest IH ]; intro s.
  - now repeat split.
  - cbn [createAll]. unfold bind, save, setStore, modify, ret. cbv beta iota.
    set (s1 := mkState _ _ _ _ _).
    destruct (IH s1) as (Hr & Hs & Ht).
    destruct (createAll rest url s1) as [[e | invoices] s2]; cbn [fst snd] in *.
    + discriminate Hr.
    + inversion Hr; subst invoices. now repeat split.
Qed.

(** Queueing a list of invoices fills the free slots in order and
    appends the rest to the queue. *)
Lemma queueAll_run (cfg : Config) (invoices : list Invoice.t) :
  forall s,
    scheduled cfg s ->
    let ids := map Invoice.id invoices in
    let s' := snd (queueAll cfg invoices s) in
    running s' = running s ++ take (freeSlots cfg s) ids
    /\ processingQueue s' = processingQueue s ++ drop (freeSlots cfg s) ids
    /\ scheduled cfg s'
    /\ fst (queueAll cfg invoices s) = inr tt
    /\ store s' = store s /\ trace s' = trace s.
Proof.
  induction invoices as [ | x rest IH ]; intros s Hs; cbv zeta.
  - cbn [queueAll map]. unfold ret. cbn [fst snd].
    rewrite take_nil, drop_nil, !app_nil_r.
    repeat split; try reflexivity; apply Hs.
  - cbn [queueAll map]. unfold bind.
    pose proof (queueInvoice_scheduled cfg x s Hs) as Hs1.
    pose proof (queueInvoice_store cfg x s) as [Hst Htr].
    assert (Hq : running (snd (queueInvoice cfg x s))
                 = running s ++ take (freeSlots cfg s) [Invoice.id x]
                 /\ processingQueue (snd (queueInvoice cfg x s))
                    = processingQueue s ++ drop (freeSlots cfg s) [Invoice.id x]
                 /\ freeSlots cfg (snd (queueInvoice cfg x s))
                    = Nat.pred (freeSlots cfg s)).
    { destruct Hs as (Hlen & Hmax & Hfull).
      unfold queueInvoice, processQueue, bind, modify, ret, freeSlots. cbv beta iota.
      cbn [store processingQueue activeProcessing running trace snd].
      destruct (processingQueue s) as [ | y q ] eqn:Eq.
      - cbn [app drain].
        destruct (activeProcessing s <? maxConcurrent cfg)%Z eqn:E.
        + apply Z.ltb_lt in E.
          cbn [drain store processingQueue activeProcessing running trace].
          destruct (Z.to_nat (maxConcurrent cfg - activeProcessing s)) as [ | k ] eqn:Ek;
            [ lia | ].
          cbn [take drop Nat.pred]. rewrite take_nil, drop_nil.
          repeat split. lia.
        + apply Z.ltb_ge in E.
          cbn [store processingQueue activeProcessing running trace].
          replace (Z.to_nat (maxConcurrent cfg - activeProcessing s)) with 0%nat by lia.
          cbn [take drop Nat.pred]. now rewrite app_nil_r.
      - rewrite (Hfull ltac:(discriminate)). cbn [app drain].
        rewrite Z.ltb_irrefl.
        cbn [store processingQueue activeProcessing running trace take drop Nat.pred].
        now rewrite app_nil_r. }
    destruct Hq as (Hr & Hq & Hfree).
    destruct (queueInvoice cfg x s) as [[e | a] s1] eqn:Hrun; cbn [snd] in *.
    + exfalso. revert Hrun. unfold queueInvoice, processQueue, bind, modify, ret.
      cbv beta iota. discriminate.
    + destruct (IH s1 Hs1) as (Hr' & Hq' & Hs' & Hok & Hst' & Htr'). cbv zeta in *.
      rewrite Hfree in Hr', Hq'.
      destruct (freeSlots cfg s) as [ | k ]; cbn [take drop Nat.pred] in *;
        rewrite ?take_0, ?drop_0, ?take_nil, ?drop_nil in *;
        (repeat split; [ | | apply Hs' | apply Hs' | apply Hs'
                         | exact Hok | congruence | congruence ]).
      * rewrite Hr', Hr. now rewrite !app_nil_r.
      * rewrite Hq', Hq. now rewrite <- app_assoc.
      * rewrite Hr', Hr. now rewrite <- app_assoc.
      * rewrite Hq', Hq. now rewrite app_nil_r.
Qed.

(** X10.  From any reachable state, [processBatch] returns the batch id
    with the count and the ids of its files in order, starts as many of
    them as there are free slots, first come first served, and queues
    the rest behind the jobs that were already waiting. *)
Theorem processBatch_fills_free_slots (cfg : Config) (batchId : string)
        (files : list (string * string)) (url : jsval string) (s : State) :
  (0 <= maxConcurrent cfg)%Z ->
  reachable cfg s ->
  let ids := map fst files in
  let s' := snd (processBatch cfg batchId files url s) in
  fst (processBatch cfg batchId files url s)
  = inr {| resultBatchId := batchId; invoiceCount := length files; invoiceIds := ids |}
  /\ running s' = running s ++ take (freeSlots cfg s) ids
  /\ processingQueue s' = processingQueue s ++ drop (freeSlots cfg s) ids
  /\ activeProcessing s' = Z.of_nat (length (running s'))
  /\ (Z.of_nat (length (running s')) <= maxConcurrent cfg)%Z
  /\ trace s' = trace s.
Proof.
  intros Hpos Hreach. cbv zeta.
  pose proof (reachable_scheduled cfg s Hpos Hreach) as Hs.
  unfold processBatch, bind.
  destruct (createAll_run files url s) as (Hr & Hsch & Htr).
  destruct (createAll files url s) as [[e | invoices] s1]; cbn [fst snd] in *;
    [ discriminate Hr | ].
  inversion Hr; subst invoices. clear Hr.
  unfold sched in Hsch. inversion Hsch as [[Hq Ha Hrun]].
  assert (Hs1 : scheduled cfg s1).
  { unfold scheduled. rewrite Hq, Ha, Hrun. exact Hs. }
  assert (Hfree : freeSlots cfg s1 = freeSlots cfg s).
  { unfold freeSlots. now rewrite Hq, Ha. }
  destruct (queueAll_run cfg (map (fun f => Invoice.create (fst f) (snd f) url) files)
              s1 Hs1)
    as (Hr' & Hq' & (Hl & Hmx & _) & Hok & _ & Htr'). cbv zeta in *.
  assert (Hids : map Invoice.id (map (fun f => Invoice.create (fst f) (snd f) url) files)
                 = map fst files).
  { rewrite map_map. apply map_ext. now intros [i path]. }
  rewrite Hids, Hfree, Hrun, Hq in *.
  destruct (queueAll cfg _ s1) as [[e | []] s2]; cbn [fst snd] in *;
    [ discriminate Hok | ].
  unfold ret. cbn [fst snd]. rewrite length_map.
  repeat split; try assumption; try congruence.
Qed.

Lemma processBatch_fills_free_slots_witness :
  let s' := snd (processBatch twoSlots "batch-1" fiveFiles Null (init ∅)) in
  fst (processBatch twoSlots "batch-1" fiveFiles Null (init ∅))
  = inr {| resultBatchId := "batch-1"; invoiceCount := 5;
           invoiceIds := ["j1"; "j2"; "j3"; "j4"; "j5"]%string |}
  /\ running s' = ["j1"; "j2"]%string
  /\ processingQueue s' = ["j3"; "j4"; "j5"]%string
  /\ activeProcessing s' = Z.of_nat (length (running s'))
  /\ (Z.of_nat (length (running s')) <= 2)%Z
  /\ trace s' = [].
Proof.
  apply (processBatch_fills_free_slots twoSlots "batch-1" fiveFiles Null (init ∅)).
  - vm_compute. discriminate.
  - apply reach_init.
Defined.

(** X11.  [getBatchStatus] counts every row of the batch in
    [totalCount], but its three other counts leave out the rows in
    status [review_required]: completed, failed and pending add up to
    the total exactly when no row of the batch awaits review. *)
Theorem getBatchStatus_counts (batchId : string) (found : list Invoice.t) :
  let st := getBatchStatus batchId found in
  let inReview :=
    countRows (fun inv => Status_eqb (BatchStatus.status inv) review_required)
      (BatchStatus.invoices st) in
  BatchStatus.totalCount st = length found
  /\ (BatchStatus.completedCount st + BatchStatus.failedCount st
      + BatchStatus.pendingCount st + inReview = BatchStatus.totalCount st)%nat
  /\ ((BatchStatus.completedCount st + BatchStatus.failedCount st
       + BatchStatus.pendingCount st = BatchStatus.totalCount st)%nat
      <-> forall invoice, In invoice found -> Invoice.status invoice <> review_required).
Proof.
  cbv zeta. unfold getBatchStatus.
  cbn [BatchStatus.totalCount BatchStatus.completedCount BatchStatus.failedCount
       BatchStatus.pendingCount BatchStatus.invoices].
  rewrite length_map.
  assert (Hsum : forall l : list Invoice.t,
             (countRows (fun inv => Status_eqb (BatchStatus.status inv) completed)
                (map batchRow l)
              + countRows (fun inv => Status_eqb (BatchStatus.status inv) failed)
                  (map batchRow l)
              + countRows (fun inv => Status_eqb (BatchStatus.status inv) pending
                                      || Status_eqb (BatchStatus.status inv) processing)%bool
                  (map batchRow l)
              + countRows (fun inv => Status_eqb (BatchStatus.status inv) review_required)
                  (map batchRow l)
              = length l)%nat).
  { induction l as [ | x rest IH ]; [ reflexivity | ].
    unfold countRows in *. cbn [map List.filter batchRow BatchStatus.status].
    destruct (Invoice.status x); cbn [Status_eqb orb length]; lia. }
  assert (Hrev : forall l : list Invoice.t,
             countRows (fun inv => Status_eqb (BatchStatus.status inv) review_required)
               (map batchRow l) = 0%nat
             <-> forall invoice, In invoice l -> Invoice.status invoice <> review_required).
  { induction l as [ | x rest IH ].
    - split; [ intros _ invoice [] | reflexivity ].
    - unfold countRows in *. cbn [map List.filter batchRow BatchStatus.status].
      split.
      + intros H invoice [<- | Hin].
        * destruct (Invoice.status x); cbn [Status_eqb length] in H;
            try discriminate; congruence.
        * apply IH; [ | exact Hin ].
          destruct (Invoice.status x); cbn [Status_eqb length] in H;
            try discriminate; exact H.
      + intro H.
        assert (Hx : Invoice.status x <> review_required) by (apply H; now left).
        destruct (Invoice.status x); cbn [Status_eqb]; try contradiction;
          apply IH; intros invoice Hin; apply H; now right. }
  split; [ reflexivity | split ].
  - apply Hsum.
  - rewrite <- Hrev. pose proof (Hsum found) as H. lia.
Qed.

Example mixedBatch_counts :
  let st := getBatchStatus "batch-7" mixedBatch in
  (BatchStatus.totalCount st, BatchStatus.completedCount st,
   BatchStatus.failedCount st, BatchStatus.pendingCount st)
  = (6, 1, 1, 2)%nat.
Proof. reflexivity. Qed.

(** ** Extraction results written to the row *)

Lemma assign_assign {A} (old new : jsval A) :
  assign (assign old new) new = assign old new.
Proof. now destruct new. Qed.

Lemma assignDate_assignDate (old new : DateField) :
  assignDate (assignDate old new) new = assignDate old new.
Proof. now destruct new. Qed.

(** X12.  [updateInvoiceWithExtraction] writes a mapped field of the
    extraction over the column unless the field is undefined (a null
    is written, an undefined field keeps the old value); it leaves the
    status, the retry count, the last error and the notification
    columns alone; and applying it twice with the same extraction is
    the same as applying it once. *)
Theorem updateInvoiceWithExtraction_merge (invoice : Invoice.t) (d : ExtractedData)
        (v : ValidationResult) :
  let row := updateInvoiceWithExtraction invoice d v in
  (forall f, In f textFields ->
             f (Invoice.columns row) = assign (f (Invoice.columns invoice)) (f d))
  /\ (forall f, In f numberFields ->
                f (Invoice.columns row) = assign (f (Invoice.columns invoice)) (f d))
  /\ lineItems (Invoice.columns row)
     = assign (lineItems (Invoice.columns invoice)) (lineItems d)
  /\ (Invoice.status row, Invoice.retryCount row, Invoice.lastError row,
      Invoice.webhookUrl row, Invoice.webhookSent row)
     = (Invoice.status invoice, Invoice.retryCount invoice, Invoice.lastError invoice,
        Invoice.webhookUrl invoice, Invoice.webhookSent invoice)
  /\ Invoice.rawExtractionData row = Some d
  /\ updateInvoiceWithExtraction row d v = row.
Proof.
  cbv zeta. repeat split.
  - intros f Hin. unfold textFields in Hin. cbn [In] in Hin.
    repeat (destruct Hin as [<- | Hin]; [ reflexivity | ]). destruct Hin.
  - intros f Hin. unfold numberFields in Hin. cbn [In] in Hin.
    repeat (destruct Hin as [<- | Hin]; [ reflexivity | ]). destruct Hin.
  - unfold updateInvoiceWithExtraction, Invoice.setExtraction.
    cbn [Invoice.columns Invoice.id Invoice.filePath Invoice.status
         Invoice.processingTimeMs Invoice.webhookUrl Invoice.webhookSent
         Invoice.retryCount Invoice.lastError
         vendorName vendorAddress vendorEmail vendorPhone invoiceNumber invoiceDate
         dueDate purchaseOrderNumber customerName customerAddress lineItems subtotal
         taxRate taxAmount discountAmount shippingAmount totalAmount currency
         paymentTerms paymentMethod bankDetails confidenceScore anomalies].
    rewrite !assign_assign, !assignDate_assignDate.
    destruct (truthyL (anomalies d)); reflexivity.
Qed.

Lemma updateInvoiceWithExtraction_merge_witness :
  let row := updateInvoiceWithExtraction storedInvoice sparseExtraction
               (validateInvoice 0 sparseExtraction) in
  vendorName (Invoice.columns row) = Val "Acme Supplies"%string
  /\ invoiceNumber (Invoice.columns row) = Val "INV-8"%string
  /\ totalAmount (Invoice.columns row) = Null.
Proof.
  pose proof (updateInvoiceWithExtraction_merge storedInvoice sparseExtraction
                (validateInvoice 0 sparseExtraction)) as (Htext & Hnum & _).
  cbv zeta. split; [ | split ].
  - apply (Htext vendorName). simpl. tauto.
  - apply (Htext invoiceNumber). simpl. tauto.
  - apply (Hnum totalAmount). simpl. tauto.
Defined.

(** ** A failed job, retried *)

Lemma retryInvoice_run (cfg : Config) (invoiceId : string) (invoice : Invoice.t)
      (s : State) :
  store s !! invoiceId = Some invoice ->
  Invoice.id invoice = invoiceId ->
  Invoice.status invoice = failed ->
  let s' := snd (retryInvoice cfg invoiceId s) in
  store s' = <[invoiceId := retriedRow invoice]> (store s)
  /\ trace s' = trace s
  /\ In invoiceId (processingQueue s' ++ running s').
Proof.
  intros Hfound Hid Hst. cbv zeta.
  unfold retryInvoice, findByPk, bind, get, ret. cbv beta iota.
  rewrite Hfound, Hst.
  unfold save, setStore, queueInvoice, processQueue, bind, modify, ret.
  cbv beta iota.
  cbn [store processingQueue activeProcessing running trace Invoice.id
       Invoice.setStatus Invoice.setLastError].
  rewrite Hid.
  destruct (drain_spec cfg (processingQueue s ++ [invoiceId])
              (activeProcessing s) (running s)) as (taken & Hrun & Hq & _).
  rewrite Hrun.
  cbn [fst snd store processingQueue activeProcessing running trace].
  repeat split.
  assert (Hin : In invoiceId (processingQueue s ++ [invoiceId]))
    by (apply in_or_app; right; now left).
  rewrite Hq in Hin. apply in_app_or in Hin as [Hin | Hin]; apply in_or_app.
  - right. apply in_or_app. now right.
  - now left.
Qed.

(** X13.  A job whose run failed, that was then retried by hand and
    whose second run extracted data.  When the database accepts the
    extracted row, the job ends in the status that the validation of
    that data decides, with no last error, with the retry count of
    the one failure, and with the new extraction stored.  When the
    database refuses the row, the job is failed again, with the
    database error and the retry count of two failures. *)
Theorem fail_retry_succeed (cfg : Config) (env1 env2 : Env) (invoiceId : string)
        (invoice : Invoice.t) (e : JsError) (d : ExtractedData) (s : State) :
  store s !! invoiceId = Some invoice ->
  Invoice.id invoice = invoiceId ->
  document env1 = None ->
  extractionOutcome cfg env1 = inl (ThrownError e) ->
  document env2 = None ->
  extractionOutcome cfg env2 = inr d ->
  let s1 := snd (processInvoice cfg env1 invoiceId s) in
  let s2 := snd (retryInvoice cfg invoiceId s1) in
  let s3 := snd (settle cfg env2 invoiceId s2) in
  let answer := refusal env2 (savedRow env2 (retriedRow (failedRow env1 invoice e)) d) in
  (Invoice.status <$> store s1 !! invoiceId) = Some failed
  /\ (Invoice.status <$> store s2 !! invoiceId) = Some pending
  /\ In invoiceId (processingQueue s2 ++ running s2)
  /\ exists row,
       store s3 !! invoiceId = Some row
       /\ (answer = None ->
           Invoice.status row = finalStatus (validateInvoice (validatedAt env2) d)
           /\ Invoice.lastError row = None
           /\ Invoice.retryCount row = (Invoice.retryCount invoice + 1)%Z
           /\ Invoice.rawExtractionData row = Some d)
       /\ (forall e2,
             answer = Some e2 ->
             Invoice.status row = failed
             /\ Invoice.lastError row = Some (errMessage e2)
             /\ Invoice.retryCount row = (Invoice.retryCount invoice + 1 + 1)%Z).
Proof.
  intros Hfound Hid Hdoc1 Hout1 Hdoc2 Hout2. cbv zeta.
  destruct (processInvoice_failure cfg env1 invoiceId invoice e s Hfound Hid Hdoc1 Hout1)
    as (_ & Hs1 & _).
  set (s1 := snd (processInvoice cfg env1 invoiceId s)) in *.
  assert (Hf1 : store s1 !! invoiceId = Some (failedRow env1 invoice e))
    by (rewrite Hs1; apply lookup_insert_eq).
  destruct (retryInvoice_run cfg invoiceId (failedRow env1 invoice e) s1 Hf1 Hid eq_refl)
    as (Hs2 & _ & Hin).
  set (s2 := snd (retryInvoice cfg invoiceId s1)) in *.
  assert (Hf2 : store s2 !! invoiceId = Some (retriedRow (failedRow env1 invoice e)))
    by (rewrite Hs2; apply lookup_insert_eq).
  split; [ now rewrite Hf1 | split; [ now rewrite Hf2 | split; [ exact Hin | ] ] ].
  destruct (refusal env2 (savedRow env2 (retriedRow (failedRow env1 invoice e)) d))
    as [ e2 | ] eqn:Hdb.
  - pose proof (tryBlock_refused cfg env2 invoiceId (retriedRow (failedRow env1 invoice e))
                  d e2 s2 Hf2 Hid Hdoc2 Hout2 Hdb) as Hbody.
    cbv zeta in Hbody. apply settle_frame in Hbody. destruct Hbody as (_ & Hs3 & _).
    cbn [store] in Hs3.
    exists (failedRow env2 (retriedRow (failedRow env1 invoice e)) e2).
    rewrite Hs3. split; [ apply lookup_insert_eq | split ].
    + discriminate.
    + intros e' [= <-]. now repeat split.
  - pose proof (tryBlock_success cfg env2 invoiceId (retriedRow (failedRow env1 invoice e))
                  d s2 Hf2 Hid Hdoc2 Hout2 Hdb) as Hbody.
    cbv zeta in Hbody. apply settle_frame in Hbody. destruct Hbody as (_ & Hs3 & _).
    cbn [store] in Hs3.
    exists (processedRow env2 (retriedRow (failedRow env1 invoice e)) d).
    rewrite Hs3. split; [ apply lookup_insert_eq | split ].
    + intros _. rewrite (proj1 (processedRow_status _ _ _)).
      unfold processedRow.
      destruct (truthyS (Invoice.webhookUrl (retriedRow (failedRow env1 invoice e))));
        now repeat split.
    + discriminate.
Qed.

Lemma fail_retry_succeed_witness :
  let s1 := snd (processInvoice liveConfig (constEnv (ApiRejects timeoutError))
                   "inv-1" oneInvoice) in
  let s2 := snd (retryInvoice liveConfig "inv-1" s1) in
  let s3 := snd (settle liveConfig (constEnv (ApiReturns twoWarnings)) "inv-1" s2) in
  exists row,
    store s3 !! "inv-1"%string = Some row
    /\ Invoice.status row = completed
    /\ Invoice.lastError row = None
    /\ Invoice.retryCount row = 1%Z
    /\ Invoice.rawExtractionData row = Some twoWarnings.
Proof.
  destruct (fail_retry_succeed liveConfig (constEnv (ApiRejects timeoutError))
              (constEnv (ApiReturns twoWarnings)) "inv-1"
              (Invoice.create "inv-1" "uploads/a.pdf" Null) timeoutError twoWarnings
              oneInvoice eq_refl eq_refl eq_refl eq_refl eq_refl eq_refl)
    as (_ & _ & _ & row & Hrow & Hok & _).
  exists row. split; [ exact Hrow | ]. apply (Hok eq_refl).
Defined.

(** ** Errors and warnings of the validation *)

Lemma errors_decomposed (now : Z) (invoice : ExtractedData) :
  errors (validateInvoice now invoice)
  = validateRequiredFields invoice
    ++ fst (validateCalculations invoice)
    ++ fst (validateFormats now invoice)
    ++ fst (validateBusinessRules invoice).
Proof.
  unfold validateInvoice, findings. cbn [errors fst snd both].
  now rewrite app_nil_r.
Qed.

Lemma warnings_decomposed (now : Z) (invoice : ExtractedData) :
  warnings (validateInvoice now invoice)
  = snd (validateCalculations invoice)
    ++ snd (validateFormats now invoice)
    ++ snd (validateBusinessRules invoice)
    ++ detectAnomalies invoice.
Proof. reflexivity. Qed.

Lemma Forall_pushIf (P : Message -> Prop) (b : bool) (m : Message) :
  P m -> Forall P (pushIf b m).
Proof. intro H. destruct b; simpl; auto. Qed.

Lemma lineItemsLoop_kinds (items : list LineItem) :
  forall start,
    Forall (fun m => blocking m = true) (fst (lineItemsLoop start items))
    /\ Forall (fun m => blocking m = false) (snd (lineItemsLoop start items)).
Proof.
  induction items as [ | x rest IH ]; intro start; cbn [lineItemsLoop both fst snd].
  - split; constructor.
  - destruct (IH (S start)) as [He Hw]. split; apply Forall_app; split; auto.
    + unfold lineItemErrors. now apply Forall_pushIf.
    + unfold lineItemWarnings. apply Forall_app; split; now apply Forall_pushIf.
Qed.

Lemma mismatch_kinds (x calc : Q) (err warn : Q -> Q -> Message) :
  (forall a b, blocking (err a b) = true) ->
  (forall a b, blocking (warn a b) = false) ->
  Forall (fun m => blocking m = true) (fst (mismatch x calc err warn))
  /\ Forall (fun m => blocking m = false) (snd (mismatch x calc err warn)).
Proof.
  intros He Hw. unfold mismatch.
  destruct (Qltb _ _); [ destruct (ratioExceeds _ _ _) | ]; cbn [fst snd noFindings];
    split; repeat constructor; auto.
Qed.

(** X14.  Every message in [errors] is of a blocking kind and no
    message in [warnings] is: a tax discrepancy, a minor subtotal or
    total discrepancy, a date out of range, a malformed e-mail, an
    unusual currency or tax rate, a large discount, a very high amount
    and the anomalies never make an invoice invalid. *)
Theorem validateInvoice_kinds (now : Z) (invoice : ExtractedData) :
  Forall (fun m => blocking m = true) (errors (validateInvoice now invoice))
  /\ Forall (fun m => blocking m = false) (warnings (validateInvoice now invoice)).
Proof.
  rewrite errors_decomposed, warnings_decomposed.
  assert (Hcalc : Forall (fun m => blocking m = true) (fst (validateCalculations invoice))
                  /\ Forall (fun m => blocking m = false)
                       (snd (validateCalculations invoice))).
  { unfold validateCalculations.
    destruct (lineItems invoice) as [ | | [ | x rest ] ]; try (split; constructor).
    generalize (x :: rest). intro items.
    cbn [both fst snd].
    destruct (lineItemsLoop_kinds items 0) as [H1 H2].
    assert (Hsub : Forall (fun m => blocking m = true)
                     (fst (checkSubtotal invoice (calculatedSubtotal items)))
                   /\ Forall (fun m => blocking m = false)
                        (snd (checkSubtotal invoice (calculatedSubtotal items)))).
    { unfold checkSubtotal. destruct (truthyN (subtotal invoice));
        [ now apply mismatch_kinds | split; constructor ]. }
    assert (Htot : Forall (fun m => blocking m = true)
                     (fst (checkTotal invoice (calculatedSubtotal items)))
                   /\ Forall (fun m => blocking m = false)
                        (snd (checkTotal invoice (calculatedSubtotal items)))).
    { unfold checkTotal. destruct (truthyN (totalAmount invoice));
        [ now apply mismatch_kinds | split; constructor ]. }
    destruct Hsub as [H3 H4], Htot as [H5 H6].
    split; repeat (apply Forall_app; split); auto; try (now constructor).
    unfold checkTax.
    match goal with
    | |- context [if ?c then _ else _] => destruct c
    end; [ now apply Forall_pushIf | constructor ]. }
  assert (Hfmt : Forall (fun m => blocking m = true) (fst (validateFormats now invoice))
                 /\ Forall (fun m => blocking m = false)
                      (snd (validateFormats now invoice))).
  { unfold validateFormats. cbn [both fst snd].
    destruct (invoiceDate invoice), (dueDate invoice); cbn [fst snd noFindings app];
      split; repeat (apply Forall_app; split);
      repeat constructor; try (now apply Forall_pushIf). }
  assert (Hbiz : Forall (fun m => blocking m = true) (fst (validateBusinessRules invoice))
                 /\ Forall (fun m => blocking m = false)
                      (snd (validateBusinessRules invoice))).
  { unfold validateBusinessRules. cbn [both fst snd].
    destruct (truthyN (discountAmount invoice) && truthyN (subtotal invoice))%bool,
      (truthyN (taxRate invoice)), (truthyN (totalAmount invoice));
      cbn [fst snd noFindings app];
      split; repeat (apply Forall_app; split);
      repeat constructor; try (now apply Forall_pushIf). }
  destruct Hcalc, Hfmt, Hbiz.
  split; rewrite !Forall_app; repeat split; auto.
  - unfold validateRequiredFields.
    rewrite !Forall_app. repeat split; now apply Forall_pushIf.
  - unfold detectAnomalies.
    rewrite !Forall_app. repeat split; try (now apply Forall_pushIf).
    destruct (lineItems invoice);
      [ constructor | constructor | now apply Forall_pushIf ].
Qed.

Example slightlyOff_findings :
  findings 0 slightlyOff
  = ([], [MsgMinorSubtotal 101 (10000 # 100); MsgTaxDiscrepancy 10 101 (1010 # 100) 11]).
Proof. vm_compute. reflexivity. Qed.

(** ** The subtotal and the total check *)

Lemma Origin_eqb_eq (a b : Origin) : Origin_eqb a b = true <-> a = b.
Proof. destruct a, b; simpl; split; intro H; congruence. Qed.

Lemma pushedBy_app (o : Origin) (l1 l2 : list Message) :
  pushedBy o (l1 ++ l2) = pushedBy o l1 ++ pushedBy o l2.
Proof. apply List.filter_app. Qed.

Lemma pushedBy_other (o o' : Origin) (l : list Message) :
  Forall (fun m => origin m = o') l -> o' <> o -> pushedBy o l = [].
Proof.
  intros H Hne. induction H as [ | m l Hm _ IH ]; [ reflexivity | ].
  unfold pushedBy in *. cbn [List.filter]. rewrite Hm.
  destruct (Origin_eqb o' o) eqn:E; [ | exact IH ].
  apply Origin_eqb_eq in E. contradiction.
Qed.

Lemma pushedBy_same (o : Origin) (l : list Message) :
  Forall (fun m => origin m = o) l -> pushedBy o l = l.
Proof.
  intros H. induction H as [ | m l Hm _ IH ]; [ reflexivity | ].
  unfold pushedBy in *. cbn [List.filter]. rewrite Hm.
  replace (Origin_eqb o o) with true by (symmetry; now apply Origin_eqb_eq).
  now rewrite IH.
Qed.

Lemma lineItemsLoop_origin (items : list LineItem) :
  forall start,
    Forall (fun m => origin m = FromLineItems) (fst (lineItemsLoop start items))
    /\ Forall (fun m => origin m = FromLineItems) (snd (lineItemsLoop start items)).
Proof.
  induction items as [ | x rest IH ]; intro start; cbn [lineItemsLoop both fst snd].
  - split; constructor.
  - destruct (IH (S start)) as [He Hw]. split; rewrite Forall_app; split; auto.
    + unfold lineItemErrors. now apply Forall_pushIf.
    + unfold lineItemWarnings. rewrite Forall_app; split; now apply Forall_pushIf.
Qed.

Lemma mismatch_origin (o : Origin) (x calc : Q) (err warn : Q -> Q -> Message) :
  (forall a b, origin (err a b) = o) ->
  (forall a b, origin (warn a b) = o) ->
  Forall (fun m => origin m = o) (fst (mismatch x calc err warn))
  /\ Forall (fun m => origin m = o) (snd (mismatch x calc err warn)).
Proof.
  intros He Hw. unfold mismatch.
  destruct (Qltb _ _); [ destruct (ratioExceeds _ _ _) | ]; cbn [fst snd noFindings];
    split; repeat constructor; auto.
Qed.

Lemma required_origin (invoice : ExtractedData) :
  Forall (fun m => origin m = FromRequiredFields) (validateRequiredFields invoice).
Proof.
  unfold validateRequiredFields. rewrite !Forall_app.
  repeat split; now apply Forall_pushIf.
Qed.

Lemma formats_origin (now : Z) (invoice : ExtractedData) :
  Forall (fun m => origin m = FromFormats) (fst (validateFormats now invoice))
  /\ Forall (fun m => origin m = FromFormats) (snd (validateFormats now invoice)).
Proof.
  unfold validateFormats. cbn [both fst snd].
  destruct (invoiceDate invoice), (dueDate invoice); cbn [fst snd noFindings app];
    split; rewrite ?Forall_app; repeat split;
    repeat constructor; try (now apply Forall_pushIf).
Qed.

Lemma businessRules_origin (invoice : ExtractedData) :
  Forall (fun m => origin m = FromBusinessRules) (fst (validateBusinessRules invoice))
  /\ Forall (fun m => origin m = FromBusinessRules) (snd (validateBusinessRules invoice)).
Proof.
  unfold validateBusinessRules. cbn [both fst snd].
  destruct (truthyN (discountAmount invoice) && truthyN (subtotal invoice))%bool,
    (truthyN (taxRate invoice)), (truthyN (totalAmount invoice));
    cbn [fst snd noFindings app];
    split; rewrite ?Forall_app; repeat split;
    repeat constructor; try (now apply Forall_pushIf).
Qed.

Lemma anomalies_origin (invoice : ExtractedData) :
  Forall (fun m => origin m = FromAnomalies) (detectAnomalies invoice).
Proof.
  unfold detectAnomalies. rewrite !Forall_app.
  repeat split; try (now apply Forall_pushIf).
  destruct (lineItems invoice);
    [ constructor | constructor | now apply Forall_pushIf ].
Qed.

Lemma checkTax_origin (invoice : ExtractedData) :
  Forall (fun m => origin m = FromTax) (checkTax invoice).
Proof.
  unfold checkTax.
  match goal with
  | |- context [if ?c then _ else _] => destruct c
  end; [ now apply Forall_pushIf | constructor ].
Qed.

(** What each check contributes to the two lists of the result, for an
    invoice with line items. *)
Lemma pushedBy_check (o : Origin) (now : Z) (invoice : ExtractedData)
      (items : list LineItem) :
  lineItems invoice = Val items -> items <> [] ->
  let calc := calculatedSubtotal items in
  (o = FromSubtotal ->
   pushedBy o (errors (validateInvoice now invoice)) = fst (checkSubtotal invoice calc)
   /\ pushedBy o (warnings (validateInvoice now invoice)) = snd (checkSubtotal invoice calc))
  /\ (o = FromTotal ->
      pushedBy o (errors (validateInvoice now invoice)) = fst (checkTotal invoice calc)
      /\ pushedBy o (warnings (validateInvoice now invoice)) = snd (checkTotal invoice calc))
  /\ (o = FromTax ->
      pushedBy o (errors (validateInvoice now invoice)) = []
      /\ pushedBy o (warnings (validateInvoice now invoice)) = checkTax invoice).
Proof.
  intros Hitems Hne. cbv zeta.
  rewrite errors_decomposed, warnings_decomposed.
  unfold validateCalculations. rewrite Hitems.
  destruct items as [ | x rest ]; [ contradiction | ].
  generalize (x :: rest). intro l. cbn [both fst snd].
  rewrite !pushedBy_app.
  pose proof (required_origin invoice) as Hreq.
  destruct (lineItemsLoop_origin l 0) as [HlE HlW].
  destruct (formats_origin now invoice) as [HfE HfW].
  destruct (businessRules_origin invoice) as [HbE HbW].
  pose proof (anomalies_origin invoice) as Han.
  pose proof (checkTax_origin invoice) as Htax.
  assert (Hsub : Forall (fun m => origin m = FromSubtotal)
                   (fst (checkSubtotal invoice (calculatedSubtotal l)))
                 /\ Forall (fun m => origin m = FromSubtotal)
                      (snd (checkSubtotal invoice (calculatedSubtotal l)))).
  { unfold checkSubtotal. destruct (truthyN (subtotal invoice));
      [ now apply mismatch_origin | split; constructor ]. }
  assert (Htot : Forall (fun m => origin m = FromTotal)
                   (fst (checkTotal invoice (calculatedSubtotal l)))
                 /\ Forall (fun m => origin m = FromTotal)
                      (snd (checkTotal invoice (calculatedSubtotal l)))).
  { unfold checkTotal. destruct (truthyN (totalAmount invoice));
      [ now apply mismatch_origin | split; constructor ]. }
  destruct Hsub as [HsE HsW], Htot as [HtE HtW].
  split; [ | split ]; intros ->; split.
  all: rewrite ?(pushedBy_other _ _ _ Hreq), ?(pushedBy_other _ _ _ HlE),
         ?(pushedBy_other _ _ _ HlW), ?(pushedBy_other _ _ _ HfE),
         ?(pushedBy_other _ _ _ HfW), ?(pushedBy_other _ _ _ HbE),
         ?(pushedBy_other _ _ _ HbW), ?(pushedBy_other _ _ _ Han),
         ?(pushedBy_other _ _ _ Htax), ?(pushedBy_other _ _ _ HsE),
         ?(pushedBy_other _ _ _ HsW), ?(pushedBy_other _ _ _ HtE),
         ?(pushedBy_other _ _ _ HtW) by discriminate.
  all: rewrite ?(pushedBy_same _ _ HsE), ?(pushedBy_same _ _ HsW),
         ?(pushedBy_same _ _ HtE), ?(pushedBy_same _ _ HtW),
         ?(pushedBy_same _ _ Htax).
  all: cbn [pushedBy List.filter app]; now rewrite ?app_nil_r.
Qed.

Lemma ratio_of_negative (diff calc : Q) :
  0 <= diff -> calc < 0 -> diff / calc <= 0.
Proof.
  intros Hd Hc.
  assert (Hne : ~ calc == 0) by (intro H0; rewrite H0 in Hc; discriminate Hc).
  assert (E : diff / calc == - (diff / - calc)) by (field; exact Hne).
  rewrite E.
  assert (Hpos : 0 < - calc) by lra.
  assert (0 <= diff / - calc); [ | lra ].
  apply Qle_shift_div_l; [ exact Hpos | lra ].
Qed.

(** The ways the shared comparison can go.  [x - calc] is the exact
    difference of the two numbers and [diff] the difference that the
    code computes.  The two thresholds are the numbers 0.01 and 0.05
    of the source, which lie a hair above the decimals: the outcome
    is fixed up to the decimal and from 1e-17 above it. *)
Lemma mismatch_cases (x calc : Q) (err warn : Q -> Q -> Message) :
  let diff := Qabs (fsub x calc) in
  let above := 1 # 100000000000000000 in
  (Qabs (x - calc) <= 1 # 100 -> mismatch x calc err warn = ([], []))
  /\ ((1 # 100) + above <= Qabs (x - calc) ->
      (0 < calc /\ (5 # 100) + above <= diff / calc) \/ calc == 0 ->
      mismatch x calc err warn = ([err x (toFixed2 calc)], []))
  /\ ((1 # 100) + above <= Qabs (x - calc) ->
      (0 < calc /\ diff / calc <= 5 # 100) \/ calc < 0 ->
      mismatch x calc err warn = ([], [warn x (toFixed2 calc)])).
Proof.
  cbv zeta. split; [ apply mismatch_close | ].
  assert (Hgap : (1 # 100) + (1 # 100000000000000000) <= Qabs (x - calc) ->
                 Qltb (fl (1 # 100)) (Qabs (fsub x calc)) = true).
  { intro Hd. apply Qltb_lt.
    apply fsub_apart with (c := (1 # 100) + (1 # 100000000000000000));
      [ exact Hd | reflexivity ]. }
  split; intros Hd Hc; unfold mismatch, Math_abs, ratioExceeds;
    rewrite (Hgap Hd); pose proof (proj1 (Qltb_lt _ _) (Hgap Hd)) as Hpos.
  - destruct Hc as [[Hcalc Hrel] | Hz].
    + rewrite Qzerob_false by lra.
      replace (Qltb (fl (5 # 100)) (fdiv (Qabs (fsub x calc)) calc)) with true;
        [ reflexivity | ].
      symmetry. apply Qltb_lt. unfold fdiv.
      apply Qlt_le_trans with (fl ((5 # 100) + (1 # 100000000000000000)));
        [ reflexivity | now apply fl_mono ].
    + unfold Qzerob. replace (Qeq_bool calc 0) with true
        by (symmetry; now apply Qeq_bool_iff).
      replace (Qltb 0 (Qabs (fsub x calc))) with true; [ reflexivity | ].
      symmetry. apply Qltb_lt.
      assert (0 < fl (1 # 100)) by reflexivity. lra.
  - assert (Hle : forall r, r <= 5 # 100 -> Qltb (fl (5 # 100)) (fl r) = false).
    { intros r Hr. apply Qltb_ge. now apply fl_mono. }
    destruct Hc as [[Hcalc Hrel] | Hneg].
    + rewrite Qzerob_false by lra. unfold fdiv. now rewrite (Hle _ Hrel).
    + rewrite Qzerob_false by lra. unfold fdiv. rewrite Hle; [ reflexivity | ].
      assert (Qabs (fsub x calc) / calc <= 0); [ | lra ].
      apply ratio_of_negative; [ apply Qabs_nonneg | exact Hneg ].
Qed.

(** X16. The subtotal check of an invoice with line items.  A
    subtotal of 0 is not checked at all.  Otherwise, with [calc] the
    sum of the item amounts as the code adds them up: a subtotal
    within 0.01 of [calc] is not reported; a subtotal that is
    0.01 + 1e-17 or more away from it is reported once, as an error
    when the computed difference is 5% + 1e-17 or more of a
    positive [calc] or when [calc] is 0, and as a warning when the
    computed difference is at most 5% of a positive [calc] or when
    [calc] is negative, however large the difference. *)
Theorem subtotal_check (now : Z) (invoice : ExtractedData)
        (items : list LineItem) (x : Q) :
  lineItems invoice = Val items -> items <> [] ->
  subtotal invoice = Val x ->
  let calc := calculatedSubtotal items in
  let diff := Qabs (fsub x calc) in
  let above := 1 # 100000000000000000 in
  let E := pushedBy FromSubtotal (errors (validateInvoice now invoice)) in
  let W := pushedBy FromSubtotal (warnings (validateInvoice now invoice)) in
  (x == 0 -> E = [] /\ W = [])
  /\ (~ x == 0 -> Qabs (x - calc) <= 1 # 100 -> E = [] /\ W = [])
  /\ (~ x == 0 -> (1 # 100) + above <= Qabs (x - calc) ->
      (0 < calc /\ (5 # 100) + above <= diff / calc) \/ calc == 0 ->
      E = [MsgSubtotalMismatch x (toFixed2 calc)] /\ W = [])
  /\ (~ x == 0 -> (1 # 100) + above <= Qabs (x - calc) ->
      (0 < calc /\ diff / calc <= 5 # 100) \/ calc < 0 ->
      E = [] /\ W = [MsgMinorSubtotal x (toFixed2 calc)]).
Proof.
  intros Hitems Hne Hsub. cbv zeta.
  destruct (pushedBy_check FromSubtotal now invoice items Hitems Hne)
    as [Hcheck _].
  destruct (Hcheck eq_refl) as [-> ->]. clear Hcheck.
  unfold checkSubtotal. rewrite Hsub. cbn [truthyN num].
  destruct (mismatch_cases x (calculatedSubtotal items)
              MsgSubtotalMismatch MsgMinorSubtotal) as (Hclose & Herr & Hwarn).
  split; [ | split; [ | split ] ].
  - intro Hz. unfold Qzerob.
    replace (Qeq_bool x 0) with true by (symmetry; now apply Qeq_bool_iff).
    split; reflexivity.
  - intros Hnz Hd. rewrite Qzerob_false by exact Hnz. cbn [negb].
    rewrite Hclose by exact Hd. split; reflexivity.
  - intros Hnz Hd Hc. rewrite Qzerob_false by exact Hnz. cbn [negb].
    rewrite Herr by assumption. split; reflexivity.
  - intros Hnz Hd Hc. rewrite Qzerob_false by exact Hnz. cbn [negb].
    rewrite Hwarn by assumption. split; reflexivity.
Qed.

Lemma subtotal_check_witness :
  pushedBy FromSubtotal
    (errors (validateInvoice 0 (withSubtotal (itemsOf (-100)) 500 400))) = []
  /\ pushedBy FromSubtotal
       (warnings (validateInvoice 0 (withSubtotal (itemsOf (-100)) 500 400)))
     = [MsgMinorSubtotal 500 (toFixed2 (calculatedSubtotal (itemsOf (-100))))].
Proof.
  apply (proj2 (proj2 (proj2
           (subtotal_check 0 (withSubtotal (itemsOf (-100)) 500 400)
              (itemsOf (-100)) 500 eq_refl ltac:(discriminate) eq_refl)))).
  - intro H. vm_compute in H. discriminate H.
  - vm_compute. discriminate.
  - right. vm_compute. reflexivity.
Defined.

(** A subtotal of 100.01 against items that add up to 100: the two
    numbers are 0.010000000000005116 apart, and the code warns.  A
    subtotal of 1.05 against 1.00: the computed difference is
    0.050000000000000044 of the calculated subtotal, and the code
    reports an error. *)
Example subtotal_at_the_thresholds :
  snd (findings 0 (withSubtotal (itemsOf 100) (fl (10001 # 100)) (fl (10001 # 100))))
  = [MsgMinorSubtotal (fl (10001 # 100)) (toFixed2 100)]
  /\ fst (findings 0 (withSubtotal (itemsOf 1) (fl (105 # 100)) (fl (105 # 100))))
     = [MsgSubtotalMismatch (fl (105 # 100)) (toFixed2 1)].
Proof. vm_compute. split; reflexivity. Qed.

(** X17. The total check of an invoice with line items, against
    the expected total as the code computes it: the extracted
    subtotal when it is not 0 and the sum of the item amounts
    otherwise, plus tax, minus discount, plus shipping.  A total of 0
    is not checked.  Otherwise the findings are split as for the
    subtotal: nothing within 0.01, and from 0.01 + 1e-17 on one
    message, an error when the computed difference is 5% + 1e-17 or
    more of a positive expected total or when the expected total is
    0, a warning when it is at most 5% of it or when the expected
    total is negative. *)
Theorem total_check (now : Z) (invoice : ExtractedData)
        (items : list LineItem) (t : Q) :
  lineItems invoice = Val items -> items <> [] ->
  totalAmount invoice = Val t ->
  let calc := calculatedSubtotal items in
  let base := match subtotal invoice with
              | Val s => if Qeq_bool s 0 then calc else s
              | _ => calc
              end in
  let expected := fadd (fsub (fadd base (orZero (taxAmount invoice)))
                             (orZero (discountAmount invoice)))
                       (orZero (shippingAmount invoice)) in
  let diff := Qabs (fsub t expected) in
  let above := 1 # 100000000000000000 in
  let E := pushedBy FromTotal (errors (validateInvoice now invoice)) in
  let W := pushedBy FromTotal (warnings (validateInvoice now invoice)) in
  (t == 0 -> E = [] /\ W = [])
  /\ (~ t == 0 -> Qabs (t - expected) <= 1 # 100 -> E = [] /\ W = [])
  /\ (~ t == 0 -> (1 # 100) + above <= Qabs (t - expected) ->
      (0 < expected /\ (5 # 100) + above <= diff / expected) \/ expected == 0 ->
      E = [MsgTotalMismatch t (toFixed2 expected)] /\ W = [])
  /\ (~ t == 0 -> (1 # 100) + above <= Qabs (t - expected) ->
      (0 < expected /\ diff / expected <= 5 # 100) \/ expected < 0 ->
      E = [] /\ W = [MsgMinorTotal t (toFixed2 expected)]).
Proof.
  intros Hitems Hne Htot. cbv zeta.
  destruct (pushedBy_check FromTotal now invoice items Hitems Hne)
    as (_ & Hcheck & _).
  destruct (Hcheck eq_refl) as [-> ->]. clear Hcheck.
  unfold checkTotal. rewrite Htot. cbn [truthyN num].
  assert (Hexp : expectedTotal invoice (calculatedSubtotal items)
                 = fadd (fsub (fadd match subtotal invoice with
                                    | Val s => if Qeq_bool s 0
                                               then calculatedSubtotal items else s
                                    | _ => calculatedSubtotal items
                                    end (orZero (taxAmount invoice)))
                              (orZero (discountAmount invoice)))
                        (orZero (shippingAmount invoice))).
  { unfold expectedTotal, truthyN, Qzerob.
    destruct (subtotal invoice) as [ | | s ]; try reflexivity.
    cbn [num]. destruct (Qeq_bool s 0); reflexivity. }
  rewrite Hexp. clear Hexp.
  match goal with
  | |- context [mismatch t ?e _ _] => generalize e
  end.
  intro expected.
  destruct (mismatch_cases t expected MsgTotalMismatch MsgMinorTotal)
    as (Hclose & Herr & Hwarn).
  split; [ | split; [ | split ] ].
  - intro Hz. unfold Qzerob.
    replace (Qeq_bool t 0) with true by (symmetry; now apply Qeq_bool_iff).
    split; reflexivity.
  - intros Hnz Hd. rewrite Qzerob_false by exact Hnz. cbn [negb].
    rewrite Hclose by exact Hd. split; reflexivity.
  - intros Hnz Hd Hc. rewrite Qzerob_false by exact Hnz. cbn [negb].
    rewrite Herr by assumption. split; reflexivity.
  - intros Hnz Hd Hc. rewrite Qzerob_false by exact Hnz. cbn [negb].
    rewrite Hwarn by assumption. split; reflexivity.
Qed.

Lemma total_check_witness :
  pushedBy FromTotal
    (errors (validateInvoice 0 (withSubtotal (itemsOf 100) 120 100)))
  = [MsgTotalMismatch 100 (toFixed2 (fadd (fsub (fadd 120 0) 0) 0))]
  /\ pushedBy FromTotal
       (warnings (validateInvoice 0 (withSubtotal (itemsOf 100) 120 100))) = [].
Proof.
  apply (proj1 (proj2 (proj2
           (total_check 0 (withSubtotal (itemsOf 100) 120 100)
              (itemsOf 100) 100 eq_refl ltac:(discriminate) eq_refl)))).
  - intro H. vm_compute in H. discriminate H.
  - vm_compute. discriminate.
  - left. split; vm_compute; [ reflexivity | discriminate ].
Defined.

(** ** What a valid result guarantees *)

Lemma pushIf_nil (b : bool) (m : Message) : pushIf b m = [] -> b = false.
Proof. destruct b; [ discriminate | reflexivity ]. Qed.

Lemma valid_no_errors (now : Z) (invoice : ExtractedData) :
  isValid (validateInvoice now invoice) = true ->
  validateRequiredFields invoice = []
  /\ fst (validateCalculations invoice) = []
  /\ fst (validateFormats now invoice) = []
  /\ fst (validateBusinessRules invoice) = [].
Proof.
  intro H.
  assert (He : errors (validateInvoice now invoice) = []).
  { unfold validateInvoice in *. cbn [isValid errors] in *.
    apply Nat.eqb_eq in H. now apply nil_length_inv. }
  rewrite errors_decomposed in He.
  apply app_eq_nil in He as [H1 He].
  apply app_eq_nil in He as [H2 He].
  apply app_eq_nil in He as [H3 H4].
  auto.
Qed.

(** X18.  What [isValid] guarantees about the invoice: a non-empty
    vendor name and invoice number, an invoice date that parses, a
    due date that is absent or parses to an instant not before the
    invoice date, a total amount that is a number and not negative,
    and a discount that does not exceed the subtotal when both are
    non-zero.  A total of 0 is accepted, but only together with
    line items. *)
Theorem valid_invoice_guarantees (now : Z) (invoice : ExtractedData) :
  isValid (validateInvoice now invoice) = true ->
  (exists name, vendorName invoice = Val name /\ name <> EmptyString)
  /\ (exists n, invoiceNumber invoice = Val n /\ n <> EmptyString)
  /\ (exists ms, invoiceDate invoice = DateAt ms
                 /\ (forall raw, dueDate invoice <> DateInvalid raw)
                 /\ (forall due, dueDate invoice = DateAt due -> (ms <= due)%Z))
  /\ (exists t, totalAmount invoice = Val t /\ 0 <= t
                /\ (t == 0 -> exists it rest, lineItems invoice = Val (it :: rest)))
  /\ (forall s d, subtotal invoice = Val s -> discountAmount invoice = Val d ->
                  ~ s == 0 -> ~ d == 0 -> d <= s).
Proof.
  intro H. destruct (valid_no_errors now invoice H) as (Hreq & _ & Hfmt & Hbiz).
  clear H. unfold validateRequiredFields in Hreq.
  apply app_eq_nil in Hreq as [Hv Hreq].
  apply app_eq_nil in Hreq as [Hn Hreq].
  apply app_eq_nil in Hreq as [Hd Hreq].
  apply app_eq_nil in Hreq as [Ht Hitems].
  apply pushIf_nil in Hv, Hn, Hd, Ht, Hitems.
  unfold validateFormats in Hfmt. cbn [both fst snd] in Hfmt.
  apply app_eq_nil in Hfmt as [Hinv Hfmt].
  apply app_eq_nil in Hfmt as [Hdue _].
  unfold validateBusinessRules in Hbiz. cbn [both fst snd] in Hbiz.
  apply app_eq_nil in Hbiz as [Horder Hbiz].
  apply app_eq_nil in Hbiz as [Hdisc Hbiz].
  apply app_eq_nil in Hbiz as [_ Htotal].
  apply pushIf_nil in Horder.
  split; [ | split; [ | split; [ | split ] ] ].
  - unfold missingS, truthyS in Hv.
    destruct (vendorName invoice) as [ | | name ]; try discriminate Hv.
    exists name. split; [ reflexivity | ].
    intros ->. discriminate Hv.
  - unfold missingS, truthyS in Hn.
    destruct (invoiceNumber invoice) as [ | | n ]; try discriminate Hn.
    exists n. split; [ reflexivity | ].
    intros ->. discriminate Hn.
  - destruct (invoiceDate invoice) as [ | raw | ms ];
      [ discriminate Hd | discriminate Hinv | ].
    exists ms. split; [ reflexivity | ].
    destruct (dueDate invoice) as [ | raw | due ].
    + split; [ discriminate | discriminate ].
    + discriminate Hdue.
    + split; [ discriminate | ].
      intros due' [= <-]. cbn in Horder. apply Z.ltb_ge in Horder. exact Horder.
  - destruct (totalAmount invoice) as [ | | t ] eqn:Et;
      [ discriminate Ht | discriminate Ht | ].
    exists t. split; [ reflexivity | ].
    cbn [truthyN num] in Htotal, Hitems.
    destruct (Qzerob t) eqn:Ez.
    + unfold Qzerob in Ez. apply Qeq_bool_iff in Ez. split; [ lra | ].
      intros _. cbn [negb] in Hitems. rewrite andb_true_r in Hitems.
      destruct (lineItems invoice) as [ | | [ | it rest ] ];
        try discriminate Hitems.
      now exists it, rest.
    + cbn [negb fst] in Htotal. apply pushIf_nil in Htotal.
      assert (Hpos : 0 < t).
      { apply Qnot_le_lt. intro Hle. apply Qleb_le in Hle. congruence. }
      split; [ lra | ]. intro Hz. lra.
  - intros s d Hs Hdd Hsz Hdz. rewrite Hs, Hdd in Hdisc.
    cbn [truthyN num] in Hdisc.
    rewrite !Qzerob_false in Hdisc by assumption.
    cbn [negb andb fst] in Hdisc. apply pushIf_nil in Hdisc.
    now apply Qltb_ge in Hdisc.
Qed.

Lemma valid_invoice_guarantees_witness :
  exists t, totalAmount zeroAmount = Val t /\ 0 <= t
            /\ (t == 0 -> exists it rest, lineItems zeroAmount = Val (it :: rest)).
Proof.
  apply (valid_invoice_guarantees 0 zeroAmount). reflexivity.
Defined.

(** ** The range of the confidence scores *)

Lemma fold_Qplus_bounds (l : list Q) :
  Forall (fun x => 0 <= x <= 1) l ->
  forall acc,
    acc <= fold_left Qplus l acc
    /\ fold_left Qplus l acc <= acc + inject_Z (Z.of_nat (length l)).
Proof.
  induction 1 as [ | x l [Hx0 Hx1] _ IH ]; intro acc.
  - cbn [fold_left length]. change (inject_Z (Z.of_nat 0)) with 0. split; lra.
  - cbn [fold_left length]. destruct (IH (acc + x)) as [H1 H2].
    rewrite Nat2Z.inj_succ. unfold Z.succ. rewrite inject_Z_plus.
    change (inject_Z 1) with 1. split; lra.
Qed.

Lemma mean_range (l : list Q) :
  l <> [] -> Forall (fun x => 0 <= x <= 1) l ->
  0 <= sumQ l / inject_Z (Z.of_nat (length l)) <= 1.
Proof.
  intros Hne Hall. destruct (fold_Qplus_bounds l Hall 0) as [H0 H1].
  fold (sumQ l) in H0, H1.
  assert (Hlen : 0 < inject_Z (Z.of_nat (length l))).
  { change 0 with (inject_Z 0). rewrite <- Zlt_Qlt.
    destruct l; [ contradiction | cbn [length]; lia ]. }
  split.
  - apply Qle_shift_div_l; [ exact Hlen | lra ].
  - apply Qle_shift_div_r; [ exact Hlen | lra ].
Qed.

Lemma scores_not_empty (d : ExtractedData) : scores d <> [].
Proof. unfold scores. discriminate. Qed.

(** X19.  [calculateConfidenceScore] averages between one and three
    scores, so it never divides by zero, and its result lies in
    [0, 1] as soon as the confidences found in the data do: that of
    every line item and the overall one. *)
Theorem calculateConfidenceScore_range (d : ExtractedData) :
  (forall items it c,
      lineItems d = Val items -> In it items -> confidence it = Val c ->
      0 <= c <= 1) ->
  (forall c, confidenceScore d = Val c -> 0 <= c <= 1) ->
  (1 <= length (scores d) <= 3)%nat
  /\ 0 <= calculateConfidenceScore d <= 1.
Proof.
  intros Hitems Hall. split.
  - unfold scores. rewrite !length_app.
    destruct (lineItems d) as [ | | [ | x rest ] ], (truthyN (confidenceScore d));
      cbn [length]; lia.
  - unfold calculateConfidenceScore. apply mean_range; [ apply scores_not_empty | ].
    unfold scores. rewrite !Forall_app. split; [ | split ].
    + constructor; [ | constructor ].
      destruct (truthyS (vendorName d)), (truthyS (invoiceNumber d)),
        (truthyD (invoiceDate d)), (truthyN (totalAmount d)),
        (truthyL (lineItems d)); vm_compute; split; discriminate.
    + destruct (lineItems d) as [ | | [ | x rest ] ] eqn:El;
        try constructor; [ | constructor ].
      pose proof (fun it c => Hitems (x :: rest) it c eq_refl) as Hit.
      assert (Hne : x :: rest <> []) by discriminate.
      revert Hit Hne. generalize (x :: rest). intros items Hit Hne.
      rewrite <- (length_map (fun item => orZero (confidence item)) items).
      apply mean_range.
      * intro Hnil. apply Hne. now apply map_eq_nil in Hnil.
      * apply Forall_map. apply Forall_forall. intros it Hin.
        apply list_elem_of_In in Hin.
        destruct (confidence it) as [ | | c ] eqn:Ec; cbn [orZero];
          try (split; discriminate).
        destruct (Qzerob c); [ split; discriminate | ].
        exact (Hit it c Hin Ec).
    + destruct (confidenceScore d) as [ | | c ] eqn:Ec; cbn [truthyN];
        try constructor.
      destruct (Qzerob c); cbn [negb]; constructor; [ | constructor ].
      cbn [num]. now apply Hall.
Qed.

Lemma calculateConfidenceScore_range_witness :
  0 <= calculateConfidenceScore (generateMockInvoiceData sampleRandom 0 0) <= 1.
Proof.
  apply (calculateConfidenceScore_range (generateMockInvoiceData sampleRandom 0 0)).
  - intros items it c Hitems Hin Hc. vm_compute in Hitems.
    injection Hitems as <-.
    destruct Hin as [<- | [<- | []]]; injection Hc as <-;
      vm_compute; split; discriminate.
  - intros c Hc. vm_compute in Hc. injection Hc as <-.
    vm_compute. split; discriminate.
Defined.

(** Without the assumption the score leaves the range: a reported
    confidence of 3 on an otherwise complete invoice gives 1.9. *)
Example calculateConfidenceScore_above_one :
  calculateConfidenceScore
    {| vendorName := Val "Acme Supplies"%string; vendorAddress := Undefined;
       vendorEmail := Undefined; vendorPhone := Undefined;
       invoiceNumber := Val "INV-7"%string; invoiceDate := DateAt 0;
       dueDate := DateAbsent; purchaseOrderNumber := Undefined;
       customerName := Undefined; customerAddress := Undefined;
       lineItems := Undefined; subtotal := Undefined; taxRate := Undefined;
       taxAmount := Undefined; discountAmount := Undefined;
       shippingAmount := Undefined; totalAmount := Val 10;
       currency := Undefined; paymentTerms := Undefined;
       paymentMethod := Undefined; bankDetails := Undefined;
       confidenceScore := Val 3; anomalies := Undefined |} == 19 # 10.
Proof. vm_compute. reflexivity. Qed.

(** X20.  The penalty of [adjustConfidenceScore]: the adjusted score
    never exceeds a base confidence that is not negative; it does
    not go up when errors or warnings are added or the base goes
    down; a result without findings leaves a base in [0, 1] as it
    is; and ten errors bring every base up to 1 down to 0. *)
Theorem adjustConfidenceScore_penalty (base : Q) (v : ValidationResult) :
  (0 <= base -> adjustConfidenceScore base v <= base)
  /\ (forall base' v',
         base' <= base ->
         (length (errors v) <= length (errors v'))%nat ->
         (length (warnings v) <= length (warnings v'))%nat ->
         adjustConfidenceScore base' v' <= adjustConfidenceScore base v)
  /\ (errors v = [] -> warnings v = [] -> 0 <= base <= 1 ->
      adjustConfidenceScore base v == base)
  /\ (base <= 1 -> (10 <= length (errors v))%nat ->
      adjustConfidenceScore base v == 0).
Proof.
  unfold adjustConfidenceScore. cbv zeta.
  assert (HE : 0 <= inject_Z (Z.of_nat (length (errors v)))).
  { change 0 with (inject_Z 0). rewrite <- Zle_Qle. lia. }
  assert (HW : 0 <= inject_Z (Z.of_nat (length (warnings v)))).
  { change 0 with (inject_Z 0). rewrite <- Zle_Qle. lia. }
  split; [ | split; [ | split ] ].
  - intro Hb. apply Q.max_lub; [ exact Hb | ].
    eapply Qle_trans; [ apply Q.le_min_r | ]. lra.
  - intros base' v' Hbase He Hw.
    apply Nat2Z.inj_le in He, Hw. rewrite Zle_Qle in He, Hw.
    apply Q.max_le_compat_l. apply Q.min_le_compat_l. lra.
  - intros -> -> [H0 H1]. cbn [length]. change (inject_Z (Z.of_nat 0)) with 0.
    rewrite Q.min_r by lra. rewrite Q.max_r by lra. ring.
  - intros Hb He. apply Nat2Z.inj_le in He. rewrite Zle_Qle in He.
    change (inject_Z (Z.of_nat 10)) with 10 in He.
    rewrite Q.min_r by lra. apply Q.max_l. lra.
Qed.

Lemma adjustConfidenceScore_penalty_witness :
  adjustConfidenceScore (9 # 10) (validateInvoice 0 wrongAmount)
  <= adjustConfidenceScore (95 # 100) (validateInvoice 0 zeroAmount).
Proof.
  apply (proj1 (proj2 (adjustConfidenceScore_penalty (95 # 100)
                         (validateInvoice 0 zeroAmount)))).
  - discriminate.
  - vm_compute. lia.
  - vm_compute. lia.
Defined.

(** ** The two validators *)

Lemma origin_of (o : Origin) (l : list Message) (m : Message) :
  Forall (fun m => origin m = o) l -> In m l -> origin m = o.
Proof. intros H Hin. exact (proj1 (List.Forall_forall _ l) H m Hin). Qed.

(** Where an error of the result comes from. *)
Lemma errors_by_origin (now : Z) (invoice : ExtractedData) (m : Message) :
  In m (errors (validateInvoice now invoice)) ->
  (origin m = FromRequiredFields /\ In m (validateRequiredFields invoice))
  \/ (exists items,
         lineItems invoice = Val items /\ items <> []
         /\ ((origin m = FromLineItems /\ In m (fst (lineItemsLoop 0 items)))
             \/ (origin m = FromSubtotal
                 /\ In m (fst (checkSubtotal invoice (calculatedSubtotal items))))
             \/ (origin m = FromTotal
                 /\ In m (fst (checkTotal invoice (calculatedSubtotal items))))))
  \/ (origin m = FromFormats /\ In m (fst (validateFormats now invoice)))
  \/ (origin m = FromBusinessRules /\ In m (fst (validateBusinessRules invoice))).
Proof.
  rewrite errors_decomposed. intro H.
  apply in_app_or in H as [H | H];
    [ left; split; [ | exact H ];
      exact (origin_of _ _ _ (required_origin invoice) H) | right ].
  apply in_app_or in H as [H | H]; [ left | right ].
  - unfold validateCalculations in H.
    destruct (lineItems invoice) as [ | | [ | x rest ] ] eqn:El;
      try (destruct H; fail).
    exists (x :: rest). split; [ reflexivity | ]. split; [ discriminate | ].
    revert H. generalize (x :: rest). intros items H.
    cbn [both fst snd] in H.
    apply in_app_or in H as [H | H];
      [ left; split; [ | exact H ];
        exact (origin_of _ _ _ (proj1 (lineItemsLoop_origin items 0)) H) | right ].
    apply in_app_or in H as [H | H]; [ left | right ].
    + split; [ | exact H ]. revert H. unfold checkSubtotal.
      destruct (truthyN (subtotal invoice)); [ | intros [] ].
      apply origin_of. now apply mismatch_origin.
    + rewrite app_nil_r in H. split; [ | exact H ]. revert H. unfold checkTotal.
      destruct (truthyN (totalAmount invoice)); [ | intros [] ].
      apply origin_of. now apply mismatch_origin.
  - apply in_app_or in H as [H | H]; [ left | right ]; (split; [ | exact H ]).
    + exact (origin_of _ _ _ (proj1 (formats_origin now invoice)) H).
    + exact (origin_of _ _ _ (proj1 (businessRules_origin invoice)) H).
Qed.

(** A warning of the total check comes from [checkTotal]. *)
Lemma total_warning_origin (now : Z) (invoice : ExtractedData) (t c : Q) :
  In (MsgMinorTotal t c) (warnings (validateInvoice now invoice)) ->
  exists items,
    lineItems invoice = Val items /\ items <> []
    /\ In (MsgMinorTotal t c) (snd (checkTotal invoice (calculatedSubtotal items))).
Proof.
  rewrite warnings_decomposed. intro H.
  apply in_app_or in H as [H | H].
  - unfold validateCalculations in H.
    destruct (lineItems invoice) as [ | | [ | x rest ] ] eqn:El;
      try (destruct H; fail).
    exists (x :: rest). split; [ reflexivity | ]. split; [ discriminate | ].
    revert H. generalize (x :: rest). intros items H.
    cbn [both fst snd] in H.
    apply in_app_or in H as [H | H];
      [ pose proof (origin_of _ _ _ (proj2 (lineItemsLoop_origin items 0)) H) as Ho;
        discriminate Ho | ].
    apply in_app_or in H as [H | H].
    + exfalso. revert H. unfold checkSubtotal.
      destruct (truthyN (subtotal invoice)); [ | intros [] ].
      intro H.
      assert (Ho : origin (MsgMinorTotal t c) = FromSubtotal).
      { refine (origin_of _ _ _ _ H). now apply mismatch_origin. }
      discriminate Ho.
    + apply in_app_or in H as [H | H]; [ exact H | ].
      pose proof (origin_of _ _ _ (checkTax_origin invoice) H) as Ho.
      discriminate Ho.
  - apply in_app_or in H as [H | H];
      [ pose proof (origin_of _ _ _ (proj2 (formats_origin now invoice)) H) as Ho;
        discriminate Ho | ].
    apply in_app_or in H as [H | H];
      [ pose proof (origin_of _ _ _ (proj2 (businessRules_origin invoice)) H) as Ho;
        discriminate Ho | ].
    pose proof (origin_of _ _ _ (anomalies_origin invoice) H) as Ho.
    discriminate Ho.
Qed.

Lemma In_pushEx (b : bool) (m x : ExtractionMessage) :
  In x (pushEx b m) <-> b = true /\ x = m.
Proof.
  destruct b; simpl; split; intros H; try tauto.
  - destruct H as [H | []]. now split.
  - destruct H as [_ H]. now left.
  - destruct H as [H _]. discriminate H.
Qed.

Lemma mismatch_In (x calc : Q) (err warn : Q -> Q -> Message) (m : Message) :
  In m (fst (mismatch x calc err warn)) \/ In m (snd (mismatch x calc err warn)) ->
  fl (1 # 100) < Qabs (fsub x calc)
  /\ (m = err x (toFixed2 calc) \/ m = warn x (toFixed2 calc)).
Proof.
  unfold mismatch, Math_abs.
  destruct (Qltb (fl (1 # 100)) (Qabs (fsub x calc))) eqn:E.
  - intro H. split; [ now apply Qltb_lt | ].
    destruct (ratioExceeds _ _ _); cbn in H; intuition.
  - cbn. tauto.
Qed.

Lemma extractionLoop_warnings (m : ExtractionMessage) (items : list LineItem) :
  forall start calc,
    In m (snd (fst (extractionLoop start items calc))) ->
    exists index score, m = ExLowItemConfidence index score.
Proof.
  induction items as [ | x rest IH ]; intros start calc H; [ destruct H | ].
  cbn [extractionLoop] in H.
  specialize (IH (S start) (nanOp fadd calc (toNumber (amount x)))).
  destruct (extractionLoop (S start) rest (nanOp fadd calc (toNumber (amount x))))
    as [[e w] c].
  cbn [fst snd] in *. apply in_app_or in H as [H | H]; [ | now apply IH ].
  unfold extractionItemWarnings in H. apply In_pushEx in H as [_ ->]. eauto.
Qed.

(** X21.  [validateExtraction] of the extraction service against
    [validateInvoice] of the validation service, on the same data.
    Where the validation service misses the vendor name, the
    invoice number or the total amount, the extraction service
    reports an error for the same field.  A total that the
    validation service reports, as an error or only as a minor
    discrepancy, is an error for the extraction service when the
    subtotal is not 0, against the subtotal plus tax, minus
    discount, plus shipping.  A due date before the invoice date is
    an error for the one exactly when it is a warning for the
    other.  The line items are not related in this way: the one
    service rounds the product of quantity and unit price to cents
    and the other does not. *)
Theorem validateExtraction_stricter (now : Z) (d : ExtractedData) :
  (forall label field,
      In (label, field)
         [("Vendor name", "vendorName"); ("Invoice number", "invoiceNumber");
          ("Total amount", "totalAmount")]%string ->
      In (MsgRequired label) (errors (validateInvoice now d)) ->
      In (ExMissingField field) (fst (validateExtraction d)))
  /\ (forall t c,
         truthyN (subtotal d) = true ->
         In (MsgTotalMismatch t c) (errors (validateInvoice now d))
         \/ In (MsgMinorTotal t c) (warnings (validateInvoice now d)) ->
         In (ExTotalMismatch t
               (fadd (fsub (fadd (num (subtotal d)) (orZero (taxAmount d)))
                           (orZero (discountAmount d)))
                     (orZero (shippingAmount d))))
            (fst (validateExtraction d)))
  /\ (In MsgDueBeforeInvoice (errors (validateInvoice now d))
      <-> In ExDueBeforeInvoice (snd (validateExtraction d))).
Proof.
  split; [ | split ].
  - intros label field Hin Herr.
    apply errors_by_origin in Herr.
    destruct Herr as [[_ Herr] | [(items & _ & _ & [[Ho _] | [[Ho _] | [Ho _]]])
                                 | [[Ho _] | [Ho _]]]];
      try discriminate Ho.
    unfold validateExtraction, extractionRequired. cbn [fst].
    unfold validateRequiredFields in Herr.
    repeat (apply in_app_or in Herr as [Herr | Herr]);
      apply In_pushIf in Herr as [Hb Heq]; try discriminate Heq;
      injection Heq as ->;
      destruct Hin as [Hin | [Hin | [Hin | []]]]; try discriminate Hin;
      injection Hin as <-.
    + apply in_or_app. left. apply in_or_app. left.
      apply In_pushEx. split; [ exact Hb | reflexivity ].
    + apply in_or_app. left. apply in_or_app. right. apply in_or_app. left.
      apply In_pushEx. split; [ exact Hb | reflexivity ].
    + apply in_or_app. left. apply in_or_app. right. apply in_or_app. right.
      apply In_pushEx. split; [ | reflexivity ].
      destruct (totalAmount d); [ reflexivity | reflexivity | discriminate Hb ].
  - intros t c Hsub Hin.
    assert (Hcheck : exists items,
               lineItems d = Val items /\ items <> []
               /\ (In (MsgTotalMismatch t c)
                      (fst (checkTotal d (calculatedSubtotal items)))
                   \/ In (MsgMinorTotal t c)
                        (snd (checkTotal d (calculatedSubtotal items))))).
    { destruct Hin as [Hin | Hin].
      - apply errors_by_origin in Hin.
        destruct Hin as [[Ho _] | [(items & Hi & Hne & [[Ho _] | [[Ho _] | [_ H]]])
                                  | [[Ho _] | [Ho _]]]];
          try discriminate Ho.
        exists items. auto.
      - apply total_warning_origin in Hin as (items & Hi & Hne & H).
        exists items. auto. }
    destruct Hcheck as (items & _ & _ & Hcheck).
    unfold checkTotal in Hcheck.
    destruct (truthyN (totalAmount d)) eqn:Et;
      [ | destruct Hcheck as [[] | []] ].
    assert (Hd : fl (1 # 100)
                 < Qabs (fsub (num (totalAmount d))
                              (expectedTotal d (calculatedSubtotal items)))
                 /\ t = num (totalAmount d)).
    { destruct Hcheck as [H | H].
      - destruct (mismatch_In _ _ _ _ _ (or_introl H)) as [Hd [Hm | Hm]];
          try discriminate Hm. split; [ exact Hd | now injection Hm ].
      - destruct (mismatch_In _ _ _ _ _ (or_intror H)) as [Hd [Hm | Hm]];
          try discriminate Hm. split; [ exact Hd | now injection Hm ]. }
    destruct Hd as [Hd ->].
    unfold validateExtraction, extractionTotal. cbn [fst].
    apply in_or_app. right. apply in_or_app. right.
    rewrite Hsub, Et. cbn [andb].
    unfold expectedTotal in *. rewrite Hsub in *.
    apply In_pushEx. split; [ | reflexivity ].
    now apply Qltb_lt.
  - unfold validateExtraction, extractionDates. cbn [snd]. split.
    + intro Hin. apply errors_by_origin in Hin.
      destruct Hin as [[Ho _] | [(items & _ & _ & [[Ho _] | [[Ho _] | [Ho _]]])
                                | [[Ho _] | [_ Hin]]]];
        try discriminate Ho.
      unfold validateBusinessRules in Hin. cbn [both fst snd] in Hin.
      apply in_app_or in Hin as [Hin | Hin].
      * apply In_pushIf in Hin as [Hb _].
        apply in_or_app. right. apply in_or_app. right.
        apply In_pushEx. split; [ exact Hb | reflexivity ].
      * exfalso.
        destruct (truthyN (discountAmount d) && truthyN (subtotal d))%bool,
          (truthyN (totalAmount d));
          cbn [fst snd noFindings app] in Hin;
          repeat (apply in_app_or in Hin as [Hin | Hin]);
          try (apply In_pushIf in Hin as [_ Hin]; discriminate Hin);
          try (destruct Hin; fail).
    + intro Hin. apply in_app_or in Hin as [Hin | Hin];
        [ unfold extractionConfidence in Hin;
          apply In_pushEx in Hin as [_ Hin]; discriminate Hin | ].
      apply in_app_or in Hin as [Hin | Hin].
      * exfalso. unfold extractionLineItems in Hin.
        destruct (lineItems d) as [ | | [ | x rest ] ]; try (destruct Hin; fail).
        pose proof (extractionLoop_warnings ExDueBeforeInvoice (x :: rest) 0 (Some 0))
          as Hw.
        destruct (extractionLoop 0 (x :: rest) (Some 0)) as [[ee ww] cc].
        cbn [fst snd] in *. destruct (Hw Hin) as (index & score & Heq).
        discriminate Heq.
      * apply In_pushEx in Hin as [Hb _].
        rewrite errors_decomposed.
        apply in_or_app. right. apply in_or_app. right. apply in_or_app. right.
        unfold validateBusinessRules. cbn [both fst snd].
        apply in_or_app. left. apply In_pushIf. split; [ exact Hb | reflexivity ].
Qed.

Lemma validateExtraction_stricter_witness :
  In (ExTotalMismatch 103
        (fadd (fsub (fadd (num (subtotal threePercentOff))
                          (orZero (taxAmount threePercentOff)))
                    (orZero (discountAmount threePercentOff)))
              (orZero (shippingAmount threePercentOff))))
     (fst (validateExtraction threePercentOff)).
Proof.
  apply (proj1 (proj2 (validateExtraction_stricter 0 threePercentOff))
           103 (toFixed2 (expectedTotal threePercentOff
                            (calculatedSubtotal (itemsOf 100))))).
  - reflexivity.
  - right. vm_compute. left. reflexivity.
Defined.

(** The converse fails: two units at 10 with an amount of 0 and a
    total of 0 are valid for the validation service, and a missing
    field and an amount mismatch for the extraction service. *)
Example validateExtraction_not_looser :
  isValid (validateInvoice 0 zeroAmount) = true
  /\ fst (validateExtraction zeroAmount)
     = [ExMissingField "totalAmount"; ExAmountMismatch 1 (Val 0) (fmul 2 10)].
Proof. vm_compute. split; reflexivity. Qed.

(** One unit at 1.0199999 billed 1.01: the validation service rounds
    the product to 1.02 and reports the item, the extraction service
    compares 1.01 with 1.0199999 and does not. *)
Example lineItem_error_not_shared :
  errors (validateInvoice 0 roundedUp)
  = [MsgLineItemCalc 1 1 (fl (10199999 # 10000000)) (fl (102 # 100)) (fl (101 # 100))]
  /\ fst (validateExtraction roundedUp) = [].
Proof. vm_compute. split; reflexivity. Qed.
